(** * ADF5355 synthesizer drivers: frequency planning and register programming

    A shallow embedding of the two Arduino sketches of the repository,

      - [src/test.cpp]: one ADF5355 on an ESP32 (module [Test]): the frequency
        planner [planFrequency], the register image and its write sequence;
      - [src/Optics Table/Variable Frequency Setup/10.525_GHz_3s_ON_3s_OFF_Sketch.cpp]:
        two ADF5355 boards on an RP2040, chopped on and off together
        (module [Sketch]).

    C++ [double] is IEEE 754 binary64 and is embedded as Rocq's primitive
    [float]; the unsigned integer types are [Z] with their wrap-around written
    out; the Arduino core (pins, delays, SPI, Serial) is a small state and
    output monad whose output is the sequence of hardware events. *)

From Stdlib Require Import ZArith Floats Lia List.
From stdpp Require Import base option list gmap strings.
From Equations Require Import Equations.

Local Open Scope Z_scope.

(** ** The Arduino core as a monad of hardware events *)

Module Arduino.

Inductive spi_bus := HSPI | SPI0 | SPI1.

Inductive pin_mode := INPUT | OUTPUT.

Inductive bit_order := LSBFIRST | MSBFIRST.

Record SPISettings := {
  spi_clock : Z;
  spi_order : bit_order;
  spi_mode  : Z
}.

Inductive printf_arg :=
| ArgDouble (x : float)
| ArgUnsigned (n : Z)
| ArgInt (n : Z)
| ArgStr (s : string).

(** Everything the sketches do to the outside world. *)
Inductive event :=
| SerialBegin (baud : Z)
| SerialPrintln (s : string)
| SerialPrintf (fmt : string) (args : list printf_arg)
| PinMode (pin : Z) (m : pin_mode)
| DigitalWrite (pin : Z) (level : bool)
| DigitalRead (pin : Z) (level : bool)
| Delay (ms : Z)
| DelayMicroseconds (us : Z)
| SpiBegin (bus : spi_bus) (pins : list Z)
| SpiBeginTransaction (bus : spi_bus) (cfg : SPISettings)
| SpiTransfer (bus : spi_bus) (byte : Z)
| SpiEndTransaction (bus : spi_bus).

Definition HIGH : bool := true.
Definition LOW : bool := false.

(** The board: the level each output pin is driven to, the direction of each
    pin, and the level the outside world puts on the input pins. *)
Record board := {
  levels : gmap Z bool;
  modes  : gmap Z pin_mode;
  inputs : Z -> bool
}.

Definition set_level (pin : Z) (v : bool) (b : board) : board :=
  {| levels := <[pin := v]> (levels b); modes := modes b; inputs := inputs b |}.

Definition set_mode (pin : Z) (m : pin_mode) (b : board) : board :=
  {| levels := levels b; modes := <[pin := m]> (modes b); inputs := inputs b |}.

(** A computation runs on a board and yields a result, the new board and the
    events it issued, in order; [None] is C++ undefined behaviour. *)
Definition M (A : Type) : Type := board -> option (A * board * list event).

#[export] Instance M_ret : MRet M := fun A a b => Some (a, b, []).

#[export] Instance M_bind : MBind M := fun A B k m b =>
  match m b with
  | None => None
  | Some (a, b1, o1) =>
      match k a b1 with
      | None => None
      | Some (r, b2, o2) => Some (r, b2, o1 ++ o2)
      end
  end.

Definition undefined {A} : M A := fun _ => None.

Definition defined {A} (o : option A) : M A :=
  match o with Some a => mret a | None => undefined end.

Definition emit (e : event) : M unit := fun b => Some (tt, b, [e]).

Definition pinMode (pin : Z) (m : pin_mode) : M unit :=
  fun b => Some (tt, set_mode pin m b, [PinMode pin m]).

Definition digitalWrite (pin : Z) (v : bool) : M unit :=
  fun b => Some (tt, set_level pin v b, [DigitalWrite pin v]).

Definition digitalRead (pin : Z) : M bool :=
  fun b => Some (inputs b pin, b, [DigitalRead pin (inputs b pin)]).

Definition delay (ms : Z) : M unit := emit (Delay ms).
Definition delayMicroseconds (us : Z) : M unit := emit (DelayMicroseconds us).

Definition Serial_begin (baud : Z) : M unit := emit (SerialBegin baud).
Definition Serial_println (s : string) : M unit := emit (SerialPrintln s).
Definition Serial_printf (fmt : string) (args : list printf_arg) : M unit :=
  emit (SerialPrintf fmt args).

Definition spi_begin (bus : spi_bus) (pins : list Z) : M unit :=
  emit (SpiBegin bus pins).
Definition beginTransaction (bus : spi_bus) (cfg : SPISettings) : M unit :=
  emit (SpiBeginTransaction bus cfg).
Definition transfer (bus : spi_bus) (byte : Z) : M unit :=
  emit (SpiTransfer bus byte).
Definition endTransaction (bus : spi_bus) : M unit :=
  emit (SpiEndTransaction bus).

(** Observations on an event sequence. *)

(** What one bus carries: the start of a transaction, a byte, the end of a
    transaction. *)
Inductive bus_op :=
| BusBegin (cfg : SPISettings)
| BusByte (byte : Z)
| BusEnd.

(** Whether two bus names are the same bus. *)
Definition same_bus (a b : spi_bus) : bool :=
  match a, b with
  | HSPI, HSPI | SPI0, SPI0 | SPI1, SPI1 => true
  | _, _ => false
  end.

(** The transactions of one bus, in order. *)
Fixpoint bus_traffic (bus : spi_bus) (t : list event) : list bus_op :=
  match t with
  | [] => []
  | SpiBeginTransaction b cfg :: t' =>
      if same_bus bus b then BusBegin cfg :: bus_traffic bus t'
      else bus_traffic bus t'
  | SpiTransfer b x :: t' =>
      if same_bus bus b then BusByte x :: bus_traffic bus t'
      else bus_traffic bus t'
  | SpiEndTransaction b :: t' =>
      if same_bus bus b then BusEnd :: bus_traffic bus t'
      else bus_traffic bus t'
  | _ :: t' => bus_traffic bus t'
  end.

(** Every byte clocked out, whatever the bus. *)
Fixpoint all_bytes (t : list event) : list Z :=
  match t with
  | [] => []
  | SpiTransfer _ x :: t' => x :: all_bytes t'
  | _ :: t' => all_bytes t'
  end.

(** The events that wait. *)
Definition is_delay (e : event) : bool :=
  match e with Delay _ | DelayMicroseconds _ => true | _ => false end.

(** The level a pin is driven to ([None]: never written). *)
Definition level (pin : Z) (b : board) : option bool := levels b !! pin.

(** The events of a run. *)
Definition events {A} (m : M A) (b : board) : list event :=
  match m b with Some (_, _, t) => t | None => [] end.

End Arduino.

Import Arduino.

(** The SPI configuration both sketches use:
    [SPISettings pllSPI(1000000, MSBFIRST, SPI_MODE0)]. *)
Definition pllSPI : SPISettings :=
  {| spi_clock := 1000000; spi_order := MSBFIRST; spi_mode := 0 |}.

(** ** The dual-board sketch *)

Module Sketch.

Definition A_SCLK : Z := 18.
Definition A_MOSI : Z := 19.
Definition A_LE   : Z := 20.
Definition A_CE   : Z := 17.

Definition B_SCLK : Z := 10.
Definition B_MOSI : Z := 11.
Definition B_LE   : Z := 12.
Definition B_CE   : Z := 13.

Definition spiA : spi_bus := SPI0.
Definition spiB : spi_bus := SPI1.

Definition pulseLE (pinLE : Z) : M unit :=
  digitalWrite pinLE HIGH;;
  delayMicroseconds 2;;
  digitalWrite pinLE LOW;;
  delayMicroseconds 2.

Definition writeReg (spi : spi_bus) (pinLE : Z) (reg : Z) : M unit :=
  beginTransaction spi pllSPI;;
  transfer spi (Z.land (Z.shiftr reg 24) 255);;
  transfer spi (Z.land (Z.shiftr reg 16) 255);;
  transfer spi (Z.land (Z.shiftr reg 8) 255);;
  transfer spi (Z.land (Z.shiftr reg 0) 255);;
  endTransaction spi;;
  pulseLE pinLE.

(** The register set of [programPLL], R12 first. *)
Definition regs : list Z :=
  [ 0x0001040C; 0x0061300B; 0x00C0000A; 0x00000009; 0x102D0428;
    0x12000007; 0x35000006; 0x00800005; 0x00000004; 0x00000003;
    0x00001002; 0x00000A41; 0x00550000 ].

(** [for (int i = 0; i < 13; i++) { ... }] over the array it is given; the
    fuel bounds the number of tests of [i < 13], and running out of it is
    [undefined], so a run that returns did leave the loop by its test. *)
Fixpoint programPLL_loop (image : list Z) (spi : spi_bus) (pinLE : Z)
    (name : string) (fuel : nat) (i : Z) : M unit :=
  match fuel with
  | O => undefined
  | S fuel' =>
      if i <? 13 then
        let rnum := 12 - i in
        reg ← defined (image !! Z.to_nat i);
        Serial_printf "%s: Writing R%d = 0x%08lX\n"
          [ArgStr name; ArgInt rnum; ArgUnsigned reg];;
        writeReg spi pinLE reg;;
        delay 2;;
        programPLL_loop image spi pinLE name fuel' (i + 1)
      else mret tt
  end.

Definition programPLL_image (image : list Z) (spi : spi_bus) (pinLE : Z)
    (name : string) : M unit :=
  Serial_printf "\nProgramming %s for 10.525 GHz RFOUTB...\n" [ArgStr name];;
  programPLL_loop image spi pinLE name 14 0;;
  Serial_printf "%s: Done.\n" [ArgStr name].

Definition programPLL (spi : spi_bus) (pinLE : Z) (name : string) : M unit :=
  programPLL_image regs spi pinLE name.

Definition setup : M unit :=
  Serial_begin 115200;;
  delay 1000;;
  Serial_println "Dual ADF5355 test: Board A on SPI0, Board B on SPI1";;
  pinMode A_LE OUTPUT;; pinMode A_CE OUTPUT;;
  pinMode B_LE OUTPUT;; pinMode B_CE OUTPUT;;
  digitalWrite A_LE LOW;; digitalWrite A_CE LOW;;
  digitalWrite B_LE LOW;; digitalWrite B_CE LOW;;
  spi_begin spiA [];;
  spi_begin spiB [];;
  programPLL spiA A_LE "ADF-A";;
  programPLL spiB B_LE "ADF-B".

Definition loop : M unit :=
  Serial_println "BOTH ON (CE HIGH)";;
  digitalWrite A_CE HIGH;;
  digitalWrite B_CE HIGH;;
  delay 3000;;
  Serial_println "BOTH OFF (CE LOW)";;
  digitalWrite A_CE LOW;;
  digitalWrite B_CE LOW;;
  delay 3000.

(** The Arduino core calls [setup] once and then [loop] again and again. *)
Fixpoint loops (n : nat) : M unit :=
  match n with
  | O => mret tt
  | S n' => loop;; loops n'
  end.

Definition run (n : nat) : M unit := setup;; loops n.

End Sketch.

(** ** C++ [double] and its conversions *)

Module Double.

(** [(double)n] for an unsigned integer below 2^63: the [uint8_t], [uint16_t]
    and [uint32_t] values of the sketch convert exactly. *)
Definition of_int (n : Z) : float := of_uint63 (Uint63.of_Z n).

(** The integer part of [m * 2^e], rounded toward zero. *)
Definition trunc_mag (m : positive) (e : Z) : Z := Z.shiftl (Zpos m) e.

(** [floor(x)] of <math.h>: the largest integral value not above [x]. *)
Definition floor (x : float) : float :=
  match Prim2SF x with
  | S754_finite s m e =>
      if 0 <=? e then x
      else
        let q := trunc_mag m e in
        if s then
          PrimFloat.opp (of_int (if Z.shiftl q (- e) =? Zpos m then q else q + 1))
        else of_int q
  | _ => x
  end.

(** [llround(x)] of <math.h>: the nearest integer, halfway cases away from
    zero, as a [long long]; a result that does not fit, and a NaN or an
    infinity, are left unspecified by the C library: [None]. *)
Definition llround (x : float) : option Z :=
  match Prim2SF x with
  | S754_zero _ => Some 0
  | S754_finite s m e =>
      let a :=
        if 0 <=? e then Z.shiftl (Zpos m) e
        else Z.shiftr (Zpos m + Z.shiftl 1 (- e - 1)) (- e) in
      let v := if s then - a else a in
      if (- 2 ^ 63 <=? v) && (v <? 2 ^ 63) then Some v else None
  | _ => None
  end.

(** [(uint32_t)x]: truncation toward zero; undefined behaviour ([None]) when
    the truncated value is not a [uint32_t]. *)
Definition to_uint32 (x : float) : option Z :=
  match Prim2SF x with
  | S754_zero _ => Some 0
  | S754_finite s m e =>
      let a := trunc_mag m e in
      let v := if s then - a else a in
      if (0 <=? v) && (v <? 2 ^ 32) then Some v else None
  | _ => None
  end.

End Double.

(** [(uint32_t)v] for an integer [v]: reduction modulo 2^32. *)
Definition uint32 (v : Z) : Z := v mod 2 ^ 32.

(** [(uint8_t)v]. *)
Definition uint8 (v : Z) : Z := v mod 2 ^ 8.

(** ** The single-board sketch, [src/test.cpp] *)

Module Test.

Import Double.

Inductive OutPower := PWR_MIN | PWR_1 | PWR_2 | PWR_3 | PWR_MAX.

(** The block "USER SETTINGS (edit only this block day-to-day)". *)
Record UserSettings := {
  REF_IN_HZ : float;
  REF_DOUBLER : bool;
  REF_DIV2 : bool;
  R_DIV : Z;
  RF_OUT_HZ : float;
  USE_RFOUTB : bool;
  CHANNEL_STEP_HZ : float;
  OUTPUT_POWER : OutPower;
  OUTPUT_ENABLE : bool;
  TOGGLE_CE_IN_LOOP : bool
}.

(** The settings as the file has them. *)
Definition user_settings : UserSettings := {|
  REF_IN_HZ := 10e6;
  REF_DOUBLER := false;
  REF_DIV2 := false;
  R_DIV := 1;
  RF_OUT_HZ := 10.525e9;
  USE_RFOUTB := true;
  CHANNEL_STEP_HZ := 1000.0;
  OUTPUT_POWER := PWR_MAX;
  OUTPUT_ENABLE := true;
  TOGGLE_CE_IN_LOOP := false
|}.

Definition PIN_SCLK : Z := 14.
Definition PIN_MOSI : Z := 15.
Definition PIN_LE   : Z := 27.
Definition PIN_CE   : Z := 25.
Definition PIN_LD   : Z := 26.

Definition hspi : spi_bus := HSPI.

Definition pulseLE : M unit :=
  digitalWrite PIN_LE HIGH;;
  delayMicroseconds 2;;
  digitalWrite PIN_LE LOW;;
  delayMicroseconds 2.

Definition writeReg (reg : Z) : M unit :=
  beginTransaction hspi pllSPI;;
  transfer hspi (Z.land (Z.shiftr reg 24) 255);;
  transfer hspi (Z.land (Z.shiftr reg 16) 255);;
  transfer hspi (Z.land (Z.shiftr reg 8) 255);;
  transfer hspi (Z.land (Z.shiftr reg 0) 255);;
  endTransaction hspi;;
  pulseLE.

Record PllParams := {
  pfd_hz : float;
  INT : Z;
  FRAC : Z;
  MOD : Z;
  out_div : Z;
  rfouta_en : bool;
  rfoutb_en : bool;
  pwr : OutPower
}.

(** Compute gcd for reducing fraction:
    [while (b) { uint32_t t = a % b; a = b; b = t; } return a;] *)
Equations? gcd_u32 (a b : Z) : Z by wf (Z.abs_nat b) lt :=
  gcd_u32 a b with Z.eq_dec b 0 := {
    | left _ => a
    | right _ => gcd_u32 b (a mod b)
  }.
Proof.
  pose proof (Z.mod_bound_or a b n). lia.
Qed.

Definition VCO_MIN : float := 6.0e9.
Definition VCO_MAX : float := 13.0e9.

(** [uint8_t div = 1; while ((rf_out_hz * div) < VCO_MIN && div < 64) div *= 2;]
    The fuel bounds the number of tests of the loop condition; [None] is
    running out of it. *)
Fixpoint choose_output_divider_loop (fuel : nat) (rf_out_hz : float) (div : Z)
    : option Z :=
  match fuel with
  | O => None
  | S fuel' =>
      if (rf_out_hz * of_int div <? VCO_MIN)%float && (div <? 64) then
        choose_output_divider_loop fuel' rf_out_hz (uint8 (div * 2))
      else Some div
  end.

Definition choose_output_divider (rf_out_hz : float) : option Z :=
  choose_output_divider_loop 7 rf_out_hz 1.

(** [if (mod < 2) mod = 2; if (mod > 0xFFFFFF) mod = 0xFFFFFF;] *)
Definition clamp_MOD (m : Z) : Z :=
  let m := if m <? 2 then 2 else m in
  if 0xFFFFFF <? m then 0xFFFFFF else m.

(** [if (FRAC == mod) { FRAC = 0; INT += 1; }], the rounding overflow. *)
Definition rounding_overflow (INT FRAC m : Z) : Z * Z :=
  if FRAC =? m then (uint32 (INT + 1), 0) else (INT, FRAC).

(** [uint32_t g = gcd_u32(FRAC, mod); if (g > 1) { FRAC /= g; mod /= g; }] *)
Definition reduce_FRAC_MOD (FRAC m : Z) : Z * Z :=
  let g := gcd_u32 FRAC m in
  if 1 <? g then (FRAC / g, m / g) else (FRAC, m).

Definition range_error_message : string :=
  "ERROR: Cannot place VCO in range with available dividers.".

Section Settings.

Variable cfg : UserSettings.

(** PFD = REF * ( (doubler?2:1) ) / ( R_DIV * (div2?2:1) ) *)
Definition pfd_calculation : float :=
  let ref := (REF_IN_HZ cfg * (if REF_DOUBLER cfg then 2.0 else 1.0)
              / (if REF_DIV2 cfg then 2.0 else 1.0))%float in
  (ref / of_int (R_DIV cfg))%float.

(** [(uint32_t)llround(p.pfd_hz / (CHANNEL_STEP_HZ * (double)p.out_div))],
    before the two clamps. *)
Definition raw_MOD (div : Z) : option Z :=
  v ← llround (pfd_calculation / (CHANNEL_STEP_HZ cfg * of_int div))%float;
  Some (uint32 v).

(** [uint32_t INT = (uint32_t)floor(N);
     double frac_f = (N - (double)INT) * (double)mod;
     uint32_t FRAC = (uint32_t)llround(frac_f);] *)
Definition compute_INT_FRAC (N : float) (m : Z) : option (Z * Z) :=
  INT ← to_uint32 (floor N);
  let frac_f := ((N - of_int INT) * of_int m)%float in
  v ← llround frac_f;
  Some (INT, uint32 v).

Definition planFrequency (rf_out_hz : float) : M PllParams :=
  let pfd := pfd_calculation in
  div ← defined (choose_output_divider rf_out_hz);
  let vco := (rf_out_hz * of_int div)%float in
  (if (VCO_MAX <? vco)%float then Serial_println range_error_message
   else mret tt);;
  let N := (vco / pfd)%float in
  m ← defined (raw_MOD div);
  let m := clamp_MOD m in
  '(INT, FRAC) ← defined (compute_INT_FRAC N m);
  let '(INT, FRAC) := rounding_overflow INT FRAC m in
  let '(FRAC, m) := reduce_FRAC_MOD FRAC m in
  mret {|
    pfd_hz := pfd;
    INT := INT;
    FRAC := FRAC;
    MOD := m;
    out_div := div;
    rfouta_en := negb (USE_RFOUTB cfg) && OUTPUT_ENABLE cfg;
    rfoutb_en := USE_RFOUTB cfg && OUTPUT_ENABLE cfg;
    pwr := OUTPUT_POWER cfg
  |}.

(** Write address (register number) into low bits:
    [word &= ~0xFu; word |= (r & 0x0F);] *)
Definition withAddr (word : Z) (r : Z) : Z :=
  let word := Z.land word 0xFFFFFFF0 in
  Z.lor word (Z.land r 0x0F).

(** Base register image, the initial value of the global [regImage]. *)
Definition regImage_base : list Z :=
  [ 0x0001040C; 0x0061300B; 0x00C0000A; 0x00000009; 0x102D0428;
    0x12000007; 0x35000006; 0x00800005; 0x00000004; 0x00000003;
    0x00001002; 0x00000A41; 0x00550000 ].

(** [regImage[i] = withAddr(regImage[i], i);] on the global array, which the
    functions below take and give back. *)
Definition patch_address (i : nat) (regImage : list Z) : option (list Z) :=
  word ← regImage !! i;
  Some (<[i := withAddr word (Z.of_nat i)]> regImage).

Definition applyFrequencyToRegs (p : PllParams) (regImage : list Z)
    : M (list Z) :=
  regImage ← defined (patch_address 12 regImage);
  regImage ← defined (patch_address 11 regImage);
  regImage ← defined (patch_address 10 regImage);
  regImage ← defined (patch_address 9 regImage);
  regImage ← defined (patch_address 8 regImage);
  regImage ← defined (patch_address 7 regImage);
  regImage ← defined (patch_address 6 regImage);
  regImage ← defined (patch_address 5 regImage);
  regImage ← defined (patch_address 4 regImage);
  regImage ← defined (patch_address 3 regImage);
  regImage ← defined (patch_address 2 regImage);
  regImage ← defined (patch_address 1 regImage);
  regImage ← defined (patch_address 0 regImage);
  Serial_printf
    "PFD=%.3f MHz | VCO=%.3f GHz | div=%u | INT=%lu FRAC=%lu MOD=%lu\n"
    [ ArgDouble (pfd_hz p / 1e6);
      ArgDouble ((RF_OUT_HZ cfg * of_int (out_div p)) / 1e9);
      ArgUnsigned (out_div p);
      ArgUnsigned (INT p);
      ArgUnsigned (FRAC p);
      ArgUnsigned (MOD p) ];;
  mret regImage.

(** The body is comments only. *)
Definition applyOutputToRegs (p : PllParams) (regImage : list Z)
    : M (list Z) :=
  mret regImage.

(** [for (int i = 12; i >= 0; --i) { writeReg(regImage[i]); delay(2); }]
    The fuel bounds the number of tests of [i >= 0]. *)
Fixpoint writeAllRegs_loop (regImage : list Z) (fuel : nat) (i : Z) : M unit :=
  match fuel with
  | O => undefined
  | S fuel' =>
      if 0 <=? i then
        reg ← defined (regImage !! Z.to_nat i);
        writeReg reg;;
        delay 2;;
        writeAllRegs_loop regImage fuel' (i - 1)
      else mret tt
  end.

Definition writeAllRegs (regImage : list Z) : M unit :=
  writeAllRegs_loop regImage 14 12.

Definition configureFromUserSettings (regImage : list Z) : M (list Z) :=
  p ← planFrequency (RF_OUT_HZ cfg);
  regImage ← applyFrequencyToRegs p regImage;
  regImage ← applyOutputToRegs p regImage;
  Serial_println "Writing register image (R12..R0)...";;
  writeAllRegs regImage;;
  Serial_println "Done.";;
  mret regImage.

Definition setup (regImage : list Z) : M (list Z) :=
  Serial_begin 115200;;
  delay 500;;
  pinMode PIN_LE OUTPUT;;
  pinMode PIN_CE OUTPUT;;
  digitalWrite PIN_LE LOW;;
  digitalWrite PIN_CE LOW;;
  (if 0 <=? PIN_LD then pinMode PIN_LD INPUT else mret tt);;
  spi_begin hspi [PIN_SCLK; (-1); PIN_MOSI; (-1)];;
  Serial_println "ADF5355 configurable synth (top-of-file settings)";;
  regImage ← configureFromUserSettings regImage;
  digitalWrite PIN_CE HIGH;;
  (if 0 <=? PIN_LD then
     delay 200;;
     ld ← digitalRead PIN_LD;
     Serial_printf "Lock detect: %d\n" [ArgInt (Z.b2z ld)]
   else mret tt);;
  mret regImage.

Definition loop : M unit :=
  if negb (TOGGLE_CE_IN_LOOP cfg) then
    delay 1000
  else
    Serial_println "CE HIGH";;
    digitalWrite PIN_CE HIGH;;
    delay 2000;;
    Serial_println "CE LOW";;
    digitalWrite PIN_CE LOW;;
    delay 2000.

(** The Arduino core calls [setup] once and then [loop] again and again. *)
Fixpoint loops (n : nat) : M unit :=
  match n with
  | O => mret tt
  | S n' => loop;; loops n'
  end.

Definition run (regImage : list Z) (n : nat) : M (list Z) :=
  regImage ← setup regImage;
  loops n;;
  mret regImage.

End Settings.

End Test.

(** ** Specification vocabulary *)

(** A 32-bit register word. *)
Definition word32 (w : Z) : Prop := 0 <= w < 2 ^ 32.

(** The four bytes of a word, most significant first. *)
Definition big_endian (w : Z) : list Z :=
  [ w / 2 ^ 24 mod 256; w / 2 ^ 16 mod 256; w / 2 ^ 8 mod 256; w mod 256 ].

(** The word a byte sequence spells, most significant byte first. *)
Definition from_big_endian (bs : list Z) : Z :=
  fold_left (fun acc x => acc * 256 + x) bs 0.

(** The transaction that carries a word: its four bytes, most significant
    first. *)
Definition transaction (w : Z) : list bus_op :=
  [BusBegin pllSPI] ++ map BusByte (big_endian w) ++ [BusEnd].

(** The latch pulse: drive high, hold, drive low, hold. *)
Definition latch_pulse (le : Z) : list event :=
  [ DigitalWrite le HIGH; DelayMicroseconds 2;
    DigitalWrite le LOW; DelayMicroseconds 2 ].

(** One register write on the wire: the transaction of four bytes, then the
    latch pulse. *)
Definition register_write (bus : spi_bus) (le : Z) (w : Z) : list event :=
  [SpiBeginTransaction bus pllSPI] ++ map (SpiTransfer bus) (big_endian w)
  ++ [SpiEndTransaction bus] ++ latch_pulse le.

(** The settle delay after a register write. *)
Definition settle : list event := [Delay 2].

(** In the sequence [t], every occurrence of [e] is directly followed by the
    events [next]. *)
Definition followed_by (e : event) (next : list event) (t : list event) : Prop :=
  forall pre post, t = pre ++ e :: post -> exists post', post = next ++ post'.

(** The board after a latch pulse on [le]. *)
Definition pulsed (le : Z) (b : board) : board :=
  set_level le LOW (set_level le HIGH b).

(** The board after [n] latch pulses on [le]. *)
Definition pulses (n : nat) (le : Z) (b : board) : board :=
  Nat.iter n (pulsed le) b.

(** What [programPLL] prints and writes for the register at position [i] of
    its array. *)
Definition programPLL_step (spi : spi_bus) (le : Z) (name : string)
    (i : nat) (w : Z) : list event :=
  [SerialPrintf "%s: Writing R%d = 0x%08lX\n"
     [ArgStr name; ArgInt (12 - Z.of_nat i); ArgUnsigned w]]
  ++ register_write spi le w ++ settle.

(** The shape of the latch pulse: a rising edge is held, then dropped. *)
Definition pulse_tail (le : Z) : list event :=
  [ DelayMicroseconds 2; DigitalWrite le LOW; DelayMicroseconds 2 ].

(** The line [applyFrequencyToRegs] prints. *)
Definition frequency_line (cfg : Test.UserSettings) (p : Test.PllParams) : event :=
  SerialPrintf
    "PFD=%.3f MHz | VCO=%.3f GHz | div=%u | INT=%lu FRAC=%lu MOD=%lu\n"
    [ ArgDouble (Test.pfd_hz p / 1e6);
      ArgDouble ((Test.RF_OUT_HZ cfg * Double.of_int (Test.out_div p)) / 1e9);
      ArgUnsigned (Test.out_div p);
      ArgUnsigned (Test.INT p);
      ArgUnsigned (Test.FRAC p);
      ArgUnsigned (Test.MOD p) ].

(** The image after the address patch. *)
Definition patched (regImage : list Z) : list Z :=
  imap (fun i w => Test.withAddr w (Z.of_nat i)) regImage.

(** The indices of the register image, from the last to the first. *)
Definition descending : list nat := [12; 11; 10; 9; 8; 7; 6; 5; 4; 3; 2; 1; 0]%nat.

(** Everything [programPLL] issues for an array of registers. *)
Definition programPLL_events (image : list Z) (spi : spi_bus) (le : Z)
    (name : string) : list event :=
  [SerialPrintf "\nProgramming %s for 10.525 GHz RFOUTB...\n" [ArgStr name]]
  ++ concat (imap (programPLL_step spi le name) image)
  ++ [SerialPrintf "%s: Done.\n" [ArgStr name]].

(** The board [setup] leaves behind. *)
Definition Sketch_setup_board (b : board) : board :=
  pulses 13 Sketch.B_LE
    (pulses 13 Sketch.A_LE
       (set_level Sketch.B_CE LOW (set_level Sketch.B_LE LOW
          (set_level Sketch.A_CE LOW (set_level Sketch.A_LE LOW
             (set_mode Sketch.B_CE OUTPUT (set_mode Sketch.B_LE OUTPUT
                (set_mode Sketch.A_CE OUTPUT (set_mode Sketch.A_LE OUTPUT b))))))))).

(** Everything [setup] issues. *)
Definition Sketch_setup_events : list event :=
  [ SerialBegin 115200; Delay 1000;
    SerialPrintln "Dual ADF5355 test: Board A on SPI0, Board B on SPI1";
    PinMode Sketch.A_LE OUTPUT; PinMode Sketch.A_CE OUTPUT;
    PinMode Sketch.B_LE OUTPUT; PinMode Sketch.B_CE OUTPUT;
    DigitalWrite Sketch.A_LE LOW; DigitalWrite Sketch.A_CE LOW;
    DigitalWrite Sketch.B_LE LOW; DigitalWrite Sketch.B_CE LOW;
    SpiBegin SPI0 []; SpiBegin SPI1 [] ]
  ++ programPLL_events Sketch.regs SPI0 Sketch.A_LE "ADF-A"
  ++ programPLL_events Sketch.regs SPI1 Sketch.B_LE "ADF-B".

(** What one pass of [loop] issues. *)
Definition Sketch_loop_events : list event :=
  [ SerialPrintln "BOTH ON (CE HIGH)";
    DigitalWrite Sketch.A_CE HIGH; DigitalWrite Sketch.B_CE HIGH; Delay 3000;
    SerialPrintln "BOTH OFF (CE LOW)";
    DigitalWrite Sketch.A_CE LOW; DigitalWrite Sketch.B_CE LOW; Delay 3000 ].

(** The board after one pass of [loop]. *)
Definition Sketch_loop_board (b : board) : board :=
  set_level Sketch.B_CE LOW (set_level Sketch.A_CE LOW
    (set_level Sketch.B_CE HIGH (set_level Sketch.A_CE HIGH b))).

(** In [t], nothing that waits lies between an occurrence of [e1] and the
    next [e2]. *)
Definition no_delay_until (e1 e2 : event) (t : list event) : Prop :=
  forall pre mid post,
    t = pre ++ e1 :: mid ++ e2 :: post -> e2 ∉ mid ->
    Forall (fun e => is_delay e = false) mid.

(** The computation [m] returns, leaves the latch line [le] low, and raised
    it only for pulses of the fixed shape. *)
Definition returns_with_latch_low {A} (le : Z) (m : M A) (b : board) : Prop :=
  exists a b' t,
    m b = Some (a, b', t)
    /\ level le b' = Some LOW
    /\ followed_by (DigitalWrite le HIGH) (pulse_tail le) t.

(** A board on which nothing has been driven yet. *)
Definition idle_board : board :=
  {| levels := ∅; modes := ∅; inputs := fun _ => false |}.

(** The settings of the file, for another target and channel step. *)
Definition settings_for (rf step : float) : Test.UserSettings := {|
  Test.REF_IN_HZ := 10e6;
  Test.REF_DOUBLER := false;
  Test.REF_DIV2 := false;
  Test.R_DIV := 1;
  Test.RF_OUT_HZ := rf;
  Test.USE_RFOUTB := true;
  Test.CHANNEL_STEP_HZ := step;
  Test.OUTPUT_POWER := Test.PWR_MAX;
  Test.OUTPUT_ENABLE := true;
  Test.TOGGLE_CE_IN_LOOP := false
|}.

(** The VCO frequency for a target and a divider: [rf_out_hz * div]. *)
Definition vco_of (rf : float) (div : Z) : float := (rf * Double.of_int div)%float.

(** What [planFrequency] prints: the error line when the VCO frequency lies
    above the band, and nothing otherwise. *)
Definition range_report (rf : float) (div : Z) : list event :=
  if (Test.VCO_MAX <? vco_of rf div)%float
  then [SerialPrintln Test.range_error_message] else [].

(** The output dividers of the loop. *)
Definition dividers : list Z := [1; 2; 4; 8; 16; 32; 64].

(** [VCO_MIN <= vco <= VCO_MAX]. *)
Definition in_band (vco : float) : bool :=
  (Test.VCO_MIN <=? vco)%float && (vco <=? Test.VCO_MAX)%float.

(** No divider places the VCO of the target in the band. *)
Definition unreachable (rf : float) : bool :=
  forallb (fun d => negb (in_band (vco_of rf d))) dividers.

(** The ceiling of the modulus. *)
Definition MOD_MAX : Z := 0xFFFFFF.

(** Whether the clamp changed the modulus computed for the divider [div]. *)
Definition clamp_changed (cfg : Test.UserSettings) (div : Z) : bool :=
  match Test.raw_MOD cfg div with
  | Some m => negb (Test.clamp_MOD m =? m)
  | None => false
  end.

(** The dividers as doubles: 2^k is the mantissa 2^52 at exponent k - 52. *)
Definition divider_exponents : list (Z * Z) :=
  [(1, 0); (2, 1); (4, 2); (8, 3); (16, 4); (32, 5); (64, 6)].

(** The byte groups a receiver on the bus sees, one per transaction; [cur]
    holds the bytes of the transaction under way. *)
Fixpoint frames (ops : list bus_op) (cur : list Z) : list (list Z) :=
  match ops with
  | [] => []
  | BusBegin _ :: ops' => frames ops' []
  | BusByte x :: ops' => frames ops' (cur ++ [x])
  | BusEnd :: ops' => cur :: frames ops' []
  end.

(** The words a receiver on [bus] shifts in, one per transaction. *)
Definition received_words (bus : spi_bus) (t : list event) : list Z :=
  map from_big_endian (frames (bus_traffic bus t) []).

(** The level of a pin after one more event. *)
Definition level_step (pin : Z) (cur : option bool) (e : event) : option bool :=
  match e with
  | DigitalWrite p v => if p =? pin then Some v else cur
  | _ => cur
  end.

(** The level of a pin after a sequence of events, from the level [cur]. *)
Definition level_after (pin : Z) (cur : option bool) (t : list event) : option bool :=
  fold_left (level_step pin) t cur.

(** The level of [pin] at each of the events of [t] that [sel] picks. *)
Fixpoint snapshots (pin : Z) (sel : event -> bool) (cur : option bool)
    (t : list event) : list (event * option bool) :=
  match t with
  | [] => []
  | e :: t' =>
      if sel e then (e, cur) :: snapshots pin sel (level_step pin cur e) t'
      else snapshots pin sel (level_step pin cur e) t'
  end.

(** The events that put a byte on a bus. *)
Definition is_transfer (e : event) : bool :=
  match e with SpiTransfer _ _ => true | _ => false end.

(** The board [Test.setup] leaves behind. *)
Definition Test_setup_board (b : board) : board :=
  set_level Test.PIN_CE HIGH
    (pulses 13 Test.PIN_LE
       (set_mode Test.PIN_LD INPUT
          (set_level Test.PIN_CE LOW (set_level Test.PIN_LE LOW
             (set_mode Test.PIN_CE OUTPUT (set_mode Test.PIN_LE OUTPUT b)))))).

(** What [configureFromUserSettings] issues once the planner has returned
    the parameters [p] and printed [t1]. *)
Definition configure_events (cfg : Test.UserSettings) (p : Test.PllParams)
    (t1 : list event) (regImage : list Z) : list event :=
  t1 ++ [frequency_line cfg p;
         SerialPrintln "Writing register image (R12..R0)..."]
  ++ flat_map (fun w => register_write HSPI Test.PIN_LE w ++ settle)
              (rev (patched regImage))
  ++ [SerialPrintln "Done."].

(** Everything [Test.setup] issues, for the lock-detect level [ld]. *)
Definition Test_setup_events (cfg : Test.UserSettings) (p : Test.PllParams)
    (t1 : list event) (regImage : list Z) (ld : bool) : list event :=
  [ SerialBegin 115200; Delay 500;
    PinMode Test.PIN_LE OUTPUT; PinMode Test.PIN_CE OUTPUT;
    DigitalWrite Test.PIN_LE LOW; DigitalWrite Test.PIN_CE LOW;
    PinMode Test.PIN_LD INPUT;
    SpiBegin HSPI [Test.PIN_SCLK; -1; Test.PIN_MOSI; -1];
    SerialPrintln "ADF5355 configurable synth (top-of-file settings)" ]
  ++ configure_events cfg p t1 regImage
  ++ [ DigitalWrite Test.PIN_CE HIGH; Delay 200;
       DigitalRead Test.PIN_LD ld;
       SerialPrintf "Lock detect: %d\n" [ArgInt (Z.b2z ld)] ].

(** The bytes of the words [ws] on [bus], each with the level [cur] of a
    pin at the moment it is clocked out. *)
Definition bytes_at (bus : spi_bus) (cur : option bool) (ws : list Z)
    : list (event * option bool) :=
  map (fun x => (SpiTransfer bus x, cur)) (concat (map big_endian ws)).

(** What one pass of [Test.loop] issues. *)
Definition Test_loop_events (toggle : bool) : list event :=
  if toggle then
    [ SerialPrintln "CE HIGH"; DigitalWrite Test.PIN_CE HIGH; Delay 2000;
      SerialPrintln "CE LOW"; DigitalWrite Test.PIN_CE LOW; Delay 2000 ]
  else [Delay 1000].

(** The board after one pass of [Test.loop]. *)
Definition Test_loop_board (toggle : bool) (b : board) : board :=
  if toggle then set_level Test.PIN_CE LOW (set_level Test.PIN_CE HIGH b) else b.

(** A wait of [ms] milliseconds with the pin high, then one with the pin
    low. *)
Definition on_off (ms : Z) : list (event * option bool) :=
  [(Delay ms, Some HIGH); (Delay ms, Some LOW)].

(** The value [m * 2^e] is at most the integer [M]. *)
Definition at_most (m e M : Z) : Prop :=
  m * 2 ^ Z.max e 0 <= M * 2 ^ Z.max (- e) 0.

(** A zero, or a positive finite double that is at most the integer [M]. *)
Definition SF_at_most (x : spec_float) (M : Z) : Prop :=
  match x with
  | S754_zero _ => True
  | S754_finite false m e => at_most (Zpos m) e M
  | _ => False
  end.

(** What the bits below a mantissa may add to it: nothing when the location
    is exact, less than one unit otherwise. *)
Definition slack (l : location) : Z :=
  match l with loc_Exact => 0 | loc_Inexact _ => 1 end.

(** Whether a shifted mantissa has lost a non-zero bit. *)
Definition inexact (r : shr_record) : bool := shr_r r || shr_s r.

(** The record [r'] is [r] shifted right by [k] bits: the mantissa is
    halved [k] times, and nothing is recorded as lost when nothing was. *)
Definition shifted (k : Z) (r r' : shr_record) : Prop :=
  0 <= shr_m r ->
  0 <= shr_m r'
  /\ shr_m r' = shr_m r / 2 ^ k
  /\ (inexact r = false -> shr_m r mod 2 ^ k = 0 -> inexact r' = false).

(** ** Bytes of a word *)

Lemma byte_of_shift (w : Z) (k : Z) :
  0 <= k -> Z.land (Z.shiftr w k) 255 = w / 2 ^ k mod 256.
Proof.
  intros Hk. rewrite Z.shiftr_div_pow2 by exact Hk.
  change 255 with (Z.ones 8). rewrite Z.land_ones by lia. reflexivity.
Qed.

Lemma code_bytes_big_endian (w : Z) :
  [ Z.land (Z.shiftr w 24) 255; Z.land (Z.shiftr w 16) 255;
    Z.land (Z.shiftr w 8) 255; Z.land (Z.shiftr w 0) 255 ] = big_endian w.
Proof.
  unfold big_endian. rewrite !byte_of_shift by lia.
  rewrite Z.pow_0_r, Z.div_1_r. reflexivity.
Qed.

Lemma big_endian_bytes (w : Z) : Forall (fun x => 0 <= x < 256) (big_endian w).
Proof.
  unfold big_endian. repeat constructor; apply Z.mod_pos_bound; lia.
Qed.

Lemma from_big_endian_inv (w : Z) : word32 w -> from_big_endian (big_endian w) = w.
Proof.
  unfold word32, from_big_endian, big_endian. intros Hw. cbn [fold_left].
  change (2 ^ 32) with 4294967296 in Hw.
  change (2 ^ 24) with 16777216. change (2 ^ 16) with 65536.
  change (2 ^ 8) with 256.
  pose proof (Z.div_mod w 256 ltac:(lia)) as H0.
  pose proof (Z.div_mod (w / 256) 256 ltac:(lia)) as H1.
  pose proof (Z.div_mod (w / 65536) 256 ltac:(lia)) as H2.
  replace (w / 256 / 256) with (w / 65536) in H1
    by (rewrite Z.div_div by lia; reflexivity).
  replace (w / 65536 / 256) with (w / 16777216) in H2
    by (rewrite Z.div_div by lia; reflexivity).
  assert (H3 : w / 16777216 mod 256 = w / 16777216).
  { apply Z.mod_small. split; [apply Z.div_pos|apply Z.div_lt_upper_bound]; lia. }
  lia.
Qed.

(** ** Sequences in which an event is always followed by the same events *)

Lemma followed_by_nil e next : followed_by e next [].
Proof. intros [|? ?] post H; discriminate H. Qed.

Lemma followed_by_skip e next x t :
  x <> e -> followed_by e next t -> followed_by e next (x :: t).
Proof.
  intros Hx Ht [|y pre] post H; simpl in H; injection H as E1 E2.
  - contradiction.
  - exact (Ht pre post E2).
Qed.

Lemma followed_by_here e next t :
  followed_by e next (next ++ t) -> followed_by e next (e :: next ++ t).
Proof.
  intros Ht [|y pre] post H; simpl in H.
  - injection H as E. exists t. symmetry. exact E.
  - injection H as E1 E2. exact (Ht pre post E2).
Qed.

Lemma followed_by_app e next t1 t2 :
  followed_by e next t1 -> followed_by e next t2 -> followed_by e next (t1 ++ t2).
Proof.
  revert t2. induction t1 as [|x t1 IH]; intros t2 H1 H2; [exact H2|].
  intros [|y pre] post H; simpl in H; injection H as E1 E2.
  - subst x. destruct (H1 [] t1 eq_refl) as [post' E]. subst t1.
    exists (post' ++ t2). rewrite <- E2, app_assoc. reflexivity.
  - refine (IH t2 _ H2 pre post E2).
    intros pre' post' E. apply (H1 (x :: pre') post'). simpl. rewrite E. reflexivity.
Qed.

(** ** Runs of the register writers *)

Lemma same_bus_refl bus : same_bus bus bus = true.
Proof. destruct bus; reflexivity. Qed.

Lemma bus_traffic_app bus t1 t2 :
  bus_traffic bus (t1 ++ t2) = bus_traffic bus t1 ++ bus_traffic bus t2.
Proof.
  induction t1 as [|e t1 IH]; [reflexivity|].
  destruct e; simpl; try exact IH;
    destruct (same_bus bus bus0); simpl; rewrite ?IH; reflexivity.
Qed.

Lemma bus_traffic_register_write bus le w :
  bus_traffic bus (register_write bus le w) = transaction w.
Proof. destruct bus; reflexivity. Qed.

Lemma Test_pulseLE_run b :
  Test.pulseLE b = Some (tt, pulsed Test.PIN_LE b, latch_pulse Test.PIN_LE).
Proof. reflexivity. Qed.

Lemma Test_writeReg_run reg b :
  Test.writeReg reg b
  = Some (tt, pulsed Test.PIN_LE b, register_write HSPI Test.PIN_LE reg).
Proof.
  unfold register_write. rewrite <- code_bytes_big_endian. reflexivity.
Qed.

Lemma Sketch_pulseLE_run le b :
  Sketch.pulseLE le b = Some (tt, pulsed le b, latch_pulse le).
Proof. reflexivity. Qed.

Lemma Sketch_writeReg_run spi le reg b :
  Sketch.writeReg spi le reg b = Some (tt, pulsed le b, register_write spi le reg).
Proof.
  unfold register_write. rewrite <- code_bytes_big_endian. reflexivity.
Qed.

(** Running [m] and then [k], given the run of [m]. *)
Lemma bind_run {A B} (m : M A) (k : A -> M B) b a b1 t1 :
  m b = Some (a, b1, t1) ->
  (m ≫= k) b = match k a b1 with
               | Some (r, b2, t2) => Some (r, b2, t1 ++ t2)
               | None => None
               end.
Proof. intros H. unfold mbind, M_bind. rewrite H. reflexivity. Qed.

Lemma level_pulsed le b : level le (pulsed le b) = Some LOW.
Proof. unfold level, pulsed, set_level. simpl. apply lookup_insert_eq. Qed.

Lemma level_pulses n le b : n <> O -> level le (pulses n le b) = Some LOW.
Proof. destruct n; [congruence|]. intros _. apply level_pulsed. Qed.

Lemma pulses_pulsed n le b : pulses n le (pulsed le b) = pulses (S n) le b.
Proof. unfold pulses. symmetry. apply Nat.iter_succ_r. Qed.

Lemma Test_writeAllRegs_loop_step regImage fuel i :
  Test.writeAllRegs_loop regImage (S fuel) i
  = if 0 <=? i then
      reg ← defined (regImage !! Z.to_nat i);
      Test.writeReg reg;; delay 2;;
      Test.writeAllRegs_loop regImage fuel (i - 1)
    else mret tt.
Proof. reflexivity. Qed.

(** The descending loop of [writeAllRegs], entered at index [n - 1]. *)
Lemma Test_writeAllRegs_loop_run regImage (n : nat) b :
  (n <= length regImage)%nat ->
  Test.writeAllRegs_loop regImage (S n) (Z.of_nat n - 1) b
  = Some (tt, pulses n Test.PIN_LE b,
          flat_map (fun w => register_write HSPI Test.PIN_LE w ++ settle)
                   (rev (take n regImage))).
Proof.
  revert b. induction n as [|n IH]; intros b Hn; [reflexivity|].
  destruct (lookup_lt_is_Some_2 regImage n ltac:(lia)) as [w Hw].
  rewrite (take_S_r _ _ _ Hw), rev_app_distr. simpl rev. simpl flat_map.
  rewrite Test_writeAllRegs_loop_step.
  replace (0 <=? Z.of_nat (S n) - 1) with true
    by (symmetry; apply Z.leb_le; lia).
  replace (Z.to_nat (Z.of_nat (S n) - 1)) with n by lia.
  replace (Z.of_nat (S n) - 1 - 1) with (Z.of_nat n - 1) by lia.
  rewrite Hw.
  rewrite (bind_run _ _ b w b [] eq_refl).
  rewrite (bind_run _ _ b tt _ _ (Test_writeReg_run w b)).
  rewrite (bind_run _ _ _ tt _ [Delay 2] eq_refl).
  rewrite (IH (pulsed Test.PIN_LE b)) by lia.
  rewrite pulses_pulsed. reflexivity.
Qed.

Lemma Test_writeAllRegs_run regImage b :
  length regImage = 13%nat ->
  Test.writeAllRegs regImage b
  = Some (tt, pulses 13 Test.PIN_LE b,
          flat_map (fun w => register_write HSPI Test.PIN_LE w ++ settle)
                   (rev regImage)).
Proof.
  intros Hlen. unfold Test.writeAllRegs.
  pose proof (Test_writeAllRegs_loop_run regImage 13 b ltac:(lia)) as Hrun.
  rewrite firstn_all2 in Hrun by lia. exact Hrun.
Qed.

Lemma Sketch_programPLL_loop_step image spi le name fuel i :
  Sketch.programPLL_loop image spi le name (S fuel) i
  = if i <? 13 then
      reg ← defined (image !! Z.to_nat i);
      Serial_printf "%s: Writing R%d = 0x%08lX\n"
        [ArgStr name; ArgInt (12 - i); ArgUnsigned reg];;
      Sketch.writeReg spi le reg;; delay 2;;
      Sketch.programPLL_loop image spi le name fuel (i + 1)
    else mret tt.
Proof. reflexivity. Qed.

(** The ascending loop of [programPLL], entered at index [i] with the
    registers [ws] left to write. *)
Lemma Sketch_programPLL_loop_run image spi le name (ws : list Z) (i : nat) b :
  drop i image = ws -> length image = 13%nat -> (i <= 13)%nat ->
  Sketch.programPLL_loop image spi le name (S (length ws)) (Z.of_nat i) b
  = Some (tt, pulses (length ws) le b,
          concat (imap (fun k w => programPLL_step spi le name (i + k) w) ws)).
Proof.
  revert i b. induction ws as [|w ws IH]; intros i b Hdrop Hlen Hi.
  - assert (i = 13%nat) as ->; [|reflexivity].
    apply (f_equal length) in Hdrop. rewrite length_drop in Hdrop.
    simpl in Hdrop. lia.
  - assert (Hw : image !! i = Some w).
    { rewrite <- (Nat.add_0_r i), <- lookup_drop, Hdrop. reflexivity. }
    assert (Hi' : (i < 13)%nat).
    { apply lookup_lt_Some in Hw. lia. }
    assert (Hdrop' : drop (S i) image = ws).
    { replace (S i) with (i + 1)%nat by lia.
      rewrite <- drop_drop, Hdrop. reflexivity. }
    assert (Himap :
      imap (fun k x => programPLL_step spi le name (S i + k) x) ws
      = imap ((fun k x => programPLL_step spi le name (i + k) x) ∘ S) ws).
    { apply imap_ext. intros k x _. simpl. rewrite Nat.add_succ_r. reflexivity. }
    simpl length. rewrite Sketch_programPLL_loop_step.
    replace (Z.of_nat i <? 13) with true by (symmetry; apply Z.ltb_lt; lia).
    rewrite Nat2Z.id, Hw.
    replace (Z.of_nat i + 1) with (Z.of_nat (S i)) by lia.
    rewrite (bind_run _ _ b w b [] eq_refl).
    rewrite (bind_run _ _ b tt b _ eq_refl).
    rewrite (bind_run _ _ b tt _ _ (Sketch_writeReg_run spi le w b)).
    rewrite (bind_run _ _ _ tt _ [Delay 2] eq_refl).
    rewrite (IH (S i) (pulsed le b) Hdrop' Hlen) by lia.
    rewrite Himap, imap_cons, Nat.add_0_r, pulses_pulsed. reflexivity.
Qed.

Lemma Sketch_programPLL_image_run image spi le name b :
  length image = 13%nat ->
  Sketch.programPLL_image image spi le name b
  = Some (tt, pulses 13 le b,
          [SerialPrintf "\nProgramming %s for 10.525 GHz RFOUTB...\n" [ArgStr name]]
          ++ concat (imap (programPLL_step spi le name) image)
          ++ [SerialPrintf "%s: Done.\n" [ArgStr name]]).
Proof.
  intros Hlen. unfold Sketch.programPLL_image.
  rewrite (bind_run _ _ b tt b _ eq_refl).
  pose proof (Sketch_programPLL_loop_run image spi le name image 0 b
                eq_refl Hlen ltac:(lia)) as Hrun.
  rewrite Hlen in Hrun. change (Z.of_nat 0) with 0 in Hrun.
  rewrite (bind_run _ _ b tt _ _ Hrun). reflexivity.
Qed.

Lemma followed_by_flat_map {A} e next (f : A -> list event) l :
  (forall x, followed_by e next (f x)) -> followed_by e next (flat_map f l).
Proof.
  intros Hf. induction l as [|x l IH]; simpl.
  - apply followed_by_nil.
  - apply followed_by_app; [apply Hf|exact IH].
Qed.

Lemma followed_by_concat_imap {A} e next (f : nat -> A -> list event) l :
  (forall k x, followed_by e next (f k x)) ->
  followed_by e next (concat (imap f l)).
Proof.
  revert f. induction l as [|x l IH]; intros f Hf.
  - apply followed_by_nil.
  - rewrite imap_cons. simpl. apply followed_by_app; [apply Hf|].
    apply IH. intros k y. apply Hf.
Qed.

Lemma followed_by_here_eq e next t t' :
  t' = next ++ t -> followed_by e next t' -> followed_by e next (e :: t').
Proof. intros ->. apply followed_by_here. Qed.

Ltac followed_by_steps :=
  repeat first
    [ apply followed_by_nil
    | eapply followed_by_here_eq; [reflexivity|]
    | apply followed_by_skip; [discriminate|] ].

Lemma latch_pulse_shape le :
  followed_by (DigitalWrite le HIGH) (pulse_tail le) (latch_pulse le).
Proof. unfold latch_pulse, pulse_tail. followed_by_steps. Qed.

Lemma register_write_shape bus le w :
  followed_by (DigitalWrite le HIGH) (pulse_tail le) (register_write bus le w).
Proof. unfold register_write, latch_pulse, pulse_tail. simpl. followed_by_steps. Qed.

Lemma settle_shape le : followed_by (DigitalWrite le HIGH) (pulse_tail le) settle.
Proof. unfold settle. followed_by_steps. Qed.

(** ** The address patch *)

Lemma testbit_address_mask i :
  0 <= i -> Z.testbit 0xFFFFFFF0 i = (4 <=? i) && (i <? 32).
Proof.
  intros Hi. change 0xFFFFFFF0 with (Z.ldiff (Z.ones 32) (Z.ones 4)).
  rewrite Z.ldiff_spec, !Z.testbit_ones_nonneg by lia.
  destruct (Z.ltb_spec i 32), (Z.ltb_spec i 4), (Z.leb_spec 4 i); simpl; try reflexivity; lia.
Qed.

Lemma testbit_low_nibble i : 0 <= i -> Z.testbit 0x0F i = (i <? 4).
Proof.
  intros Hi. change 0x0F with (Z.ones 4).
  rewrite Z.testbit_ones_nonneg by lia. reflexivity.
Qed.

Lemma testbit_word32_high w i : word32 w -> 32 <= i -> Z.testbit w i = false.
Proof.
  intros [Hw0 Hw] Hi. destruct (Z.eq_dec w 0) as [->|Hne].
  - apply Z.testbit_0_l.
  - apply Z.bits_above_log2; [lia|].
    assert (Z.log2 w < 32) by (apply Z.log2_lt_pow2; lia). lia.
Qed.

Lemma testbit_nibble_high r i : 0 <= r < 16 -> 4 <= i -> Z.testbit r i = false.
Proof.
  intros [Hr0 Hr] Hi. destruct (Z.eq_dec r 0) as [->|Hne].
  - apply Z.testbit_0_l.
  - apply Z.bits_above_log2; [lia|].
    assert (Z.log2 r < 4) by (apply Z.log2_lt_pow2; lia). lia.
Qed.

Lemma testbit_withAddr w r i :
  0 <= i ->
  Z.testbit (Test.withAddr w r) i
  = (Z.testbit w i && (4 <=? i) && (i <? 32)) || (Z.testbit r i && (i <? 4)).
Proof.
  intros Hi. unfold Test.withAddr.
  rewrite Z.lor_spec, !Z.land_spec, testbit_address_mask, testbit_low_nibble by lia.
  rewrite andb_assoc. reflexivity.
Qed.

Lemma withAddr_address w r : 0 <= r < 16 -> Z.land (Test.withAddr w r) 0xF = r.
Proof.
  intros Hr. apply Z.bits_inj'. intros i Hi.
  rewrite Z.land_spec, testbit_withAddr, (testbit_low_nibble i) by lia.
  destruct (Z.ltb_spec i 4) as [Hlt|Hge].
  - replace (4 <=? i) with false by (symmetry; apply Z.leb_gt; lia).
    rewrite !andb_false_r, !andb_true_r. reflexivity.
  - rewrite !andb_false_r. symmetry. apply testbit_nibble_high; lia.
Qed.

Lemma withAddr_other_bits w r i :
  word32 w -> 4 <= i -> Z.testbit (Test.withAddr w r) i = Z.testbit w i.
Proof.
  intros Hw Hi. rewrite testbit_withAddr by lia.
  replace (i <? 4) with false by (symmetry; apply Z.ltb_ge; lia).
  replace (4 <=? i) with true by (symmetry; apply Z.leb_le; lia).
  rewrite andb_false_r, orb_false_r, andb_true_r.
  destruct (Z.ltb_spec i 32) as [Hlt|Hge].
  - apply andb_true_r.
  - rewrite andb_false_r. symmetry. apply testbit_word32_high; assumption.
Qed.

Lemma withAddr_word32 w r : word32 w -> 0 <= r < 16 -> word32 (Test.withAddr w r).
Proof.
  intros Hw Hr. unfold word32.
  assert (H0 : 0 <= Test.withAddr w r).
  { unfold Test.withAddr. apply Z.lor_nonneg. split; apply Z.land_nonneg; lia. }
  split; [exact H0|].
  destruct (Z.eq_dec (Test.withAddr w r) 0) as [->|Hne]; [lia|].
  apply Z.log2_lt_pow2; [lia|].
  destruct (Z.lt_ge_cases (Z.log2 (Test.withAddr w r)) 32) as [Hlt|Hge]; [exact Hlt|].
  exfalso.
  pose proof (Z.bit_log2 (Test.withAddr w r) ltac:(lia)) as Hbit.
  rewrite withAddr_other_bits in Hbit by (assumption || lia).
  rewrite testbit_word32_high in Hbit by (assumption || lia). discriminate.
Qed.

Ltac list_of_length l H :=
  repeat (destruct l as [|? l]; [discriminate H|]);
  destruct l; [clear H|discriminate H].

Lemma applyFrequencyToRegs_run cfg p regImage b :
  length regImage = 13%nat ->
  Test.applyFrequencyToRegs cfg p regImage b
  = Some (patched regImage, b, [frequency_line cfg p]).
Proof.
  intros Hlen. list_of_length regImage Hlen. reflexivity.
Qed.

(** C7: after [applyFrequencyToRegs] and [applyOutputToRegs] have patched the
    register image, the word at every index [r] in 0..12 carries [r] in its
    low four bits, and every other bit of it is the bit of the word that
    was there before. *)
Theorem patched_image_keeps_template_bits
    (cfg : Test.UserSettings) (p : Test.PllParams) (regImage : list Z) (b : board)
    (Hlen : length regImage = 13%nat) (Hwords : Forall word32 regImage) :
  exists regImage' b' t,
    (Test.applyFrequencyToRegs cfg p regImage
       ≫= Test.applyOutputToRegs p) b = Some (regImage', b', t)
    /\ length regImage' = 13%nat
    /\ forall (r : nat) (w : Z), regImage !! r = Some w ->
         exists w',
           regImage' !! r = Some w'
           /\ Z.land w' 0xF = Z.of_nat r
           /\ word32 w'
           /\ forall i, 4 <= i -> Z.testbit w' i = Z.testbit w i.
Proof.
  pose proof (applyFrequencyToRegs_run cfg p regImage b Hlen) as Hrun.
  exists (patched regImage), b, [frequency_line cfg p].
  unfold patched in *. split; [|split].
  - rewrite (bind_run _ _ _ _ _ _ Hrun). reflexivity.
  - rewrite length_imap. exact Hlen.
  - intros r w Hr. exists (Test.withAddr w (Z.of_nat r)).
    assert (Hlt : (r < 13)%nat) by (apply lookup_lt_Some in Hr; lia).
    assert (Hw : word32 w) by (eapply Forall_lookup_1; eassumption).
    split; [|split; [|split]].
    + rewrite list_lookup_imap, Hr. reflexivity.
    + apply withAddr_address. lia.
    + apply withAddr_word32; [exact Hw|lia].
    + intros i Hi. apply withAddr_other_bits; assumption.
Qed.

Lemma patched_image_keeps_template_bits_witness :
  exists regImage' b' t,
    (Test.applyFrequencyToRegs Test.user_settings
       {| Test.pfd_hz := 10e6; Test.INT := 1052; Test.FRAC := 1; Test.MOD := 2;
          Test.out_div := 1; Test.rfouta_en := false; Test.rfoutb_en := true;
          Test.pwr := Test.PWR_MAX |} Test.regImage_base
       ≫= Test.applyOutputToRegs
       {| Test.pfd_hz := 10e6; Test.INT := 1052; Test.FRAC := 1; Test.MOD := 2;
          Test.out_div := 1; Test.rfouta_en := false; Test.rfoutb_en := true;
          Test.pwr := Test.PWR_MAX |})
      idle_board
    = Some (regImage', b', t)
    /\ length regImage' = 13%nat
    /\ forall (r : nat) (w : Z), Test.regImage_base !! r = Some w ->
         exists w',
           regImage' !! r = Some w'
           /\ Z.land w' 0xF = Z.of_nat r
           /\ word32 w'
           /\ forall i, 4 <= i -> Z.testbit w' i = Z.testbit w i.
Proof.
  apply patched_image_keeps_template_bits.
  - reflexivity.
  - unfold Test.regImage_base, word32. repeat constructor; lia.
Defined.

Lemma rev_descending (regImage : list Z) :
  length regImage = 13%nat ->
  rev regImage = map (fun i => regImage !!! i) descending.
Proof. intros Hlen. list_of_length regImage Hlen. reflexivity. Qed.

(** C5: a 13-word register image goes out from index 12 down to index 0;
    each word is one transaction of its four bytes, most significant first,
    then the latch pulse, then the settle delay before the next register.
    The dual-board sketch walks its array upwards, and the register number of
    position [k], which it prints, is [12 - k]: R12 first, R0 last. *)
Theorem registers_written_descending_msb_first
    (regImage : list Z) (b : board) (spi : spi_bus) (le : Z) (name : string)
    (Hlen : length regImage = 13%nat) (Hwords : Forall word32 regImage) :
  Test.writeAllRegs regImage b
  = Some (tt, pulses 13 Test.PIN_LE b,
          flat_map (fun i => register_write HSPI Test.PIN_LE (regImage !!! i)
                             ++ settle) descending)
  /\ Sketch.programPLL_image regImage spi le name b
     = Some (tt, pulses 13 le b, programPLL_events regImage spi le name)
  /\ forall w, w ∈ regImage ->
       length (big_endian w) = 4%nat
       /\ Forall (fun x => 0 <= x < 256) (big_endian w)
       /\ from_big_endian (big_endian w) = w.
Proof.
  split; [|split].
  - rewrite (Test_writeAllRegs_run regImage b Hlen).
    rewrite (rev_descending regImage Hlen), flat_map_concat_map, map_map.
    rewrite <- flat_map_concat_map. reflexivity.
  - apply Sketch_programPLL_image_run. exact Hlen.
  - intros w Hw. split; [reflexivity|]. split; [apply big_endian_bytes|].
    apply from_big_endian_inv. rewrite Forall_forall in Hwords. apply Hwords, Hw.
Qed.

Lemma registers_written_descending_msb_first_witness :
  Test.writeAllRegs Test.regImage_base
    idle_board
  = Some (tt, pulses 13 Test.PIN_LE
                idle_board,
          flat_map (fun i => register_write HSPI Test.PIN_LE
                               (Test.regImage_base !!! i) ++ settle) descending)
  /\ Sketch.programPLL_image Test.regImage_base SPI0 Sketch.A_LE "ADF-A"
       idle_board
     = Some (tt, pulses 13 Sketch.A_LE
                   idle_board,
             programPLL_events Test.regImage_base SPI0 Sketch.A_LE "ADF-A")
  /\ forall w, w ∈ Test.regImage_base ->
       length (big_endian w) = 4%nat
       /\ Forall (fun x => 0 <= x < 256) (big_endian w)
       /\ from_big_endian (big_endian w) = w.
Proof.
  apply registers_written_descending_msb_first.
  - reflexivity.
  - unfold Test.regImage_base, word32. repeat constructor; lia.
Defined.

(** ** Bytes on the bus *)

Lemma bus_traffic_programPLL_step spi le name i w :
  bus_traffic spi (programPLL_step spi le name i w) = transaction w.
Proof.
  unfold programPLL_step. rewrite !bus_traffic_app, bus_traffic_register_write.
  apply app_nil_r.
Qed.

Lemma bus_traffic_programPLL_steps spi le name (i : nat) (ws : list Z) :
  bus_traffic spi (concat (imap (fun k w => programPLL_step spi le name (i + k) w) ws))
  = flat_map transaction ws.
Proof.
  revert i. induction ws as [|w ws IH]; intros i; [reflexivity|].
  rewrite imap_cons, concat_cons, bus_traffic_app.
  rewrite bus_traffic_programPLL_step. cbn [flat_map]. f_equal.
  rewrite <- (IH (S i)). do 2 f_equal. apply imap_ext. intros k x _. simpl.
  rewrite Nat.add_succ_r. reflexivity.
Qed.

Lemma bus_traffic_programPLL_events image spi le name :
  bus_traffic spi (programPLL_events image spi le name) = flat_map transaction image.
Proof.
  unfold programPLL_events. rewrite !bus_traffic_app. simpl.
  rewrite app_nil_r. apply (bus_traffic_programPLL_steps spi le name 0).
Qed.

Lemma level_set_level_ne pin pin' v b :
  pin <> pin' -> level pin (set_level pin' v b) = level pin b.
Proof. intros Hne. unfold level, set_level. cbn [levels]. apply lookup_insert_ne. congruence. Qed.

Lemma level_set_mode pin pin' m b : level pin (set_mode pin' m b) = level pin b.
Proof. reflexivity. Qed.

Lemma level_pulses_ne pin le n b :
  pin <> le -> level pin (pulses n le b) = level pin b.
Proof.
  intros Hne. induction n as [|n IH]; [reflexivity|].
  change (pulses (S n) le b) with (pulsed le (pulses n le b)).
  unfold pulsed. rewrite !level_set_level_ne by exact Hne. exact IH.
Qed.

Lemma Sketch_setup_run b :
  Sketch.setup b = Some (tt, Sketch_setup_board b, Sketch_setup_events).
Proof. reflexivity. Qed.

Lemma Sketch_setup_latches_low b :
  level Sketch.A_LE (Sketch_setup_board b) = Some LOW
  /\ level Sketch.B_LE (Sketch_setup_board b) = Some LOW.
Proof.
  unfold Sketch_setup_board. split.
  - rewrite level_pulses_ne by discriminate. apply level_pulses. discriminate.
  - apply level_pulses. discriminate.
Qed.

(** C8: the transactions a register image puts on the bus are those of the
    image alone: programmed into two devices, whatever their bus, latch pin,
    name and board state, it gives the same sequence of transactions, byte
    for byte, on each.  So it is for the image built from any planned
    parameters [p], and in [setup], where the sketch programs board A and
    board B with its register set: the two buses carry the same 13
    transactions. *)
Theorem same_parameters_same_bytes_on_each_device
    (cfg : Test.UserSettings) (p : Test.PllParams) (regImage : list Z)
    (spi1 spi2 : spi_bus) (le1 le2 : Z) (name1 name2 : string)
    (b b1 b2 : board) (Hlen : length regImage = 13%nat) :
  exists image t,
    (Test.applyFrequencyToRegs cfg p regImage ≫= Test.applyOutputToRegs p) b
    = Some (image, b, t)
    /\ is_Some (Sketch.programPLL_image image spi1 le1 name1 b1)
    /\ is_Some (Sketch.programPLL_image image spi2 le2 name2 b2)
    /\ bus_traffic spi1 (events (Sketch.programPLL_image image spi1 le1 name1) b1)
       = bus_traffic spi2 (events (Sketch.programPLL_image image spi2 le2 name2) b2)
    /\ bus_traffic spi1 (events (Sketch.programPLL_image image spi1 le1 name1) b1)
       = flat_map transaction image
    /\ bus_traffic Sketch.spiA (events Sketch.setup b)
       = bus_traffic Sketch.spiB (events Sketch.setup b)
    /\ bus_traffic Sketch.spiA (events Sketch.setup b)
       = flat_map transaction Sketch.regs.
Proof.
  exists (patched regImage), [frequency_line cfg p].
  assert (Hlen' : length (patched regImage) = 13%nat).
  { unfold patched. rewrite length_imap. exact Hlen. }
  split.
  { rewrite (bind_run _ _ _ _ _ _ (applyFrequencyToRegs_run cfg p regImage b Hlen)).
    reflexivity. }
  unfold events.
  rewrite !Sketch_programPLL_image_run by exact Hlen'.
  rewrite Sketch_setup_run.
  fold (programPLL_events (patched regImage) spi1 le1 name1).
  fold (programPLL_events (patched regImage) spi2 le2 name2).
  rewrite !bus_traffic_programPLL_events.
  split; [eexists; reflexivity|]. split; [eexists; reflexivity|].
  split; [reflexivity|]. split; [reflexivity|].
  split; vm_compute; reflexivity.
Qed.

Lemma same_parameters_same_bytes_on_each_device_witness :
  exists image t,
    (Test.applyFrequencyToRegs Test.user_settings
       {| Test.pfd_hz := 10e6; Test.INT := 1052; Test.FRAC := 1; Test.MOD := 2;
          Test.out_div := 1; Test.rfouta_en := false; Test.rfoutb_en := true;
          Test.pwr := Test.PWR_MAX |} Test.regImage_base
     ≫= Test.applyOutputToRegs
       {| Test.pfd_hz := 10e6; Test.INT := 1052; Test.FRAC := 1; Test.MOD := 2;
          Test.out_div := 1; Test.rfouta_en := false; Test.rfoutb_en := true;
          Test.pwr := Test.PWR_MAX |}) idle_board
    = Some (image, idle_board, t)
    /\ is_Some (Sketch.programPLL_image image SPI0 Sketch.A_LE "ADF-A" idle_board)
    /\ is_Some (Sketch.programPLL_image image SPI1 Sketch.B_LE "ADF-B" idle_board)
    /\ bus_traffic SPI0
         (events (Sketch.programPLL_image image SPI0 Sketch.A_LE "ADF-A") idle_board)
       = bus_traffic SPI1
           (events (Sketch.programPLL_image image SPI1 Sketch.B_LE "ADF-B") idle_board)
    /\ bus_traffic SPI0
         (events (Sketch.programPLL_image image SPI0 Sketch.A_LE "ADF-A") idle_board)
       = flat_map transaction image
    /\ bus_traffic Sketch.spiA (events Sketch.setup idle_board)
       = bus_traffic Sketch.spiB (events Sketch.setup idle_board)
    /\ bus_traffic Sketch.spiA (events Sketch.setup idle_board)
       = flat_map transaction Sketch.regs.
Proof.
  apply same_parameters_same_bytes_on_each_device. reflexivity.
Defined.

(** ** The chopping loop *)

Lemma Sketch_loop_run b :
  Sketch.loop b = Some (tt, Sketch_loop_board b, Sketch_loop_events).
Proof. reflexivity. Qed.

Lemma Sketch_loops_run n b :
  Sketch.loops n b
  = Some (tt, Nat.iter n Sketch_loop_board b, concat (replicate n Sketch_loop_events)).
Proof.
  revert b. induction n as [|n IH]; intros b; [reflexivity|].
  change (Sketch.loops (S n)) with (Sketch.loop;; Sketch.loops n).
  rewrite (bind_run _ _ _ _ _ _ (Sketch_loop_run b)), IH.
  rewrite <- Nat.iter_succ_r. reflexivity.
Qed.

Lemma followed_by_no_delay e1 e2 t :
  followed_by e1 [e2] t -> no_delay_until e1 e2 t.
Proof.
  intros H pre mid post Ht Hmid.
  destruct (H pre (mid ++ e2 :: post) Ht) as [post' E].
  destruct mid as [|x mid]; [constructor|].
  simpl in E. injection E as -> _. exfalso. apply Hmid. left.
Qed.

Lemma Sketch_loop_CE_pairs v :
  followed_by (DigitalWrite Sketch.A_CE v) [DigitalWrite Sketch.B_CE v]
              Sketch_loop_events.
Proof.
  unfold Sketch_loop_events. destruct v; followed_by_steps.
Qed.

(** C9: in any number of passes of [loop], each write of board A's
    chip-enable line is directly followed by the write of the same level to
    board B's: no delay, and no other event, comes between the two. *)
Theorem chip_enables_switch_back_to_back (n : nat) (b : board) (v : bool) :
  is_Some (Sketch.loops n b)
  /\ events (Sketch.loops n) b = concat (replicate n Sketch_loop_events)
  /\ followed_by (DigitalWrite Sketch.A_CE v) [DigitalWrite Sketch.B_CE v]
       (events (Sketch.loops n) b)
  /\ no_delay_until (DigitalWrite Sketch.A_CE v) (DigitalWrite Sketch.B_CE v)
       (events (Sketch.loops n) b).
Proof.
  unfold events. rewrite Sketch_loops_run.
  assert (H : followed_by (DigitalWrite Sketch.A_CE v) [DigitalWrite Sketch.B_CE v]
                (concat (replicate n Sketch_loop_events))).
  { induction n as [|n IH]; [apply followed_by_nil|].
    change (replicate (S n) Sketch_loop_events)
      with (Sketch_loop_events :: replicate n Sketch_loop_events).
    rewrite concat_cons.
    apply followed_by_app; [apply Sketch_loop_CE_pairs|exact IH]. }
  split; [eexists; reflexivity|]. split; [reflexivity|].
  split; [exact H|]. apply followed_by_no_delay, H.
Qed.

(** ** The latch line *)

Lemma programPLL_step_shape spi le name i w :
  followed_by (DigitalWrite le HIGH) (pulse_tail le) (programPLL_step spi le name i w).
Proof.
  unfold programPLL_step. apply followed_by_app; [followed_by_steps|].
  apply followed_by_app; [apply register_write_shape|apply settle_shape].
Qed.

Lemma programPLL_events_shape image spi le name :
  followed_by (DigitalWrite le HIGH) (pulse_tail le) (programPLL_events image spi le name).
Proof.
  unfold programPLL_events. apply followed_by_app; [followed_by_steps|].
  apply followed_by_app; [|followed_by_steps].
  apply followed_by_concat_imap. intros k x. apply programPLL_step_shape.
Qed.

(** C10: every register write returns with the latch line low.  [pulseLE]
    drives it high, holds, drives it low and holds; [writeReg],
    [writeAllRegs] and [programPLL] raise it in no other way, so in their
    event sequences each rising edge is followed by the rest of the pulse, and
    the board they leave has the line low. *)
Theorem latch_low_after_every_register_write
    (b : board) (reg : Z) (regImage : list Z) (spi : spi_bus) (le : Z)
    (name : string) (Hlen : length regImage = 13%nat) :
  returns_with_latch_low Test.PIN_LE Test.pulseLE b
  /\ returns_with_latch_low Test.PIN_LE (Test.writeReg reg) b
  /\ returns_with_latch_low Test.PIN_LE (Test.writeAllRegs regImage) b
  /\ returns_with_latch_low le (Sketch.pulseLE le) b
  /\ returns_with_latch_low le (Sketch.writeReg spi le reg) b
  /\ returns_with_latch_low le (Sketch.programPLL spi le name) b.
Proof.
  unfold returns_with_latch_low. repeat split.
  - do 3 eexists. split; [apply Test_pulseLE_run|].
    split; [apply level_pulsed|apply latch_pulse_shape].
  - do 3 eexists. split; [apply Test_writeReg_run|].
    split; [apply level_pulsed|apply register_write_shape].
  - do 3 eexists. split; [apply Test_writeAllRegs_run, Hlen|].
    split; [apply level_pulses; discriminate|].
    apply followed_by_flat_map. intros w.
    apply followed_by_app; [apply register_write_shape|apply settle_shape].
  - do 3 eexists. split; [apply Sketch_pulseLE_run|].
    split; [apply level_pulsed|apply latch_pulse_shape].
  - do 3 eexists. split; [apply Sketch_writeReg_run|].
    split; [apply level_pulsed|apply register_write_shape].
  - do 3 eexists. split; [apply Sketch_programPLL_image_run; reflexivity|].
    split; [apply level_pulses; discriminate|].
    apply (programPLL_events_shape Sketch.regs).
Qed.

Lemma latch_low_after_every_register_write_witness :
  returns_with_latch_low Test.PIN_LE Test.pulseLE
    {| levels := {[ Test.PIN_LE := HIGH ]}; modes := ∅; inputs := fun _ => false |}
  /\ returns_with_latch_low Test.PIN_LE (Test.writeReg 0x0001040C)
       {| levels := {[ Test.PIN_LE := HIGH ]}; modes := ∅; inputs := fun _ => false |}
  /\ returns_with_latch_low Test.PIN_LE (Test.writeAllRegs Test.regImage_base)
       {| levels := {[ Test.PIN_LE := HIGH ]}; modes := ∅; inputs := fun _ => false |}
  /\ returns_with_latch_low Sketch.B_LE (Sketch.pulseLE Sketch.B_LE)
       {| levels := {[ Test.PIN_LE := HIGH ]}; modes := ∅; inputs := fun _ => false |}
  /\ returns_with_latch_low Sketch.B_LE (Sketch.writeReg SPI1 Sketch.B_LE 0x0001040C)
       {| levels := {[ Test.PIN_LE := HIGH ]}; modes := ∅; inputs := fun _ => false |}
  /\ returns_with_latch_low Sketch.B_LE (Sketch.programPLL SPI1 Sketch.B_LE "ADF-B")
       {| levels := {[ Test.PIN_LE := HIGH ]}; modes := ∅; inputs := fun _ => false |}.
Proof.
  apply (latch_low_after_every_register_write _ _ Test.regImage_base). reflexivity.
Defined.

(** ** The frequency planner *)

Lemma gcd_u32_unfold a b :
  Test.gcd_u32 a b = if Z.eq_dec b 0 then a else Test.gcd_u32 b (a mod b).
Proof.
  funelim (Test.gcd_u32 a b); destruct (Z.eq_dec b 0); try contradiction; congruence.
Qed.

(** On unsigned arguments the loop computes the greatest common divisor. *)
Lemma gcd_u32_gcd a b : 0 <= a -> 0 <= b -> Test.gcd_u32 a b = Z.gcd a b.
Proof.
  funelim (Test.gcd_u32 a b); intros Ha Hb.
  - subst b. rewrite Z.gcd_0_r, Z.abs_eq by exact Ha. reflexivity.
  - match goal with IH : _ -> _ -> Test.gcd_u32 _ _ = Z.gcd _ _ |- _ => rewrite IH end.
    + rewrite Z.gcd_comm, Z.gcd_mod by assumption. apply Z.gcd_comm.
    + exact Hb.
    + apply Z.mod_pos_bound. lia.
Qed.

Lemma gcd_u32_0_l m : m <> 0 -> Test.gcd_u32 0 m = m.
Proof.
  intros Hm. rewrite gcd_u32_unfold. destruct (Z.eq_dec m 0); [contradiction|].
  rewrite Z.mod_0_l by exact Hm. rewrite gcd_u32_unfold. reflexivity.
Qed.

(** The reduction step on a zero fraction: the modulus is divided by itself. *)
Lemma reduce_zero_FRAC m : 2 <= m -> Test.reduce_FRAC_MOD 0 m = (0, 1).
Proof.
  intros Hm. unfold Test.reduce_FRAC_MOD. rewrite gcd_u32_0_l by lia.
  replace (1 <? m) with true by (symmetry; apply Z.ltb_lt; lia).
  rewrite Z.div_0_l, Z.div_same by lia. reflexivity.
Qed.

(** The reduction step on a fraction below the modulus: lowest terms. *)
Lemma reduce_FRAC_MOD_lowest_terms FRAC m FRAC' m' :
  0 <= FRAC < m -> Test.reduce_FRAC_MOD FRAC m = (FRAC', m') ->
  0 <= FRAC' < m' /\ Z.gcd FRAC' m' = 1 /\ FRAC' * m = FRAC * m'
  /\ (FRAC <> 0 -> 2 <= m').
Proof.
  intros HF. unfold Test.reduce_FRAC_MOD.
  rewrite gcd_u32_gcd by lia.
  pose proof (Z.gcd_nonneg FRAC m) as Hg0.
  assert (Hg : Z.gcd FRAC m <> 0).
  { intros E. apply Z.gcd_eq_0_r in E. lia. }
  destruct (Z.gcd_divide_l FRAC m) as [qa Ha].
  destruct (Z.gcd_divide_r FRAC m) as [qb Hb].
  destruct (Z.ltb_spec 1 (Z.gcd FRAC m)) as [Hgt|Hle]; intros E; injection E as <- <-.
  - set (g := Z.gcd FRAC m) in *.
    assert (Eqa : FRAC / g = qa) by (rewrite Ha at 1; apply Z.div_mul; exact Hg).
    assert (Eqb : m / g = qb) by (rewrite Hb at 1; apply Z.div_mul; exact Hg).
    rewrite Eqa, Eqb.
    assert (Hcop : Z.gcd qa qb = 1).
    { pose proof (Z.gcd_div_gcd FRAC m g Hg eq_refl) as Hc.
      rewrite Eqa, Eqb in Hc. exact Hc. }
    split; [nia|]. split; [exact Hcop|]. split; [nia|].
    intros Hne. assert (0 < qa) by nia. nia.
  - assert (Z.gcd FRAC m = 1) as Hone by lia.
    split; [lia|]. split; [exact Hone|]. split; lia.
Qed.

(** What a run of [planFrequency] went through. *)
Lemma planFrequency_inv cfg rf b p b' t :
  Test.planFrequency cfg rf b = Some (p, b', t) ->
  exists div m0 INT0 FRAC0,
    Test.choose_output_divider rf = Some div
    /\ Test.raw_MOD cfg div = Some m0
    /\ Test.compute_INT_FRAC (vco_of rf div / Test.pfd_calculation cfg)
         (Test.clamp_MOD m0) = Some (INT0, FRAC0)
    /\ p = {| Test.pfd_hz := Test.pfd_calculation cfg;
              Test.INT := fst (Test.rounding_overflow INT0 FRAC0 (Test.clamp_MOD m0));
              Test.FRAC :=
                fst (Test.reduce_FRAC_MOD
                       (snd (Test.rounding_overflow INT0 FRAC0 (Test.clamp_MOD m0)))
                       (Test.clamp_MOD m0));
              Test.MOD :=
                snd (Test.reduce_FRAC_MOD
                       (snd (Test.rounding_overflow INT0 FRAC0 (Test.clamp_MOD m0)))
                       (Test.clamp_MOD m0));
              Test.out_div := div;
              Test.rfouta_en := negb (Test.USE_RFOUTB cfg) && Test.OUTPUT_ENABLE cfg;
              Test.rfoutb_en := Test.USE_RFOUTB cfg && Test.OUTPUT_ENABLE cfg;
              Test.pwr := Test.OUTPUT_POWER cfg |}
    /\ b' = b
    /\ t = range_report rf div.
Proof.
  unfold Test.planFrequency, range_report, vco_of.
  cbv [mbind M_bind mret M_ret defined undefined Serial_println emit].
  destruct (Test.choose_output_divider rf) as [div|] eqn:Ediv; [|discriminate].
  destruct (Test.raw_MOD cfg div) as [m0|] eqn:Emod;
    [|destruct (PrimFloat.ltb Test.VCO_MAX _); discriminate].
  destruct (Test.compute_INT_FRAC _ (Test.clamp_MOD m0)) as [[INT0 FRAC0]|] eqn:Efrac;
    [|destruct (PrimFloat.ltb Test.VCO_MAX _); discriminate].
  intros H. exists div, m0, INT0, FRAC0.
  destruct (Test.rounding_overflow INT0 FRAC0 (Test.clamp_MOD m0)) as [INT1 FRAC1].
  cbn [fst snd].
  destruct (Test.reduce_FRAC_MOD FRAC1 (Test.clamp_MOD m0)) as [FRAC2 m2].
  cbn [fst snd].
  destruct (PrimFloat.ltb Test.VCO_MAX _); injection H as <- <- <-;
    repeat split; assumption || reflexivity.
Qed.

Lemma all_bytes_app t1 t2 : all_bytes (t1 ++ t2) = all_bytes t1 ++ all_bytes t2.
Proof.
  induction t1 as [|e t1 IH]; [reflexivity|].
  destruct e; simpl; rewrite ?IH; reflexivity.
Qed.

Lemma all_bytes_writes bus le (ws : list Z) :
  all_bytes (flat_map (fun w => register_write bus le w ++ settle) ws)
  = concat (map big_endian ws).
Proof.
  induction ws as [|w ws IH]; [reflexivity|].
  cbn [flat_map map concat]. rewrite !all_bytes_app, IH. reflexivity.
Qed.

(** [configureFromUserSettings], once the planner has returned. *)
Lemma configureFromUserSettings_run cfg regImage b p t1 :
  length regImage = 13%nat ->
  Test.planFrequency cfg (Test.RF_OUT_HZ cfg) b = Some (p, b, t1) ->
  Test.configureFromUserSettings cfg regImage b
  = Some (patched regImage, pulses 13 Test.PIN_LE b,
          t1 ++ [frequency_line cfg p;
                 SerialPrintln "Writing register image (R12..R0)..."]
          ++ flat_map (fun w => register_write HSPI Test.PIN_LE w ++ settle)
                      (rev (patched regImage))
          ++ [SerialPrintln "Done."]).
Proof.
  intros Hlen Hplan.
  pose proof (applyFrequencyToRegs_run cfg p regImage b Hlen) as Hfreq.
  unfold Test.configureFromUserSettings.
  rewrite (bind_run _ _ _ _ _ _ Hplan).
  rewrite (bind_run _ _ _ _ _ _ Hfreq).
  rewrite (bind_run _ _ b (patched regImage) b [] eq_refl).
  rewrite (bind_run _ _ b tt b _ eq_refl).
  assert (Hlen' : length (patched regImage) = 13%nat).
  { unfold patched. rewrite length_imap. exact Hlen. }
  rewrite (bind_run _ _ _ _ _ _ (Test_writeAllRegs_run (patched regImage) b Hlen')).
  rewrite (bind_run _ _ _ tt _ [SerialPrintln "Done."] eq_refl).
  cbv [mret M_ret]. rewrite !app_nil_r. reflexivity.
Qed.

Lemma length_big_endian_concat (ws : list Z) :
  length (concat (map big_endian ws)) = (4 * length ws)%nat.
Proof. induction ws as [|w ws IH]; [reflexivity|]. simpl in *. lia. Qed.

(** C4: with the settings of the file (reference 10 MHz, no doubler, no
    divide-by-2, R divider 1, channel step 1 kHz, band 6 GHz to 13 GHz) and the
    target 10.525 GHz, the planner finds pfd_hz = 10e6, out_div = 1,
    N = 1052.5, MOD 10000 and FRAC 5000 before the reduction, gcd 5000, and
    returns INT = 1052, FRAC = 1, MOD = 2. *)
Theorem plan_for_10525_MHz (b : board) :
  Test.user_settings = settings_for 10.525e9 1000
  /\ Test.VCO_MIN = 6e9%float /\ Test.VCO_MAX = 13e9%float
  /\ Test.pfd_calculation Test.user_settings = 10e6%float
  /\ Test.choose_output_divider 10.525e9 = Some 1
  /\ (vco_of 10.525e9 1 / Test.pfd_calculation Test.user_settings)%float
     = 1052.5%float
  /\ Test.raw_MOD Test.user_settings 1 = Some 10000
  /\ Test.clamp_MOD 10000 = 10000
  /\ Test.compute_INT_FRAC 1052.5 10000 = Some (1052, 5000)
  /\ Test.gcd_u32 5000 10000 = 5000
  /\ Test.planFrequency Test.user_settings (Test.RF_OUT_HZ Test.user_settings) b
     = Some ({| Test.pfd_hz := 10e6; Test.INT := 1052; Test.FRAC := 1;
                Test.MOD := 2; Test.out_div := 1; Test.rfouta_en := false;
                Test.rfoutb_en := true; Test.pwr := Test.PWR_MAX |}, b, []).
Proof.
  repeat split; vm_compute; reflexivity.
Qed.

(** C3, at a target that is a whole multiple of the phase-detector
    frequency: for 10 GHz the fraction is zero, the reduction step divides the
    modulus by gcd(0, 10000) = 10000, and the planner returns FRAC = 0 with
    MOD = 1, below the least modulus 2. *)
Theorem whole_ratio_gives_MOD_1 (b : board) :
  Test.raw_MOD Test.user_settings 1 = Some 10000
  /\ Test.compute_INT_FRAC (vco_of 10e9 1 / Test.pfd_calculation Test.user_settings)
       (Test.clamp_MOD 10000) = Some (1000, 0)
  /\ Test.gcd_u32 0 10000 = 10000
  /\ Test.planFrequency Test.user_settings 10e9 b
     = Some ({| Test.pfd_hz := 10e6; Test.INT := 1000; Test.FRAC := 0;
                Test.MOD := 1; Test.out_div := 1; Test.rfouta_en := false;
                Test.rfoutb_en := true; Test.pwr := Test.PWR_MAX |}, b, [])
  /\ ~ (forall rf b p b' t,
          Test.planFrequency Test.user_settings rf b = Some (p, b', t) ->
          2 <= Test.MOD p).
Proof.
  split; [vm_compute; reflexivity|].
  split; [vm_compute; reflexivity|].
  split; [vm_compute; reflexivity|].
  split; [vm_compute; reflexivity|].
  intros H.
  specialize (H 10e9%float idle_board _ _ _ ltac:(vm_compute; reflexivity)).
  cbn [Test.MOD] in H. lia.
Qed.

(** ** Targets out of reach *)

(** C2 as the specification states it fails: 1 MHz is below the band even
    with the divider 64, yet the planner returns parameters and the register
    image is written. *)
Lemma unreachable_target_is_programmed :
  ~ (forall cfg regImage b,
       length regImage = 13%nat ->
       unreachable (Test.RF_OUT_HZ cfg) = true ->
       Test.planFrequency cfg (Test.RF_OUT_HZ cfg) b = None
       /\ all_bytes (events (Test.configureFromUserSettings cfg regImage) b) = []).
Proof.
  intros H.
  destruct (H (settings_for 1e6 1000) Test.regImage_base idle_board eq_refl)
    as [Hplan _].
  - vm_compute. reflexivity.
  - vm_compute in Hplan. discriminate Hplan.
Qed.

(** C2, amended: whatever the target, also one that no divider places in the
    band, a planner run that returns hands back parameters; when the VCO
    frequency lies above the band it prints the error line, and that is all;
    [configureFromUserSettings] then writes the whole register image, 52
    bytes. *)
Theorem out_of_band_target_is_still_programmed
    (cfg : Test.UserSettings) (regImage : list Z) (b b' : board)
    (p : Test.PllParams) (t : list event)
    (Hlen : length regImage = 13%nat)
    (Hplan : Test.planFrequency cfg (Test.RF_OUT_HZ cfg) b = Some (p, b', t)) :
  b' = b
  /\ ((Test.VCO_MAX <? vco_of (Test.RF_OUT_HZ cfg) (Test.out_div p))%float = true ->
      t = [SerialPrintln Test.range_error_message])
  /\ exists regImage' b'' t',
       Test.configureFromUserSettings cfg regImage b = Some (regImage', b'', t')
       /\ all_bytes t' = concat (map big_endian (rev (patched regImage)))
       /\ length (all_bytes t') = 52%nat.
Proof.
  destruct (planFrequency_inv _ _ _ _ _ _ Hplan)
    as (div & m0 & INT0 & FRAC0 & Hdiv & _ & _ & Hp & Hb & Ht).
  subst b'. split; [reflexivity|]. split.
  - intros Hhigh. rewrite Hp in Hhigh. cbn [Test.out_div] in Hhigh.
    rewrite Ht. unfold range_report. rewrite Hhigh. reflexivity.
  - pose proof (configureFromUserSettings_run cfg regImage b p t Hlen Hplan)
      as Hrun.
    do 3 eexists. split; [exact Hrun|].
    assert (Hbytes : all_bytes t = []).
    { rewrite Ht. unfold range_report. destruct (PrimFloat.ltb _ _); reflexivity. }
    assert (Hall : all_bytes
              (t ++ [frequency_line cfg p;
                     SerialPrintln "Writing register image (R12..R0)..."]
               ++ flat_map (fun w => register_write HSPI Test.PIN_LE w ++ settle)
                           (rev (patched regImage))
               ++ [SerialPrintln "Done."])
            = concat (map big_endian (rev (patched regImage)))).
    { rewrite !all_bytes_app, Hbytes, all_bytes_writes. cbn [all_bytes app].
      apply app_nil_r. }
    split; [exact Hall|]. rewrite Hall.
    rewrite length_big_endian_concat, length_rev. unfold patched.
    rewrite length_imap, Hlen. reflexivity.
Qed.

Lemma out_of_band_target_is_still_programmed_witness :
  unreachable 20e9 = true
  /\ idle_board = idle_board
  /\ ((Test.VCO_MAX <? vco_of 20e9 1)%float = true ->
      [SerialPrintln Test.range_error_message]
      = [SerialPrintln Test.range_error_message])
  /\ exists regImage' b'' t',
       Test.configureFromUserSettings (settings_for 20e9 1000)
         Test.regImage_base idle_board = Some (regImage', b'', t')
       /\ all_bytes t' = concat (map big_endian (rev (patched Test.regImage_base)))
       /\ length (all_bytes t') = 52%nat.
Proof.
  split; [vm_compute; reflexivity|].
  apply (out_of_band_target_is_still_programmed (settings_for 20e9 1000)
           Test.regImage_base idle_board idle_board
           {| Test.pfd_hz := 10e6; Test.INT := 2000; Test.FRAC := 0;
              Test.MOD := 1; Test.out_div := 1; Test.rfouta_en := false;
              Test.rfoutb_en := true; Test.pwr := Test.PWR_MAX |}
           [SerialPrintln Test.range_error_message]).
  - reflexivity.
  - vm_compute. reflexivity.
Defined.

(** ** The modulus and its clamp *)

Lemma clamp_MOD_range m : 2 <= Test.clamp_MOD m <= MOD_MAX.
Proof.
  unfold Test.clamp_MOD, MOD_MAX.
  destruct (Z.ltb_spec m 2); [simpl; lia|].
  destruct (Z.ltb_spec 0xFFFFFF m); lia.
Qed.

Lemma clamp_MOD_cases m :
  (m < 2 -> Test.clamp_MOD m = 2)
  /\ (2 <= m <= MOD_MAX -> Test.clamp_MOD m = m)
  /\ (MOD_MAX < m -> Test.clamp_MOD m = MOD_MAX).
Proof.
  unfold Test.clamp_MOD, MOD_MAX.
  destruct (Z.ltb_spec m 2); [simpl; lia|].
  destruct (Z.ltb_spec 0xFFFFFF m); lia.
Qed.

Lemma raw_MOD_inv cfg div m0 :
  Test.raw_MOD cfg div = Some m0 ->
  exists v,
    Double.llround (Test.pfd_calculation cfg
                    / (Test.CHANNEL_STEP_HZ cfg * Double.of_int div))%float = Some v
    /\ m0 = uint32 v.
Proof.
  unfold Test.raw_MOD. destruct (Double.llround _) as [v|]; [|discriminate].
  intros [= <-]. exists v. split; reflexivity.
Qed.

Lemma compute_INT_FRAC_inv N m INT0 FRAC0 :
  Test.compute_INT_FRAC N m = Some (INT0, FRAC0) ->
  Double.to_uint32 (Double.floor N) = Some INT0
  /\ exists v, Double.llround ((N - Double.of_int INT0) * Double.of_int m)%float = Some v
               /\ FRAC0 = uint32 v.
Proof.
  unfold Test.compute_INT_FRAC.
  destruct (Double.to_uint32 _) as [i|]; [|discriminate]. cbn.
  destruct (Double.llround _) as [v|] eqn:Ev; [|discriminate].
  intros [= <- <-]. split; [reflexivity|]. exists v. split; [exact Ev|reflexivity].
Qed.

Lemma uint32_range v : 0 <= uint32 v < 2 ^ 32.
Proof. unfold uint32. apply Z.mod_pos_bound. lia. Qed.

(** The modulus returned divides the clamped one. *)
Lemma reduce_FRAC_MOD_divides FRAC m :
  0 <= FRAC -> 2 <= m ->
  exists g, 1 <= g /\ snd (Test.reduce_FRAC_MOD FRAC m) * g = m.
Proof.
  intros HF Hm. unfold Test.reduce_FRAC_MOD. rewrite gcd_u32_gcd by lia.
  destruct (Z.ltb_spec 1 (Z.gcd FRAC m)) as [Hgt|Hle]; cbn [snd].
  - exists (Z.gcd FRAC m). split; [lia|].
    destruct (Z.gcd_divide_r FRAC m) as [q Hq].
    rewrite Hq at 1. rewrite Z.div_mul by lia. symmetry. exact Hq.
  - exists 1. lia.
Qed.

(** The reduction step, whatever the fraction: the result is in lowest
    terms, and a zero fraction comes with the modulus 1. *)
Lemma reduce_FRAC_MOD_coprime FRAC m :
  0 <= FRAC -> 2 <= m ->
  0 <= fst (Test.reduce_FRAC_MOD FRAC m)
  /\ 1 <= snd (Test.reduce_FRAC_MOD FRAC m)
  /\ Z.gcd (fst (Test.reduce_FRAC_MOD FRAC m)) (snd (Test.reduce_FRAC_MOD FRAC m)) = 1
  /\ (fst (Test.reduce_FRAC_MOD FRAC m) = 0 -> snd (Test.reduce_FRAC_MOD FRAC m) = 1).
Proof.
  intros HF Hm. unfold Test.reduce_FRAC_MOD. rewrite gcd_u32_gcd by lia.
  pose proof (Z.gcd_nonneg FRAC m) as Hg0.
  assert (Hg : Z.gcd FRAC m <> 0).
  { intros E. apply Z.gcd_eq_0_r in E. lia. }
  destruct (Z.gcd_divide_l FRAC m) as [qa Ha].
  destruct (Z.gcd_divide_r FRAC m) as [qb Hb].
  destruct (Z.ltb_spec 1 (Z.gcd FRAC m)) as [Hgt|Hle]; cbn [fst snd].
  - set (g := Z.gcd FRAC m) in *.
    assert (Eqa : FRAC / g = qa) by (rewrite Ha at 1; apply Z.div_mul; exact Hg).
    assert (Eqb : m / g = qb) by (rewrite Hb at 1; apply Z.div_mul; exact Hg).
    assert (Hcop : Z.gcd qa qb = 1).
    { pose proof (Z.gcd_div_gcd FRAC m g Hg eq_refl) as Hc.
      rewrite Eqa, Eqb in Hc. exact Hc. }
    rewrite Eqa, Eqb.
    split; [nia|]. split; [nia|]. split; [exact Hcop|].
    intros Hqa. rewrite Hqa in Hcop. rewrite Z.gcd_0_l in Hcop. nia.
  - assert (Hone : Z.gcd FRAC m = 1) by lia.
    split; [lia|]. split; [lia|]. split; [exact Hone|].
    intros HF0. rewrite HF0, Z.gcd_0_l in Hone. lia.
Qed.

(** What every run of the planner gives for the fraction: lowest terms, a
    modulus of at least 1, and the modulus 1 whenever the fraction is zero. *)
Lemma planned_fraction cfg rf b p b' t :
  Test.planFrequency cfg rf b = Some (p, b', t) ->
  0 <= Test.FRAC p
  /\ 1 <= Test.MOD p
  /\ Z.gcd (Test.FRAC p) (Test.MOD p) = 1
  /\ (Test.FRAC p = 0 -> Test.MOD p = 1).
Proof.
  intros Hplan.
  destruct (planFrequency_inv _ _ _ _ _ _ Hplan)
    as (div & m0 & INT0 & FRAC0 & _ & _ & Hfrac & Hp & _ & _).
  destruct (compute_INT_FRAC_inv _ _ _ _ Hfrac) as (_ & v & _ & HF).
  subst p. cbn [Test.FRAC Test.MOD].
  apply reduce_FRAC_MOD_coprime.
  - unfold Test.rounding_overflow.
    destruct (FRAC0 =? Test.clamp_MOD m0); cbn [snd]; [lia|].
    rewrite HF. apply uint32_range.
  - apply clamp_MOD_range.
Qed.

(** A slip of the code: the conversion to [uint32_t] comes before the clamp,
    so the upper clamp misses a quotient of 2^32 or more; 2^32 wraps to 0
    and is clamped up to 2, not down to 0xFFFFFF. *)
Lemma MOD_wraps_before_clamp :
  Double.llround (Test.pfd_calculation (settings_for 10.525e9 (10e6 / 4294967296))
                  / (Test.CHANNEL_STEP_HZ (settings_for 10.525e9 (10e6 / 4294967296))
                     * Double.of_int 1))%float = Some (2 ^ 32)
  /\ Test.raw_MOD (settings_for 10.525e9 (10e6 / 4294967296)) 1 = Some 0
  /\ Test.clamp_MOD 0 = 2.
Proof. repeat split; vm_compute; reflexivity. Qed.

(** C6 as the specification states it fails: for a channel step of 0.5 Hz
    the modulus 20000000 is clamped to 16777215, and what the planner hands
    back, parameters and printed lines, is what it hands back for the step
    that gives 16777215 without the clamp; nothing tells the two apart. *)
Lemma clamp_is_not_reported :
  ~ exists report : Test.PllParams -> list event -> bool,
      forall cfg rf b p b' t div,
        Test.planFrequency cfg rf b = Some (p, b', t) ->
        Test.choose_output_divider rf = Some div ->
        report p t = clamp_changed cfg div.
Proof.
  intros [report H].
  pose (p := {| Test.pfd_hz := 10e6; Test.INT := 1052; Test.FRAC := 8388608;
                Test.MOD := 16777215; Test.out_div := 1; Test.rfouta_en := false;
                Test.rfoutb_en := true; Test.pwr := Test.PWR_MAX |}).
  assert (Hclamped : report p [] = true).
  { rewrite (H (settings_for 10.525e9 0.5) 10.525e9%float idle_board p idle_board [] 1);
      reflexivity. }
  assert (Hplain : report p [] = false).
  { rewrite (H (settings_for 10.525e9 (10e6 / 16777215)) 10.525e9%float
               idle_board p idle_board [] 1);
      reflexivity. }
  congruence.
Qed.

(** The run with a channel step of 0.5 Hz and the target 10.522 GHz, step by
    step: the rounded quotient 20000000 is clamped to 0xFFFFFF, the fraction
    3355443 is a fifth of it, and the planner returns FRAC = 1, MOD = 5 and
    prints nothing. *)
Lemma half_hertz_step_is_clamped :
  Double.llround (Test.pfd_calculation (settings_for 10.522e9 0.5)
                  / (Test.CHANNEL_STEP_HZ (settings_for 10.522e9 0.5)
                     * Double.of_int 1))%float = Some 20000000
  /\ Test.raw_MOD (settings_for 10.522e9 0.5) 1 = Some 20000000
  /\ Test.clamp_MOD 20000000 = MOD_MAX
  /\ Test.compute_INT_FRAC
       (vco_of 10.522e9 1 / Test.pfd_calculation (settings_for 10.522e9 0.5)) MOD_MAX
     = Some (1052, 3355443)
  /\ Test.rounding_overflow 1052 3355443 MOD_MAX = (1052, 3355443)
  /\ Z.gcd 3355443 MOD_MAX = 3355443
  /\ Test.reduce_FRAC_MOD 3355443 MOD_MAX = (1, 5)
  /\ Test.planFrequency (settings_for 10.522e9 0.5) 10.522e9 idle_board
     = Some ({| Test.pfd_hz := 10e6; Test.INT := 1052; Test.FRAC := 1;
                Test.MOD := 5; Test.out_div := 1; Test.rfouta_en := false;
                Test.rfoutb_en := true; Test.pwr := Test.PWR_MAX |},
             idle_board, []).
Proof.
  split; [vm_compute; reflexivity|]. split; [vm_compute; reflexivity|].
  split; [reflexivity|]. split; [vm_compute; reflexivity|].
  split; [reflexivity|]. split; [reflexivity|].
  split; [reflexivity|vm_compute; reflexivity].
Qed.

(** The reduction of a non-zero fraction divides fraction and modulus by
    their greatest common divisor. *)
Lemma reduce_FRAC_MOD_by_gcd FRAC m :
  0 < FRAC -> 2 <= m ->
  1 <= Z.gcd FRAC m
  /\ Test.reduce_FRAC_MOD FRAC m = (FRAC / Z.gcd FRAC m, m / Z.gcd FRAC m)
  /\ snd (Test.reduce_FRAC_MOD FRAC m) * Z.gcd FRAC m = m.
Proof.
  intros HF Hm. unfold Test.reduce_FRAC_MOD. rewrite gcd_u32_gcd by lia.
  pose proof (Z.gcd_nonneg FRAC m) as Hg0.
  assert (Hg : Z.gcd FRAC m <> 0).
  { intros E. apply Z.gcd_eq_0_r in E. lia. }
  destruct (Z.gcd_divide_r FRAC m) as [q Hq].
  split; [lia|].
  destruct (Z.ltb_spec 1 (Z.gcd FRAC m)) as [Hgt|Hle]; cbn [snd].
  - split; [reflexivity|].
    rewrite Hq at 1. rewrite Z.div_mul by exact Hg. symmetry. exact Hq.
  - assert (Hone : Z.gcd FRAC m = 1) by lia.
    rewrite Hone, !Z.div_1_r. split; [reflexivity|lia].
Qed.

(** C6, amended: the modulus is the rounded quotient clamped to
    [2, 0xFFFFFF].  For a rounded quotient [v] from 0 to below 2^32 the
    modulus the planner works with is [min 0xFFFFFF (max 2 v)]: [v] itself
    in the range, 2 below it, 0xFFFFFF above it; INT and the fraction are
    computed with this modulus, and for a fraction that is not zero the
    parameters returned are the fraction and this modulus, each divided by
    their greatest common divisor.  The clamp is silent: the run prints the
    range line of the VCO test or nothing, and leaves the board as it
    was. *)
Theorem MOD_is_clamped_silently
    (cfg : Test.UserSettings) (rf : float) (b b' : board) (p : Test.PllParams)
    (t : list event)
    (Hplan : Test.planFrequency cfg rf b = Some (p, b', t)) :
  exists v INT0 FRAC0,
    Double.llround (Test.pfd_calculation cfg
                    / (Test.CHANNEL_STEP_HZ cfg * Double.of_int (Test.out_div p)))%float
    = Some v
    /\ t = range_report rf (Test.out_div p)
    /\ b' = b
    /\ (0 <= v < 2 ^ 32 ->
        Test.clamp_MOD v = Z.min MOD_MAX (Z.max 2 v)
        /\ 2 <= Test.clamp_MOD v <= MOD_MAX
        /\ (2 <= v <= MOD_MAX -> Test.clamp_MOD v = v)
        /\ (v < 2 -> Test.clamp_MOD v = 2)
        /\ (MOD_MAX < v -> Test.clamp_MOD v = MOD_MAX)
        /\ Test.compute_INT_FRAC
             (vco_of rf (Test.out_div p) / Test.pfd_calculation cfg)
             (Test.clamp_MOD v) = Some (INT0, FRAC0)
        /\ (snd (Test.rounding_overflow INT0 FRAC0 (Test.clamp_MOD v)) <> 0 ->
            1 <= Z.gcd (snd (Test.rounding_overflow INT0 FRAC0 (Test.clamp_MOD v)))
                       (Test.clamp_MOD v)
            /\ Test.FRAC p
               = snd (Test.rounding_overflow INT0 FRAC0 (Test.clamp_MOD v))
                 / Z.gcd (snd (Test.rounding_overflow INT0 FRAC0 (Test.clamp_MOD v)))
                         (Test.clamp_MOD v)
            /\ Test.MOD p
               = Test.clamp_MOD v
                 / Z.gcd (snd (Test.rounding_overflow INT0 FRAC0 (Test.clamp_MOD v)))
                         (Test.clamp_MOD v)
            /\ Test.MOD p
               * Z.gcd (snd (Test.rounding_overflow INT0 FRAC0 (Test.clamp_MOD v)))
                       (Test.clamp_MOD v)
               = Test.clamp_MOD v)).
Proof.
  destruct (planFrequency_inv _ _ _ _ _ _ Hplan)
    as (div & m0 & INT0 & FRAC0 & Hdiv & Hmod & Hfrac & Hp & Hb & Ht).
  destruct (raw_MOD_inv _ _ _ Hmod) as (v & Hv & Hm0).
  destruct (compute_INT_FRAC_inv _ _ _ _ Hfrac) as (_ & v' & _ & HF).
  exists v, INT0, FRAC0. subst p. cbn [Test.out_div Test.MOD Test.FRAC].
  split; [exact Hv|]. split; [exact Ht|]. split; [exact Hb|].
  intros Hv32.
  assert (Em0 : m0 = v) by (rewrite Hm0; apply Z.mod_small; exact Hv32).
  subst m0. rewrite Em0 in *. clear Em0.
  pose proof (clamp_MOD_range v) as Hrange.
  pose proof (clamp_MOD_cases v) as (Hlow & Hmid & Hhigh).
  split.
  { unfold MOD_MAX in *. destruct (Z.lt_ge_cases v 2) as [H2|H2]; [rewrite Hlow; lia|].
    destruct (Z.le_gt_cases v 16777215) as [Hm|Hm]; [rewrite Hmid; lia|rewrite Hhigh; lia]. }
  split; [exact Hrange|]. split; [exact Hmid|]. split; [exact Hlow|].
  split; [exact Hhigh|]. split; [exact Hfrac|].
  intros Hne.
  set (M := Test.clamp_MOD v) in *.
  set (FRAC1 := snd (Test.rounding_overflow INT0 FRAC0 M)) in *.
  assert (HF1 : 0 < FRAC1).
  { assert (H0 : 0 <= FRAC1); [|lia].
    unfold FRAC1, Test.rounding_overflow. destruct (FRAC0 =? M); cbn [snd]; [lia|].
    rewrite HF. apply uint32_range. }
  destruct (reduce_FRAC_MOD_by_gcd FRAC1 M HF1 ltac:(lia)) as (Hg & Hred & Hmul).
  rewrite Hred in *. cbn [fst snd] in *.
  split; [exact Hg|]. split; [reflexivity|]. split; [reflexivity|exact Hmul].
Qed.

Lemma MOD_is_clamped_silently_witness :
  exists v INT0 FRAC0,
    Double.llround (Test.pfd_calculation (settings_for 10.522e9 0.5)
                    / (Test.CHANNEL_STEP_HZ (settings_for 10.522e9 0.5)
                       * Double.of_int 1))%float
    = Some v
    /\ [] = range_report 10.522e9 1
    /\ idle_board = idle_board
    /\ (0 <= v < 2 ^ 32 ->
        Test.clamp_MOD v = Z.min MOD_MAX (Z.max 2 v)
        /\ 2 <= Test.clamp_MOD v <= MOD_MAX
        /\ (2 <= v <= MOD_MAX -> Test.clamp_MOD v = v)
        /\ (v < 2 -> Test.clamp_MOD v = 2)
        /\ (MOD_MAX < v -> Test.clamp_MOD v = MOD_MAX)
        /\ Test.compute_INT_FRAC
             (vco_of 10.522e9 1 / Test.pfd_calculation (settings_for 10.522e9 0.5))
             (Test.clamp_MOD v) = Some (INT0, FRAC0)
        /\ (snd (Test.rounding_overflow INT0 FRAC0 (Test.clamp_MOD v)) <> 0 ->
            1 <= Z.gcd (snd (Test.rounding_overflow INT0 FRAC0 (Test.clamp_MOD v)))
                       (Test.clamp_MOD v)
            /\ 1
               = snd (Test.rounding_overflow INT0 FRAC0 (Test.clamp_MOD v))
                 / Z.gcd (snd (Test.rounding_overflow INT0 FRAC0 (Test.clamp_MOD v)))
                         (Test.clamp_MOD v)
            /\ 5
               = Test.clamp_MOD v
                 / Z.gcd (snd (Test.rounding_overflow INT0 FRAC0 (Test.clamp_MOD v)))
                         (Test.clamp_MOD v)
            /\ 5
               * Z.gcd (snd (Test.rounding_overflow INT0 FRAC0 (Test.clamp_MOD v)))
                       (Test.clamp_MOD v)
               = Test.clamp_MOD v)).
Proof.
  apply (MOD_is_clamped_silently (settings_for 10.522e9 0.5) 10.522e9%float
           idle_board idle_board
           {| Test.pfd_hz := 10e6; Test.INT := 1052; Test.FRAC := 1;
              Test.MOD := 5; Test.out_div := 1; Test.rfouta_en := false;
              Test.rfoutb_en := true; Test.pwr := Test.PWR_MAX |} []).
  vm_compute. reflexivity.
Defined.

(** ** The output divider *)

Lemma choose_output_divider_loop_step fuel rf div :
  Test.choose_output_divider_loop (S fuel) rf div
  = if (vco_of rf div <? Test.VCO_MIN)%float && (div <? 64)
    then Test.choose_output_divider_loop fuel rf (uint8 (div * 2))
    else Some div.
Proof. reflexivity. Qed.

Ltac divider_test rf d d2 :=
  rewrite (choose_output_divider_loop_step _ rf d);
  change (uint8 (d * 2)) with d2;
  change (d <? 64) with true;
  destruct (PrimFloat.ltb (vco_of rf d) Test.VCO_MIN) eqn:?;
  cbn [andb].

(** The loop leaves by its test within seven tests, with the least divider
    among 1, 2, ..., 64 at which the VCO frequency is not below the band, or
    with 64. *)
Lemma choose_output_divider_least rf :
  exists d,
    Test.choose_output_divider rf = Some d
    /\ In d dividers
    /\ (forall d', In d' dividers -> d' < d ->
          (vco_of rf d' <? Test.VCO_MIN)%float = true)
    /\ (d < 64 -> (vco_of rf d <? Test.VCO_MIN)%float = false).
Proof.
  unfold Test.choose_output_divider, dividers.
  divider_test rf 1 2; [|shelve].
  divider_test rf 2 4; [|shelve].
  divider_test rf 4 8; [|shelve].
  divider_test rf 8 16; [|shelve].
  divider_test rf 16 32; [|shelve].
  divider_test rf 32 64; [|shelve].
  rewrite (choose_output_divider_loop_step _ rf 64).
  change (64 <? 64) with false. rewrite andb_false_r.
  Unshelve.
  all: eexists; split; [reflexivity|]; split; [simpl; lia|]; split;
    [ intros d' Hd' Hlt; simpl in Hd';
      repeat (destruct Hd' as [<-|Hd']; [assumption || lia|]); contradiction
    | intros Hlt; assumption || lia ].
Qed.

(** ** Binary64 facts: scaling by a power of two, and comparison *)

(** A product whose mantissa is a 53-bit one shifted by 52 bits rounds to
    that mantissa: nothing is lost. *)
Lemma binary_round_aux_shift (m : positive) (e : Z) :
  digits2_pos m = 53%positive ->
  -1074 <= e + 52 <= 971 ->
  binary_round_aux prec emax false (Zpos (m * 4503599627370496)) e loc_Exact
  = S754_finite false m (e + 52).
Proof.
  intros Hd He.
  rewrite Pos.mul_comm.
  unfold binary_round_aux, shr_fexp.
  cbn [shr_record_of_loc].
  assert (Hdig : Zdigits2 (Z.pos (4503599627370496 * m)) = 105).
  { cbv [Zdigits2 Pos.mul]. cbn [digits2_pos]. rewrite Hd. reflexivity. }
  rewrite Hdig.
  assert (Hf : fexp prec emax (105 + e) - e = 52).
  { unfold fexp, emin, prec, emax. lia. }
  rewrite Hf.
  cbn [shr].
  assert (Hshr : SpecFloat.iter_pos shr_1 52
                  {| shr_m := Z.pos (4503599627370496 * m);
                     shr_r := false; shr_s := false |}
                 = {| shr_m := Z.pos m; shr_r := false; shr_s := false |}).
  { reflexivity. }
  rewrite Hshr. cbn [shr_m loc_of_shr_record round_nearest_even Zdigits2].
  rewrite Hd.
  assert (Hf2 : fexp prec emax (53 + (e + 52)) - (e + 52) = 0).
  { unfold fexp, emin, prec, emax. lia. }
  rewrite Hf2. cbn [shr shr_m].
  replace (e + 52 <=? emax - prec) with true; [reflexivity|].
  symmetry. apply Z.leb_le. unfold emax, prec. lia.
Qed.

Lemma of_int_divider d k :
  In (d, k) divider_exponents ->
  Prim2SF (Double.of_int d) = S754_finite false 4503599627370496 (k - 52).
Proof.
  unfold divider_exponents. intros H. simpl in H.
  repeat (destruct H as [[= <- <-]|H]; [vm_compute; reflexivity|]).
  contradiction.
Qed.

Lemma divider_exponents_range d k :
  In (d, k) divider_exponents -> 0 <= k <= 6 /\ In d dividers.
Proof.
  unfold divider_exponents, dividers. intros H. simpl in H.
  repeat (destruct H as [[= <- <-]|H]; [simpl; lia|]).
  contradiction.
Qed.

(** Multiplying a normal double by a divider only moves its exponent. *)
Lemma vco_of_exact rf m e d k :
  Prim2SF rf = S754_finite false m e ->
  digits2_pos m = 53%positive ->
  In (d, k) divider_exponents ->
  -1074 <= e + k <= 971 ->
  Prim2SF (vco_of rf d) = S754_finite false m (e + k).
Proof.
  intros Hrf Hd Hk He. unfold vco_of.
  rewrite FloatAxioms.mul_spec, Hrf, (of_int_divider d k Hk).
  unfold SF64mul, SFmul. cbn [xorb].
  rewrite binary_round_aux_shift by (assumption || lia).
  f_equal. lia.
Qed.

Lemma SFltb_finite m1 e1 m2 e2 :
  SFltb (S754_finite false m1 e1) (S754_finite false m2 e2) = true
  <-> e1 < e2 \/ (e1 = e2 /\ Zpos m1 < Zpos m2).
Proof.
  unfold SFltb, SFcompare.
  destruct (Z.compare_spec e1 e2) as [E|E|E].
  - change (Pos.compare_cont Eq m1 m2) with (Pos.compare m1 m2).
    destruct (Pos.compare_spec m1 m2) as [E'|E'|E'];
      split; intros H; try discriminate; try reflexivity; lia.
  - split; intros H; [lia|reflexivity].
  - split; intros H; [discriminate|lia].
Qed.

Lemma SFleb_finite m1 e1 m2 e2 :
  SFleb (S754_finite false m1 e1) (S754_finite false m2 e2) = true
  <-> e1 < e2 \/ (e1 = e2 /\ Zpos m1 <= Zpos m2).
Proof.
  unfold SFleb, SFcompare.
  destruct (Z.compare_spec e1 e2) as [E|E|E].
  - change (Pos.compare_cont Eq m1 m2) with (Pos.compare m1 m2).
    destruct (Pos.compare_spec m1 m2) as [E'|E'|E'];
      split; intros H; try discriminate; try reflexivity; lia.
  - split; intros H; [lia|reflexivity].
  - split; intros H; [discriminate|lia].
Qed.

(** The mantissa of a finite double above the subnormal range has 53 bits. *)
Lemma normal_mantissa rf s m e :
  Prim2SF rf = S754_finite s m e -> -1074 < e -> digits2_pos m = 53%positive.
Proof.
  intros Hrf He. pose proof (Prim2SF_valid rf) as Hv. rewrite Hrf in Hv.
  unfold valid_binary, bounded, canonical_mantissa in Hv.
  apply andb_prop in Hv as [Hc _]. apply Z.eqb_eq in Hc.
  unfold fexp, emin, prec, emax in Hc. lia.
Qed.

(** A target from 93.75 MHz to 13 GHz is a positive normal double whose
    exponent lies between those of the two bounds. *)
Lemma target_in_range rf :
  (93.75e6 <=? rf)%float = true -> (rf <=? 13e9)%float = true ->
  exists m e,
    Prim2SF rf = S754_finite false m e
    /\ digits2_pos m = 53%positive
    /\ (-26 < e \/ (e = -26 /\ 6291456000000000 <= Zpos m))
    /\ (e < -19 \/ (e = -19 /\ Zpos m <= 6815744000000000)).
Proof.
  rewrite !FloatAxioms.leb_spec.
  change (Prim2SF 93.75e6) with (S754_finite false 6291456000000000 (-26)).
  change (Prim2SF 13e9) with (S754_finite false 6815744000000000 (-19)).
  destruct (Prim2SF rf) as [s|s| |s m e] eqn:Hrf.
  - destruct s; intros H; discriminate H.
  - destruct s; intros H1 H2; [discriminate H1|discriminate H2].
  - intros H; discriminate H.
  - destruct s; [intros H; discriminate H|]. intros Hlo Hhi.
    apply SFleb_finite in Hlo, Hhi.
    exists m, e. split; [reflexivity|].
    split; [eapply normal_mantissa; [exact Hrf|lia]|].
    split; lia.
Qed.

Lemma vco_below_band rf m e d k :
  Prim2SF rf = S754_finite false m e ->
  digits2_pos m = 53%positive ->
  In (d, k) divider_exponents ->
  -1074 <= e + k <= 971 ->
  (vco_of rf d <? Test.VCO_MIN)%float = true
  <-> e + k < -20 \/ (e + k = -20 /\ Zpos m < 6291456000000000).
Proof.
  intros Hrf Hd Hk He.
  rewrite FloatAxioms.ltb_spec, (vco_of_exact rf m e d k Hrf Hd Hk He).
  change (Prim2SF Test.VCO_MIN) with (S754_finite false 6291456000000000 (-20)).
  apply SFltb_finite.
Qed.

Lemma vco_in_band rf m e d k :
  Prim2SF rf = S754_finite false m e ->
  digits2_pos m = 53%positive ->
  In (d, k) divider_exponents ->
  -1074 <= e + k <= 971 ->
  in_band (vco_of rf d) = true
  <-> (-20 < e + k \/ (-20 = e + k /\ 6291456000000000 <= Zpos m))
      /\ (e + k < -19 \/ (e + k = -19 /\ Zpos m <= 6815744000000000)).
Proof.
  intros Hrf Hd Hk He. unfold in_band.
  rewrite andb_true_iff, !FloatAxioms.leb_spec, (vco_of_exact rf m e d k Hrf Hd Hk He).
  change (Prim2SF Test.VCO_MIN) with (S754_finite false 6291456000000000 (-20)).
  change (Prim2SF Test.VCO_MAX) with (S754_finite false 6815744000000000 (-19)).
  rewrite !SFleb_finite. reflexivity.
Qed.

(** For a target from 93.75 MHz (the lower band edge over 64) to 13 GHz the
    divider the loop leaves with places the VCO frequency in the band. *)
Lemma chosen_divider_in_band rf d :
  (93.75e6 <=? rf)%float = true -> (rf <=? 13e9)%float = true ->
  In d dividers ->
  (forall d', In d' dividers -> d' < d ->
     (vco_of rf d' <? Test.VCO_MIN)%float = true) ->
  (d < 64 -> (vco_of rf d <? Test.VCO_MIN)%float = false) ->
  in_band (vco_of rf d) = true.
Proof.
  intros Hlo Hhi Hd Hbelow Hexit.
  destruct (target_in_range rf Hlo Hhi) as (m & e & Hrf & Hm & Hemin & Hemax).
  assert (Hprev : forall d' k', In (d', k') divider_exponents -> d' < d ->
            e + k' < -20 \/ (e + k' = -20 /\ Zpos m < 6291456000000000)).
  { intros d' k' Hk' Hlt.
    destruct (divider_exponents_range d' k' Hk') as [Hk'r Hd'].
    apply (vco_below_band rf m e d' k' Hrf Hm Hk'); [lia|].
    apply Hbelow; assumption. }
  assert (Hhere : forall k, In (d, k) divider_exponents -> d < 64 ->
            ~ (e + k < -20 \/ (e + k = -20 /\ Zpos m < 6291456000000000))).
  { intros k Hk Hlt Hc.
    destruct (divider_exponents_range d k Hk) as [Hkr _].
    apply (vco_below_band rf m e d k Hrf Hm Hk) in Hc; [|lia].
    rewrite (Hexit Hlt) in Hc. discriminate Hc. }
  assert (Hband : forall k, In (d, k) divider_exponents ->
            (-20 < e + k \/ (-20 = e + k /\ 6291456000000000 <= Zpos m))
            /\ (e + k < -19 \/ (e + k = -19 /\ Zpos m <= 6815744000000000)) ->
            in_band (vco_of rf d) = true).
  { intros k Hk Hgoal.
    destruct (divider_exponents_range d k Hk) as [Hkr _].
    apply (vco_in_band rf m e d k Hrf Hm Hk); [lia|exact Hgoal]. }
  unfold dividers in Hd. simpl in Hd.
  destruct Hd as [<-|[<-|[<-|[<-|[<-|[<-|[<-|[]]]]]]]].
  - apply (Hband 0); [simpl; tauto|].
    pose proof (Hhere 0 ltac:(simpl; tauto)). lia.
  - apply (Hband 1); [simpl; tauto|].
    pose proof (Hhere 1 ltac:(simpl; tauto)).
    pose proof (Hprev 1 0 ltac:(simpl; tauto)). lia.
  - apply (Hband 2); [simpl; tauto|].
    pose proof (Hhere 2 ltac:(simpl; tauto)).
    pose proof (Hprev 2 1 ltac:(simpl; tauto)). lia.
  - apply (Hband 3); [simpl; tauto|].
    pose proof (Hhere 3 ltac:(simpl; tauto)).
    pose proof (Hprev 4 2 ltac:(simpl; tauto)). lia.
  - apply (Hband 4); [simpl; tauto|].
    pose proof (Hhere 4 ltac:(simpl; tauto)).
    pose proof (Hprev 8 3 ltac:(simpl; tauto)). lia.
  - apply (Hband 5); [simpl; tauto|].
    pose proof (Hhere 5 ltac:(simpl; tauto)).
    pose proof (Hprev 16 4 ltac:(simpl; tauto)). lia.
  - apply (Hband 6); [simpl; tauto|].
    pose proof (Hprev 32 5 ltac:(simpl; tauto)). lia.
Qed.

(** C1 as the specification states it fails: for the positive target 1 MHz
    the loop stops at the largest divider, 64, and the VCO frequency, 64 MHz,
    is below the band. *)
Lemma band_fails_for_1_MHz :
  ~ (forall rf b p b' t,
       (0 <? rf)%float = true ->
       Test.planFrequency Test.user_settings rf b = Some (p, b', t) ->
       in_band (vco_of rf (Test.out_div p)) = true).
Proof.
  intros H.
  specialize (H 1e6%float idle_board _ _ _ eq_refl ltac:(vm_compute; reflexivity)).
  vm_compute in H. discriminate H.
Qed.

(** C1, amended: the divider of the parameters returned is the least of
    1, 2, 4, ..., 64 at which the VCO frequency is not below VCO_MIN, and 64
    when there is none: every smaller divider leaves the VCO frequency below
    VCO_MIN, and below 64 the chosen one does not.  For a target from
    93.75 MHz (VCO_MIN / 64) to 13 GHz (VCO_MAX) the VCO frequency then lies
    in the band, VCO_MIN <= target * out_div <= VCO_MAX. *)
Theorem out_div_is_least_power_of_two
    (cfg : Test.UserSettings) (rf : float) (b b' : board) (p : Test.PllParams)
    (t : list event)
    (Hplan : Test.planFrequency cfg rf b = Some (p, b', t)) :
  Test.choose_output_divider rf = Some (Test.out_div p)
  /\ In (Test.out_div p) dividers
  /\ (forall d, In d dividers -> d < Test.out_div p ->
        (vco_of rf d <? Test.VCO_MIN)%float = true)
  /\ (Test.out_div p < 64 ->
        (vco_of rf (Test.out_div p) <? Test.VCO_MIN)%float = false)
  /\ ((93.75e6 <=? rf)%float = true -> (rf <=? 13e9)%float = true ->
        in_band (vco_of rf (Test.out_div p)) = true).
Proof.
  destruct (planFrequency_inv _ _ _ _ _ _ Hplan)
    as (div & m0 & INT0 & FRAC0 & Hdiv & _ & _ & Hp & _ & _).
  destruct (choose_output_divider_least rf) as (d & Hd & Hin & Hbelow & Hexit).
  rewrite Hdiv in Hd. injection Hd as ->.
  subst p. cbn [Test.out_div].
  split; [exact Hdiv|]. split; [exact Hin|]. split; [exact Hbelow|].
  split; [exact Hexit|].
  intros Hlo Hhi. apply chosen_divider_in_band; assumption.
Qed.

Lemma out_div_is_least_power_of_two_witness :
  Test.choose_output_divider 2.4e9 = Some 4
  /\ In 4 dividers
  /\ (vco_of 2.4e9 1 <? Test.VCO_MIN)%float = true
  /\ (vco_of 2.4e9 2 <? Test.VCO_MIN)%float = true
  /\ (vco_of 2.4e9 4 <? Test.VCO_MIN)%float = false
  /\ in_band (vco_of 2.4e9 4) = true.
Proof.
  destruct (out_div_is_least_power_of_two Test.user_settings 2.4e9%float
              idle_board idle_board
              {| Test.pfd_hz := 10e6; Test.INT := 960; Test.FRAC := 0;
                 Test.MOD := 1; Test.out_div := 4; Test.rfouta_en := false;
                 Test.rfoutb_en := true; Test.pwr := Test.PWR_MAX |} [])
    as (H1 & H2 & H3 & H4 & H5).
  - vm_compute. reflexivity.
  - split; [exact H1|]. split; [exact H2|].
    split; [apply H3; simpl; lia|]. split; [apply H3; simpl; lia|].
    split; [apply H4; simpl; lia|]. apply H5; reflexivity.
Defined.

(** * Further properties of the code *)

(** ** [gcd_u32] *)

(** X1: on unsigned arguments the loop of [gcd_u32] returns the greatest
    common divisor: it divides both arguments, every common divisor divides
    it, and it is no larger than the larger argument, so it is a
    [uint32_t] again; with a zero argument it returns the other one. *)
Theorem gcd_u32_greatest_common_divisor (a b : Z) (Ha : 0 <= a) (Hb : 0 <= b) :
  Test.gcd_u32 a b = Z.gcd a b
  /\ (Test.gcd_u32 a b | a) /\ (Test.gcd_u32 a b | b)
  /\ (forall c, (c | a) -> (c | b) -> (c | Test.gcd_u32 a b))
  /\ 0 <= Test.gcd_u32 a b <= Z.max a b
  /\ Test.gcd_u32 a 0 = a /\ Test.gcd_u32 0 b = b.
Proof.
  rewrite (gcd_u32_gcd a b Ha Hb).
  split; [reflexivity|].
  split; [apply Z.gcd_divide_l|]. split; [apply Z.gcd_divide_r|].
  split; [intros c Hca Hcb; apply Z.gcd_greatest; assumption|].
  split.
  - split; [apply Z.gcd_nonneg|].
    destruct (Z.eq_dec a 0) as [->|Hane].
    + rewrite Z.gcd_0_l, Z.abs_eq by exact Hb. lia.
    + assert (Z.gcd a b <= a).
      { apply Z.divide_pos_le; [lia|apply Z.gcd_divide_l]. }
      lia.
  - split.
    + rewrite gcd_u32_unfold. destruct (Z.eq_dec 0 0); [reflexivity|contradiction].
    + rewrite (gcd_u32_gcd 0 b ltac:(lia) Hb), Z.gcd_0_l. apply Z.abs_eq, Hb.
Qed.

Lemma gcd_u32_greatest_common_divisor_witness :
  Test.gcd_u32 5000 10000 = Z.gcd 5000 10000
  /\ (Test.gcd_u32 5000 10000 | 5000) /\ (Test.gcd_u32 5000 10000 | 10000)
  /\ (forall c, (c | 5000) -> (c | 10000) -> (c | Test.gcd_u32 5000 10000))
  /\ 0 <= Test.gcd_u32 5000 10000 <= Z.max 5000 10000
  /\ Test.gcd_u32 5000 0 = 5000 /\ Test.gcd_u32 0 10000 = 10000.
Proof. apply gcd_u32_greatest_common_divisor; lia. Defined.

(** ** [withAddr] *)

(** X2: [withAddr] always yields a 32-bit word, whatever bits it is given; of
    the register number only the low four bits count; and a second patch
    overrides the first, so that patching twice with one number is patching
    once. *)
Theorem withAddr_overrides (w r r' : Z) :
  0 <= Test.withAddr w r < 2 ^ 32
  /\ Z.land (Test.withAddr w r) 0xF = r mod 16
  /\ Test.withAddr w r = Test.withAddr w (r mod 16)
  /\ Test.withAddr (Test.withAddr w r) r' = Test.withAddr w r'
  /\ Test.withAddr (Test.withAddr w r) r = Test.withAddr w r.
Proof.
  assert (Hnib : forall x i, 0 <= i ->
            Z.testbit (x mod 16) i = Z.testbit x i && (i <? 4)).
  { intros x i Hi. change 16 with (2 ^ 4). rewrite <- Z.land_ones by lia.
    rewrite Z.land_spec, Z.testbit_ones_nonneg by lia. reflexivity. }
  assert (Hover : forall x y, Test.withAddr (Test.withAddr w x) y = Test.withAddr w y).
  { intros x y. apply Z.bits_inj'. intros i Hi.
    rewrite !testbit_withAddr by exact Hi.
    destruct (Z.ltb_spec i 4), (Z.leb_spec 4 i); try lia;
      rewrite ?andb_false_r, ?andb_true_r, ?orb_false_r; simpl; try reflexivity.
    destruct (Z.testbit w i), (i <? 32); reflexivity. }
  split; [|split; [|split; [|split]]].
  - assert (H32 : Test.withAddr w r = Test.withAddr w r mod 2 ^ 32).
    { rewrite <- Z.land_ones by lia. apply Z.bits_inj'. intros i Hi.
      rewrite Z.land_spec, Z.testbit_ones_nonneg, testbit_withAddr by lia.
      destruct (Z.ltb_spec i 32).
      - destruct (Z.testbit w i), (Z.testbit r i), (4 <=? i), (i <? 4); reflexivity.
      - replace (i <? 4) with false by (symmetry; apply Z.ltb_ge; lia).
        rewrite !andb_false_r. reflexivity. }
    rewrite H32. apply Z.mod_pos_bound. lia.
  - apply Z.bits_inj'. intros i Hi.
    rewrite Z.land_spec, testbit_withAddr, (testbit_low_nibble i), Hnib by lia.
    destruct (Z.ltb_spec i 4) as [Hlt|Hge].
    + replace (4 <=? i) with false by (symmetry; apply Z.leb_gt; lia).
      rewrite !andb_false_r, !andb_true_r. reflexivity.
    + rewrite !andb_false_r. reflexivity.
  - apply Z.bits_inj'. intros i Hi.
    rewrite !testbit_withAddr, Hnib by lia.
    destruct (i <? 4); rewrite ?andb_true_r, ?andb_false_r; reflexivity.
  - apply Hover.
  - apply Hover.
Qed.

(** ** What the planner returns *)

Lemma to_uint32_range x v : Double.to_uint32 x = Some v -> 0 <= v < 2 ^ 32.
Proof.
  unfold Double.to_uint32. destruct (Prim2SF x) as [s|s| |s m e]; try discriminate.
  - intros [= <-]. lia.
  - destruct (_ && _) eqn:E; [|discriminate]. intros [= <-].
    apply andb_prop in E as [E1 E2].
    apply Z.leb_le in E1. apply Z.ltb_lt in E2. lia.
Qed.

(** X3: every run of the planner returns three [uint32_t] values with
    1 <= MOD <= 0xFFFFFF and FRAC / MOD in lowest terms; whenever FRAC is
    zero, MOD is 1. *)
Theorem planned_values_in_lowest_terms
    (cfg : Test.UserSettings) (rf : float) (b b' : board) (p : Test.PllParams)
    (t : list event)
    (Hplan : Test.planFrequency cfg rf b = Some (p, b', t)) :
  0 <= Test.INT p < 2 ^ 32
  /\ 0 <= Test.FRAC p < 2 ^ 32
  /\ 1 <= Test.MOD p <= MOD_MAX
  /\ Z.gcd (Test.FRAC p) (Test.MOD p) = 1
  /\ (Test.FRAC p = 0 -> Test.MOD p = 1).
Proof.
  destruct (planned_fraction _ _ _ _ _ _ Hplan) as (HF0 & HM1 & Hgcd & Hzero).
  destruct (planFrequency_inv _ _ _ _ _ _ Hplan)
    as (div & m0 & INT0 & FRAC0 & _ & _ & Hfrac & Hp & _ & _).
  destruct (compute_INT_FRAC_inv _ _ _ _ Hfrac) as (HINT & v & _ & HF).
  pose proof (to_uint32_range _ _ HINT) as HINT0.
  pose proof (uint32_range v) as Hv. rewrite <- HF in Hv.
  pose proof (clamp_MOD_range m0) as Hm. unfold MOD_MAX in *.
  assert (HF1 : 0 <= snd (Test.rounding_overflow INT0 FRAC0 (Test.clamp_MOD m0)) < 2 ^ 32).
  { unfold Test.rounding_overflow. destruct (FRAC0 =? _); cbn [snd]; lia. }
  split; [|split; [|split; [|split]]]; try assumption.
  - subst p. cbn [Test.INT]. unfold Test.rounding_overflow.
    destruct (FRAC0 =? _); cbn [fst]; [apply uint32_range|exact HINT0].
  - split; [exact HF0|]. subst p. cbn [Test.FRAC] in *.
    unfold Test.reduce_FRAC_MOD in *.
    destruct (1 <? Test.gcd_u32 _ _) eqn:Hg; cbn [fst] in *; [|lia].
    apply Z.ltb_lt in Hg.
    apply Z.le_lt_trans with (m := snd (Test.rounding_overflow INT0 FRAC0 (Test.clamp_MOD m0)));
      [|lia].
    apply Z.div_le_upper_bound; nia.
  - split; [exact HM1|]. subst p. cbn [Test.MOD] in *.
    unfold Test.reduce_FRAC_MOD in *.
    destruct (1 <? Test.gcd_u32 _ _) eqn:Hg; cbn [snd] in *; [|lia].
    apply Z.ltb_lt in Hg.
    apply Z.le_trans with (m := Test.clamp_MOD m0); [|lia].
    apply Z.div_le_upper_bound; nia.
Qed.

Lemma planned_values_in_lowest_terms_witness :
  0 <= 6 < 2 ^ 32
  /\ 0 <= 31 < 2 ^ 32
  /\ 1 <= 78 <= MOD_MAX
  /\ Z.gcd 31 78 = 1
  /\ (31 = 0 -> 78 = 1).
Proof.
  apply (planned_values_in_lowest_terms Test.user_settings 1e6%float
           idle_board idle_board
           {| Test.pfd_hz := 10e6; Test.INT := 6; Test.FRAC := 31; Test.MOD := 78;
              Test.out_div := 64; Test.rfouta_en := false; Test.rfoutb_en := true;
              Test.pwr := Test.PWR_MAX |} []).
  vm_compute. reflexivity.
Defined.

(** ** The range line *)

Lemma SFcompare_antisym x y :
  SFcompare y x = option_map CompOpp (SFcompare x y).
Proof.
  destruct x as [sx|sx| |sx mx ex], y as [sy|sy| |sy my ey]; cbn [SFcompare option_map];
    try reflexivity;
    try (destruct sx; reflexivity); try (destruct sy; reflexivity);
    try (destruct sx, sy; reflexivity).
  destruct sx, sy; cbn [CompOpp]; try reflexivity.
  - rewrite (Z.compare_antisym ey ex).
    destruct (ey ?= ex); cbn [CompOpp]; try reflexivity.
    change (PosDef.Pos.compare_cont Eq my mx) with (Pos.compare my mx).
    change (PosDef.Pos.compare_cont Eq mx my) with (Pos.compare mx my).
    rewrite (Pos.compare_antisym mx my). destruct (mx ?= my)%positive; reflexivity.
  - rewrite (Z.compare_antisym ey ex).
    destruct (ey ?= ex); cbn [CompOpp]; try reflexivity.
    change (PosDef.Pos.compare_cont Eq my mx) with (Pos.compare my mx).
    change (PosDef.Pos.compare_cont Eq mx my) with (Pos.compare mx my).
    rewrite (Pos.compare_antisym mx my). destruct (mx ?= my)%positive; reflexivity.
Qed.

(** A double that is at most another is not above it. *)
Lemma leb_not_gt (x y : float) : (x <=? y)%float = true -> (y <? x)%float = false.
Proof.
  rewrite FloatAxioms.leb_spec, FloatAxioms.ltb_spec. unfold SFleb, SFltb.
  rewrite (SFcompare_antisym (Prim2SF x) (Prim2SF y)).
  destruct (SFcompare (Prim2SF x) (Prim2SF y)) as [[| |]|]; cbn; congruence.
Qed.

(** A finite double's exponent is at most 971, and its mantissa has 53 bits
    unless it is subnormal. *)
Lemma finite_exponent rf s m e : Prim2SF rf = S754_finite s m e -> e <= 971.
Proof.
  intros Hrf. pose proof (Prim2SF_valid rf) as Hv. rewrite Hrf in Hv.
  unfold valid_binary, bounded in Hv. apply andb_prop in Hv as [_ He].
  apply Z.leb_le in He. unfold emax, prec in He. lia.
Qed.

(** A target above 13 GHz is plus infinity or a positive normal double whose
    exponent is at least that of the band's upper edge. *)
Lemma target_above_band rf :
  (13e9 <? rf)%float = true ->
  Prim2SF rf = S754_infinity false
  \/ exists m e,
       Prim2SF rf = S754_finite false m e
       /\ digits2_pos m = 53%positive
       /\ e <= 971
       /\ (-19 < e \/ (e = -19 /\ 6815744000000000 < Zpos m)).
Proof.
  rewrite FloatAxioms.ltb_spec.
  change (Prim2SF 13e9) with (S754_finite false 6815744000000000 (-19)).
  destruct (Prim2SF rf) as [s|s| |s m e] eqn:Hrf.
  - destruct s; intros H; discriminate H.
  - destruct s; intros H; [discriminate H|]. left. reflexivity.
  - intros H; discriminate H.
  - destruct s; [intros H; discriminate H|]. intros H.
    apply SFltb_finite in H. right. exists m, e.
    split; [reflexivity|].
    split; [eapply normal_mantissa; [exact Hrf|lia]|].
    split; [eapply finite_exponent; exact Hrf|lia].
Qed.

(** A target from 1 Hz to below 93.75 MHz is a positive normal double. *)
Lemma target_below_band rf :
  (1 <=? rf)%float = true -> (rf <? 93.75e6)%float = true ->
  exists m e,
    Prim2SF rf = S754_finite false m e
    /\ digits2_pos m = 53%positive
    /\ -52 <= e
    /\ (e < -26 \/ (e = -26 /\ Zpos m < 6291456000000000)).
Proof.
  rewrite FloatAxioms.leb_spec, FloatAxioms.ltb_spec.
  change (Prim2SF 1) with (S754_finite false 4503599627370496 (-52)).
  change (Prim2SF 93.75e6) with (S754_finite false 6291456000000000 (-26)).
  destruct (Prim2SF rf) as [s|s| |s m e] eqn:Hrf.
  - destruct s; intros H; discriminate H.
  - destruct s; intros H1 H2; [discriminate H1|discriminate H2].
  - intros H; discriminate H.
  - destruct s; [intros H; discriminate H|]. intros Hlo Hhi.
    apply SFleb_finite in Hlo. apply SFltb_finite in Hhi.
    exists m, e. split; [reflexivity|].
    split; [eapply normal_mantissa; [exact Hrf|lia]|lia].
Qed.

(** Above 13 GHz the loop leaves at once, with the divider 1, and the VCO
    frequency is above the band. *)
Lemma divider_above_band rf :
  (13e9 <? rf)%float = true ->
  Test.choose_output_divider rf = Some 1
  /\ (Test.VCO_MAX <? vco_of rf 1)%float = true.
Proof.
  intros Habove.
  assert (Hfirst : (vco_of rf 1 <? Test.VCO_MIN)%float = false
                   /\ (Test.VCO_MAX <? vco_of rf 1)%float = true).
  { destruct (target_above_band rf Habove) as [Hinf|(m & e & Hrf & Hm & He & Hgt)].
    - rewrite !FloatAxioms.ltb_spec. unfold vco_of.
      rewrite FloatAxioms.mul_spec, Hinf.
      rewrite (of_int_divider 1 0) by (simpl; tauto).
      split; reflexivity.
    - assert (Hk : In (1, 0) divider_exponents) by (simpl; tauto).
      split.
      + destruct (PrimFloat.ltb (vco_of rf 1) Test.VCO_MIN) eqn:E; [|reflexivity].
        apply (vco_below_band rf m e 1 0 Hrf Hm Hk) in E; lia.
      + rewrite FloatAxioms.ltb_spec, (vco_of_exact rf m e 1 0 Hrf Hm Hk) by lia.
        change (Prim2SF Test.VCO_MAX) with (S754_finite false 6815744000000000 (-19)).
        apply SFltb_finite. lia. }
  destruct Hfirst as [Hnot Hhigh]. split; [|exact Hhigh].
  destruct (choose_output_divider_least rf) as (d & Hd & Hin & Hbelow & _).
  rewrite Hd. f_equal.
  unfold dividers in Hin. simpl in Hin.
  destruct Hin as [<-|Hin]; [reflexivity|].
  assert (Hone : (vco_of rf 1 <? Test.VCO_MIN)%float = true).
  { apply Hbelow; [simpl; tauto|]. 
    repeat (destruct Hin as [<-|Hin]; [lia|]). contradiction. }
  rewrite Hnot in Hone. discriminate Hone.
Qed.

(** From 1 Hz to below 93.75 MHz the loop runs to the divider 64, and the
    VCO frequency stays below the band. *)
Lemma divider_below_band rf :
  (1 <=? rf)%float = true -> (rf <? 93.75e6)%float = true ->
  Test.choose_output_divider rf = Some 64
  /\ (vco_of rf 64 <? Test.VCO_MIN)%float = true
  /\ (Test.VCO_MAX <? vco_of rf 64)%float = false.
Proof.
  intros Hlo Hhi.
  destruct (target_below_band rf Hlo Hhi) as (m & e & Hrf & Hm & He & Hlt).
  assert (Hall : forall d k, In (d, k) divider_exponents ->
            (vco_of rf d <? Test.VCO_MIN)%float = true).
  { intros d k Hk. destruct (divider_exponents_range d k Hk) as [Hkr _].
    apply (vco_below_band rf m e d k Hrf Hm Hk); lia. }
  split; [|split].
  - destruct (choose_output_divider_least rf) as (d & Hd & Hin & _ & Hexit).
    rewrite Hd. f_equal.
    unfold dividers in Hin. simpl in Hin.
    destruct Hin as [<-|[<-|[<-|[<-|[<-|[<-|[<-|[]]]]]]]]; try reflexivity;
      exfalso;
      [ rewrite (Hall 1 0) in Hexit | rewrite (Hall 2 1) in Hexit
      | rewrite (Hall 4 2) in Hexit | rewrite (Hall 8 3) in Hexit
      | rewrite (Hall 16 4) in Hexit | rewrite (Hall 32 5) in Hexit ];
      try (simpl; tauto); specialize (Hexit ltac:(lia)); discriminate Hexit.
  - apply (Hall 64 6). simpl. tauto.
  - assert (Hk : In (64, 6) divider_exponents) by (simpl; tauto).
    rewrite FloatAxioms.ltb_spec, (vco_of_exact rf m e 64 6 Hrf Hm Hk) by lia.
    change (Prim2SF Test.VCO_MAX) with (S754_finite false 6815744000000000 (-19)).
    destruct (SFltb _ _) eqn:E; [|reflexivity].
    apply SFltb_finite in E. lia.
Qed.

Lemma gt_not_leb (x y : float) : (y <? x)%float = true -> (x <=? y)%float = false.
Proof.
  intros H. destruct (x <=? y)%float eqn:E; [|reflexivity].
  rewrite (leb_not_gt x y E) in H. discriminate H.
Qed.

(** X4: for every target above 13 GHz, plus infinity included, the planner
    takes the divider 1, the VCO frequency is out of the band, and the run
    prints the range error line and nothing else. *)
Theorem target_above_band_is_reported
    (cfg : Test.UserSettings) (rf : float) (b b' : board) (p : Test.PllParams)
    (t : list event)
    (Hplan : Test.planFrequency cfg rf b = Some (p, b', t))
    (Habove : (13e9 <? rf)%float = true) :
  Test.out_div p = 1
  /\ in_band (vco_of rf (Test.out_div p)) = false
  /\ t = [SerialPrintln Test.range_error_message].
Proof.
  destruct (planFrequency_inv _ _ _ _ _ _ Hplan)
    as (div & m0 & INT0 & FRAC0 & Hdiv & _ & _ & Hp & _ & Ht).
  destruct (divider_above_band rf Habove) as [Hone Hhigh].
  rewrite Hone in Hdiv. injection Hdiv as <-.
  subst p. cbn [Test.out_div].
  split; [reflexivity|]. split.
  - unfold in_band. rewrite (gt_not_leb _ _ Hhigh). apply andb_false_r.
  - rewrite Ht. unfold range_report. rewrite Hhigh. reflexivity.
Qed.

Lemma target_above_band_is_reported_witness :
  1 = 1
  /\ in_band (vco_of 20e9 1) = false
  /\ [SerialPrintln Test.range_error_message]
     = [SerialPrintln Test.range_error_message].
Proof.
  apply (target_above_band_is_reported Test.user_settings 20e9%float
           idle_board idle_board
           {| Test.pfd_hz := 10e6; Test.INT := 2000; Test.FRAC := 0;
              Test.MOD := 1; Test.out_div := 1; Test.rfouta_en := false;
              Test.rfoutb_en := true; Test.pwr := Test.PWR_MAX |}
           [SerialPrintln Test.range_error_message]).
  - vm_compute. reflexivity.
  - reflexivity.
Defined.

(** X5: for every target from 93.75 MHz to 13 GHz a run of the planner
    prints nothing. *)
Theorem target_in_band_is_silent
    (cfg : Test.UserSettings) (rf : float) (b b' : board) (p : Test.PllParams)
    (t : list event)
    (Hplan : Test.planFrequency cfg rf b = Some (p, b', t))
    (Hlo : (93.75e6 <=? rf)%float = true) (Hhi : (rf <=? 13e9)%float = true) :
  t = [].
Proof.
  destruct (planFrequency_inv _ _ _ _ _ _ Hplan)
    as (div & m0 & INT0 & FRAC0 & Hdiv & _ & _ & _ & _ & Ht).
  destruct (choose_output_divider_least rf) as (d & Hd & Hin & Hbelow & Hexit).
  rewrite Hdiv in Hd. injection Hd as <-.
  pose proof (chosen_divider_in_band rf div Hlo Hhi Hin Hbelow Hexit) as Hband.
  unfold in_band in Hband. apply andb_prop in Hband as [_ Hmax].
  rewrite Ht. unfold range_report. rewrite (leb_not_gt _ _ Hmax). reflexivity.
Qed.

Lemma target_in_band_is_silent_witness : @nil event = [].
Proof.
  apply (target_in_band_is_silent Test.user_settings 10.525e9%float
           idle_board idle_board
           {| Test.pfd_hz := 10e6; Test.INT := 1052; Test.FRAC := 1;
              Test.MOD := 2; Test.out_div := 1; Test.rfouta_en := false;
              Test.rfoutb_en := true; Test.pwr := Test.PWR_MAX |} []).
  - vm_compute. reflexivity.
  - reflexivity.
  - reflexivity.
Defined.

(** X6: for every target from 1 Hz to below 93.75 MHz the planner runs the
    divider up to 64, the VCO frequency is still below VCO_MIN, and the run
    prints nothing: the range test looks at the upper edge only. *)
Theorem target_below_band_is_silent
    (cfg : Test.UserSettings) (rf : float) (b b' : board) (p : Test.PllParams)
    (t : list event)
    (Hplan : Test.planFrequency cfg rf b = Some (p, b', t))
    (Hlo : (1 <=? rf)%float = true) (Hhi : (rf <? 93.75e6)%float = true) :
  Test.out_div p = 64
  /\ (vco_of rf (Test.out_div p) <? Test.VCO_MIN)%float = true
  /\ in_band (vco_of rf (Test.out_div p)) = false
  /\ t = [].
Proof.
  destruct (planFrequency_inv _ _ _ _ _ _ Hplan)
    as (div & m0 & INT0 & FRAC0 & Hdiv & _ & _ & Hp & _ & Ht).
  destruct (divider_below_band rf Hlo Hhi) as (H64 & Hbelow & Hnothigh).
  rewrite H64 in Hdiv. injection Hdiv as <-.
  subst p. cbn [Test.out_div].
  split; [reflexivity|]. split; [exact Hbelow|]. split.
  - unfold in_band. rewrite (gt_not_leb _ _ Hbelow). reflexivity.
  - rewrite Ht. unfold range_report. rewrite Hnothigh. reflexivity.
Qed.

Lemma target_below_band_is_silent_witness :
  64 = 64
  /\ (vco_of 1e6 64 <? Test.VCO_MIN)%float = true
  /\ in_band (vco_of 1e6 64) = false
  /\ @nil event = [].
Proof.
  apply (target_below_band_is_silent Test.user_settings 1e6%float
           idle_board idle_board
           {| Test.pfd_hz := 10e6; Test.INT := 6; Test.FRAC := 31; Test.MOD := 78;
              Test.out_div := 64; Test.rfouta_en := false; Test.rfoutb_en := true;
              Test.pwr := Test.PWR_MAX |} []).
  - vm_compute. reflexivity.
  - reflexivity.
  - reflexivity.
Defined.

(** ** What the chip receives *)

Lemma bus_traffic_writes bus le (ws : list Z) :
  bus_traffic bus (flat_map (fun w => register_write bus le w ++ settle) ws)
  = flat_map transaction ws.
Proof.
  induction ws as [|w ws IH]; [reflexivity|].
  cbn [flat_map]. rewrite !bus_traffic_app, bus_traffic_register_write, IH.
  cbn [settle bus_traffic app]. rewrite <- app_assoc. reflexivity.
Qed.

Lemma frames_transactions (ws : list Z) :
  frames (flat_map transaction ws) [] = map big_endian ws.
Proof.
  induction ws as [|w ws IH]; [reflexivity|].
  cbn [flat_map map]. rewrite <- IH. reflexivity.
Qed.

Lemma from_big_endian_words (ws : list Z) :
  Forall word32 ws -> map from_big_endian (map big_endian ws) = ws.
Proof.
  induction 1 as [|w ws Hw _ IH]; [reflexivity|].
  cbn [map]. rewrite from_big_endian_inv by exact Hw. rewrite IH. reflexivity.
Qed.

(** X7: a receiver that groups the bytes of each transaction and reads them
    most significant first recovers the register image: from [writeAllRegs]
    the words from index 12 down to 0, from [programPLL] the array in its
    order. *)
Theorem receiver_recovers_image
    (regImage : list Z) (b : board) (spi : spi_bus) (le : Z) (name : string)
    (Hlen : length regImage = 13%nat) (Hwords : Forall word32 regImage) :
  received_words HSPI (events (Test.writeAllRegs regImage) b) = rev regImage
  /\ received_words spi (events (Sketch.programPLL_image regImage spi le name) b)
     = regImage.
Proof.
  unfold received_words, events.
  rewrite (Test_writeAllRegs_run regImage b Hlen).
  rewrite (Sketch_programPLL_image_run regImage spi le name b Hlen).
  fold (programPLL_events regImage spi le name).
  rewrite bus_traffic_writes, bus_traffic_programPLL_events, !frames_transactions.
  split; apply from_big_endian_words; [|exact Hwords].
  apply Forall_rev. exact Hwords.
Qed.

Lemma receiver_recovers_image_witness :
  received_words HSPI (events (Test.writeAllRegs Test.regImage_base) idle_board)
  = rev Test.regImage_base
  /\ received_words SPI1
       (events (Sketch.programPLL_image Test.regImage_base SPI1 Sketch.B_LE "ADF-B")
          idle_board)
     = Test.regImage_base.
Proof.
  apply receiver_recovers_image.
  - reflexivity.
  - unfold Test.regImage_base, word32. repeat constructor; lia.
Defined.

(** ** The register image and the settings *)

Lemma withAddr_twice w r r' :
  Test.withAddr (Test.withAddr w r) r' = Test.withAddr w r'.
Proof.
  apply Z.bits_inj'. intros i Hi.
  rewrite !testbit_withAddr by exact Hi.
  destruct (Z.ltb_spec i 4), (Z.leb_spec 4 i); try lia;
    rewrite ?andb_false_r, ?andb_true_r, ?orb_false_r; simpl; try reflexivity.
  destruct (Z.testbit w i), (i <? 32); reflexivity.
Qed.

Lemma patched_idempotent (regImage : list Z) : patched (patched regImage) = patched regImage.
Proof.
  unfold patched. apply list_eq. intros i.
  rewrite !list_lookup_imap. destruct (regImage !! i) as [w|]; [|reflexivity].
  cbn. f_equal. apply withAddr_twice.
Qed.

Lemma bus_traffic_range_report bus rf div : bus_traffic bus (range_report rf div) = [].
Proof. unfold range_report. destruct (PrimFloat.ltb _ _); reflexivity. Qed.

Lemma bus_traffic_configure bus cfg p rf div regImage :
  bus_traffic bus (configure_events cfg p (range_report rf div) regImage)
  = bus_traffic bus
      (flat_map (fun w => register_write HSPI Test.PIN_LE w ++ settle)
                (rev (patched regImage))).
Proof.
  unfold configure_events. rewrite !bus_traffic_app, bus_traffic_range_report.
  cbn [bus_traffic frequency_line app]. apply app_nil_r.
Qed.

(** X8: what [configureFromUserSettings] puts on the bus does not depend on
    the settings or on the planned parameters: for any two settings on which
    the planner returns, the same 13 transactions go out, those of the image
    with its addresses patched; the planned INT, FRAC, MOD and divider reach
    the serial console only.  The image it leaves is a fixed point: a second
    configuration writes the same words. *)
Theorem bus_traffic_ignores_settings
    (cfg1 cfg2 : Test.UserSettings) (regImage : list Z) (b1 b1' b2 b2' : board)
    (p1 p2 : Test.PllParams) (t1 t2 : list event)
    (Hlen : length regImage = 13%nat)
    (Hplan1 : Test.planFrequency cfg1 (Test.RF_OUT_HZ cfg1) b1 = Some (p1, b1', t1))
    (Hplan2 : Test.planFrequency cfg2 (Test.RF_OUT_HZ cfg2) b2 = Some (p2, b2', t2)) :
  bus_traffic HSPI (events (Test.configureFromUserSettings cfg1 regImage) b1)
  = flat_map transaction (rev (patched regImage))
  /\ bus_traffic HSPI (events (Test.configureFromUserSettings cfg2 regImage) b2)
     = bus_traffic HSPI (events (Test.configureFromUserSettings cfg1 regImage) b1)
  /\ (exists b'' t, Test.configureFromUserSettings cfg1 regImage b1
                    = Some (patched regImage, b'', t))
  /\ bus_traffic HSPI
       (events (Test.configureFromUserSettings cfg2 (patched regImage)) b2)
     = bus_traffic HSPI (events (Test.configureFromUserSettings cfg1 regImage) b1).
Proof.
  destruct (planFrequency_inv _ _ _ _ _ _ Hplan1)
    as (d1 & _ & _ & _ & _ & _ & _ & _ & -> & Ht1).
  destruct (planFrequency_inv _ _ _ _ _ _ Hplan2)
    as (d2 & _ & _ & _ & _ & _ & _ & _ & -> & Ht2).
  assert (Hlen' : length (patched regImage) = 13%nat).
  { unfold patched. rewrite length_imap. exact Hlen. }
  unfold events.
  rewrite (configureFromUserSettings_run cfg1 regImage b1 p1 t1 Hlen Hplan1).
  rewrite (configureFromUserSettings_run cfg2 regImage b2 p2 t2 Hlen Hplan2).
  rewrite (configureFromUserSettings_run cfg2 (patched regImage) b2 p2 t2 Hlen' Hplan2).
  fold (configure_events cfg1 p1 t1 regImage).
  fold (configure_events cfg2 p2 t2 regImage).
  fold (configure_events cfg2 p2 t2 (patched regImage)).
  subst t1 t2. rewrite !bus_traffic_configure, patched_idempotent, bus_traffic_writes.
  split; [reflexivity|]. split; [reflexivity|].
  split; [do 2 eexists; reflexivity|reflexivity].
Qed.

Lemma bus_traffic_ignores_settings_witness :
  bus_traffic HSPI
    (events (Test.configureFromUserSettings (settings_for 10.525e9 1000)
               Test.regImage_base) idle_board)
  = flat_map transaction (rev (patched Test.regImage_base))
  /\ bus_traffic HSPI
       (events (Test.configureFromUserSettings (settings_for 2.4e9 1000)
                  Test.regImage_base) idle_board)
     = bus_traffic HSPI
         (events (Test.configureFromUserSettings (settings_for 10.525e9 1000)
                    Test.regImage_base) idle_board)
  /\ (exists b'' t,
        Test.configureFromUserSettings (settings_for 10.525e9 1000)
          Test.regImage_base idle_board
        = Some (patched Test.regImage_base, b'', t))
  /\ bus_traffic HSPI
       (events (Test.configureFromUserSettings (settings_for 2.4e9 1000)
                  (patched Test.regImage_base)) idle_board)
     = bus_traffic HSPI
         (events (Test.configureFromUserSettings (settings_for 10.525e9 1000)
                    Test.regImage_base) idle_board).
Proof.
  apply (bus_traffic_ignores_settings (settings_for 10.525e9 1000)
           (settings_for 2.4e9 1000) Test.regImage_base
           idle_board idle_board idle_board idle_board
           {| Test.pfd_hz := 10e6; Test.INT := 1052; Test.FRAC := 1;
              Test.MOD := 2; Test.out_div := 1; Test.rfouta_en := false;
              Test.rfoutb_en := true; Test.pwr := Test.PWR_MAX |}
           {| Test.pfd_hz := 10e6; Test.INT := 960; Test.FRAC := 0;
              Test.MOD := 1; Test.out_div := 4; Test.rfouta_en := false;
              Test.rfoutb_en := true; Test.pwr := Test.PWR_MAX |} [] []).
  - reflexivity.
  - vm_compute. reflexivity.
  - vm_compute. reflexivity.
Defined.

(** ** Pin levels along a run *)

Lemma level_after_app pin cur t1 t2 :
  level_after pin cur (t1 ++ t2) = level_after pin (level_after pin cur t1) t2.
Proof. apply fold_left_app. Qed.

Lemma snapshots_app pin sel cur t1 t2 :
  snapshots pin sel cur (t1 ++ t2)
  = snapshots pin sel cur t1 ++ snapshots pin sel (level_after pin cur t1) t2.
Proof.
  revert cur. induction t1 as [|e t1 IH]; intros cur; [reflexivity|].
  cbn [app snapshots]. rewrite IH. destruct (sel e); reflexivity.
Qed.

Lemma register_write_at pin bus le w cur :
  pin <> le ->
  snapshots pin is_transfer cur (register_write bus le w ++ settle)
  = map (fun x => (SpiTransfer bus x, cur)) (big_endian w)
  /\ level_after pin cur (register_write bus le w ++ settle) = cur.
Proof.
  intros Hne. unfold register_write, big_endian, latch_pulse, settle, level_after.
  cbn [app map snapshots is_transfer level_step fold_left].
  destruct (Z.eqb_spec le pin) as [E|_]; [congruence|]. split; reflexivity.
Qed.

Lemma writes_at pin bus le ws cur :
  pin <> le ->
  snapshots pin is_transfer cur
    (flat_map (fun w => register_write bus le w ++ settle) ws)
  = bytes_at bus cur ws
  /\ level_after pin cur
       (flat_map (fun w => register_write bus le w ++ settle) ws) = cur.
Proof.
  intros Hne. induction ws as [|w ws [IH1 IH2]]; [split; reflexivity|].
  destruct (register_write_at pin bus le w cur Hne) as [H1 H2].
  cbn [flat_map]. rewrite snapshots_app, H1, H2, level_after_app, H2, IH1, IH2.
  split; [|reflexivity].
  unfold bytes_at. cbn [map concat]. rewrite map_app. reflexivity.
Qed.

Lemma planFrequency_any_board cfg rf b p b' t b2 :
  Test.planFrequency cfg rf b = Some (p, b', t) ->
  Test.planFrequency cfg rf b2 = Some (p, b2, t).
Proof.
  unfold Test.planFrequency.
  cbv [mbind M_bind mret M_ret defined undefined Serial_println emit].
  destruct (Test.choose_output_divider rf) as [div|]; [|discriminate].
  destruct (Test.raw_MOD cfg div) as [m0|];
    [|destruct (PrimFloat.ltb Test.VCO_MAX _); discriminate].
  destruct (Test.compute_INT_FRAC _ (Test.clamp_MOD m0)) as [[INT0 FRAC0]|];
    [|destruct (PrimFloat.ltb Test.VCO_MAX _); discriminate].
  destruct (Test.rounding_overflow INT0 FRAC0 (Test.clamp_MOD m0)) as [INT1 FRAC1].
  destruct (Test.reduce_FRAC_MOD FRAC1 (Test.clamp_MOD m0)) as [FRAC2 m2].
  destruct (PrimFloat.ltb Test.VCO_MAX _); intros H; injection H as <- _ <-; reflexivity.
Qed.

(** [Test.setup], once the planner has returned. *)
Lemma Test_setup_run cfg regImage b b0 b0' p t1 :
  length regImage = 13%nat ->
  Test.planFrequency cfg (Test.RF_OUT_HZ cfg) b0 = Some (p, b0', t1) ->
  Test.setup cfg regImage b
  = Some (patched regImage, Test_setup_board b,
          Test_setup_events cfg p t1 regImage (inputs b Test.PIN_LD)).
Proof.
  intros Hlen Hplan.
  set (b1 := set_mode Test.PIN_LD INPUT
               (set_level Test.PIN_CE LOW (set_level Test.PIN_LE LOW
                  (set_mode Test.PIN_CE OUTPUT (set_mode Test.PIN_LE OUTPUT b))))).
  pose proof (configureFromUserSettings_run cfg regImage b1 p t1 Hlen
                (planFrequency_any_board _ _ _ _ _ _ b1 Hplan)) as Hconf.
  unfold Test.setup.
  rewrite (bind_run _ _ b tt b [SerialBegin 115200] eq_refl).
  rewrite (bind_run _ _ b tt b [Delay 500] eq_refl).
  rewrite (bind_run _ _ b tt _ [PinMode Test.PIN_LE OUTPUT] eq_refl).
  rewrite (bind_run _ _ _ tt _ [PinMode Test.PIN_CE OUTPUT] eq_refl).
  rewrite (bind_run _ _ _ tt _ [DigitalWrite Test.PIN_LE LOW] eq_refl).
  rewrite (bind_run _ _ _ tt _ [DigitalWrite Test.PIN_CE LOW] eq_refl).
  rewrite (bind_run _ _ _ tt b1 [PinMode Test.PIN_LD INPUT] eq_refl).
  rewrite (bind_run _ _ b1 tt b1 [SpiBegin HSPI [Test.PIN_SCLK; -1; Test.PIN_MOSI; -1]]
             eq_refl).
  rewrite (bind_run _ _ b1 tt b1
             [SerialPrintln "ADF5355 configurable synth (top-of-file settings)"]
             eq_refl).
  rewrite (bind_run _ _ _ _ _ _ Hconf).
  rewrite (bind_run _ _ _ tt _ [DigitalWrite Test.PIN_CE HIGH] eq_refl).
  set (b2 := set_level Test.PIN_CE HIGH (pulses 13 Test.PIN_LE b1)).
  rewrite (bind_run _ _ b2 tt b2
             [ Delay 200; DigitalRead Test.PIN_LD (inputs b Test.PIN_LD);
               SerialPrintf "Lock detect: %d\n" [ArgInt (Z.b2z (inputs b Test.PIN_LD))] ]
             eq_refl).
  cbv [mret M_ret]. unfold Test_setup_events, configure_events.
  rewrite !app_nil_r. reflexivity.
Qed.

Lemma range_report_leaves pin rf div cur :
  snapshots pin is_transfer cur (range_report rf div) = []
  /\ level_after pin cur (range_report rf div) = cur.
Proof. unfold range_report. destruct (PrimFloat.ltb _ _); split; reflexivity. Qed.

Lemma configure_events_at cfg p rf div regImage cur :
  snapshots Test.PIN_CE is_transfer cur
    (configure_events cfg p (range_report rf div) regImage)
  = bytes_at HSPI cur (rev (patched regImage))
  /\ level_after Test.PIN_CE cur
       (configure_events cfg p (range_report rf div) regImage) = cur.
Proof.
  unfold configure_events.
  destruct (range_report_leaves Test.PIN_CE rf div cur) as [R1 R2].
  destruct (writes_at Test.PIN_CE HSPI Test.PIN_LE (rev (patched regImage)) cur
              ltac:(discriminate)) as [W1 W2].
  split.
  - rewrite snapshots_app, R1, R2.
    change (snapshots Test.PIN_CE is_transfer cur
              (flat_map (fun w => register_write HSPI Test.PIN_LE w ++ settle)
                 (rev (patched regImage)) ++ [SerialPrintln "Done."])
            = bytes_at HSPI cur (rev (patched regImage))).
    rewrite snapshots_app, W1. apply app_nil_r.
  - rewrite level_after_app, R2.
    change (level_after Test.PIN_CE cur
              (flat_map (fun w => register_write HSPI Test.PIN_LE w ++ settle)
                 (rev (patched regImage)) ++ [SerialPrintln "Done."]) = cur).
    rewrite level_after_app, W2. reflexivity.
Qed.

Lemma configure_events_enable cfg p rf div regImage next :
  followed_by (DigitalWrite Test.PIN_CE HIGH) next
    (configure_events cfg p (range_report rf div) regImage).
Proof.
  unfold configure_events, range_report.
  repeat apply followed_by_app.
  - destruct (PrimFloat.ltb _ _); followed_by_steps.
  - unfold frequency_line. followed_by_steps.
  - apply followed_by_flat_map. intros w.
    unfold register_write, latch_pulse, settle, big_endian. cbn [app map].
    followed_by_steps.
  - followed_by_steps.
Qed.

(** X9: [Test.setup] programs the chip while it is disabled.  Once the
    planner has returned, [setup] returns the patched image; every byte of
    it, from the word at index 12 down to the word at index 0, is clocked
    out while CE is low; CE goes high after the last register write and the
    latch line is low again; directly after enabling the chip the sketch
    waits 200 ms and reads the lock-detect pin, which it has made an
    input, and prints the level it read. *)
Theorem chip_is_programmed_while_disabled
    (cfg : Test.UserSettings) (regImage : list Z) (b b0 b0' : board)
    (p : Test.PllParams) (t1 : list event)
    (Hlen : length regImage = 13%nat)
    (Hplan : Test.planFrequency cfg (Test.RF_OUT_HZ cfg) b0 = Some (p, b0', t1)) :
  exists b' t,
    Test.setup cfg regImage b = Some (patched regImage, b', t)
    /\ snapshots Test.PIN_CE is_transfer (level Test.PIN_CE b) t
       = bytes_at HSPI (Some LOW) (rev (patched regImage))
    /\ level_after Test.PIN_CE (level Test.PIN_CE b) t = Some HIGH
    /\ level Test.PIN_CE b' = Some HIGH
    /\ level Test.PIN_LE b' = Some LOW
    /\ modes b' !! Test.PIN_LD = Some INPUT
    /\ followed_by (DigitalWrite Test.PIN_CE HIGH)
         [ Delay 200; DigitalRead Test.PIN_LD (inputs b Test.PIN_LD);
           SerialPrintf "Lock detect: %d\n" [ArgInt (Z.b2z (inputs b Test.PIN_LD))] ] t.
Proof.
  exists (Test_setup_board b),
         (Test_setup_events cfg p t1 regImage (inputs b Test.PIN_LD)).
  split; [exact (Test_setup_run cfg regImage b b0 b0' p t1 Hlen Hplan)|].
  destruct (planFrequency_inv _ _ _ _ _ _ Hplan)
    as (div & _ & _ & _ & _ & _ & _ & _ & _ & ->).
  set (cur := level Test.PIN_CE b). set (ld := inputs b Test.PIN_LD).
  unfold Test_setup_events.
  set (pre := [ SerialBegin 115200; Delay 500;
                PinMode Test.PIN_LE OUTPUT; PinMode Test.PIN_CE OUTPUT;
                DigitalWrite Test.PIN_LE LOW; DigitalWrite Test.PIN_CE LOW;
                PinMode Test.PIN_LD INPUT;
                SpiBegin HSPI [Test.PIN_SCLK; -1; Test.PIN_MOSI; -1];
                SerialPrintln "ADF5355 configurable synth (top-of-file settings)" ]).
  set (mid := configure_events cfg p (range_report (Test.RF_OUT_HZ cfg) div) regImage).
  set (suf := [ DigitalWrite Test.PIN_CE HIGH; Delay 200; DigitalRead Test.PIN_LD ld;
                SerialPrintf "Lock detect: %d\n" [ArgInt (Z.b2z ld)] ]).
  assert (Hpre : level_after Test.PIN_CE cur pre = Some LOW) by reflexivity.
  destruct (configure_events_at cfg p (Test.RF_OUT_HZ cfg) div regImage (Some LOW))
    as [M1 M2]. fold mid in M1, M2.
  assert (Hmid : level_after Test.PIN_CE cur (pre ++ mid) = Some LOW).
  { rewrite level_after_app, Hpre. exact M2. }
  split; [|split; [|split; [|split; [|split]]]].
  - rewrite app_assoc, snapshots_app, Hmid, snapshots_app, Hpre, M1.
    change (snapshots Test.PIN_CE is_transfer cur pre) with (@nil (event * option bool)).
    change (snapshots Test.PIN_CE is_transfer (Some LOW) suf)
      with (@nil (event * option bool)).
    rewrite app_nil_r. reflexivity.
  - rewrite app_assoc, level_after_app, Hmid. reflexivity.
  - unfold Test_setup_board, level, set_level. cbn [levels]. apply lookup_insert_eq.
  - unfold Test_setup_board. rewrite level_set_level_ne by discriminate.
    apply level_pulses. discriminate.
  - unfold Test_setup_board, set_level. cbn [modes].
    assert (Hm : forall n x, modes (pulses n Test.PIN_LE x) = modes x).
    { intros n x. induction n as [|n IH]; [reflexivity|]. exact IH. }
    rewrite Hm. cbn [modes set_mode]. apply lookup_insert_eq.
  - apply followed_by_app; [subst pre; followed_by_steps|].
    apply followed_by_app; [apply configure_events_enable|].
    subst suf. followed_by_steps.
Qed.

Lemma chip_is_programmed_while_disabled_witness :
  exists b' t,
    Test.setup Test.user_settings Test.regImage_base idle_board
    = Some (patched Test.regImage_base, b', t)
    /\ snapshots Test.PIN_CE is_transfer (level Test.PIN_CE idle_board) t
       = bytes_at HSPI (Some LOW) (rev (patched Test.regImage_base))
    /\ level_after Test.PIN_CE (level Test.PIN_CE idle_board) t = Some HIGH
    /\ level Test.PIN_CE b' = Some HIGH
    /\ level Test.PIN_LE b' = Some LOW
    /\ modes b' !! Test.PIN_LD = Some INPUT
    /\ followed_by (DigitalWrite Test.PIN_CE HIGH)
         [ Delay 200; DigitalRead Test.PIN_LD (inputs idle_board Test.PIN_LD);
           SerialPrintf "Lock detect: %d\n"
             [ArgInt (Z.b2z (inputs idle_board Test.PIN_LD))] ] t.
Proof.
  apply (chip_is_programmed_while_disabled Test.user_settings Test.regImage_base
           idle_board idle_board idle_board
           {| Test.pfd_hz := 10e6; Test.INT := 1052; Test.FRAC := 1;
              Test.MOD := 2; Test.out_div := 1; Test.rfouta_en := false;
              Test.rfoutb_en := true; Test.pwr := Test.PWR_MAX |} []).
  - reflexivity.
  - vm_compute. reflexivity.
Defined.

(** ** The dual-board sketch: chip enables and the bus *)

(** X10: [Sketch.setup] programs both chips while they are disabled.  On
    every board it returns; each byte goes out while the chip enable of
    either board is low; the 52 bytes for board A on SPI0 all precede the
    52 bytes for board B on SPI1; and it leaves both chip enables and both
    latch lines low. *)
Theorem both_chips_programmed_while_disabled (b : board) :
  exists b' t,
    Sketch.setup b = Some (tt, b', t)
    /\ snapshots Sketch.A_CE is_transfer (level Sketch.A_CE b) t
       = bytes_at SPI0 (Some LOW) Sketch.regs ++ bytes_at SPI1 (Some LOW) Sketch.regs
    /\ snapshots Sketch.B_CE is_transfer (level Sketch.B_CE b) t
       = bytes_at SPI0 (Some LOW) Sketch.regs ++ bytes_at SPI1 (Some LOW) Sketch.regs
    /\ level Sketch.A_CE b' = Some LOW /\ level Sketch.B_CE b' = Some LOW
    /\ level Sketch.A_LE b' = Some LOW /\ level Sketch.B_LE b' = Some LOW.
Proof.
  exists (Sketch_setup_board b), Sketch_setup_events.
  split; [apply Sketch_setup_run|].
  split; [generalize (level Sketch.A_CE b); intros cur; vm_compute; reflexivity|].
  split; [generalize (level Sketch.B_CE b); intros cur; vm_compute; reflexivity|].
  unfold Sketch_setup_board.
  split; [|split; [|split]].
  - rewrite !level_pulses_ne by discriminate.
    rewrite !level_set_level_ne by discriminate.
    unfold level, set_level. cbn [levels]. apply lookup_insert_eq.
  - rewrite !level_pulses_ne by discriminate.
    unfold level, set_level. cbn [levels]. apply lookup_insert_eq.
  - rewrite level_pulses_ne by discriminate. apply level_pulses. discriminate.
  - apply level_pulses. discriminate.
Qed.

Lemma snapshots_passes pin sel cur (pass : list event) (seen : list (event * option bool))
    (v : option bool) (n : nat) :
  (forall c, snapshots pin sel c pass = seen) ->
  (forall c, level_after pin c pass = v) ->
  snapshots pin sel cur (concat (replicate n pass)) = concat (replicate n seen).
Proof.
  intros Hseen Hv. revert cur. induction n as [|n IH]; intros cur; [reflexivity|].
  cbn [replicate concat]. rewrite snapshots_app, Hseen, Hv, IH. reflexivity.
Qed.

Lemma bus_traffic_passes bus (pass : list event) (n : nat) :
  bus_traffic bus pass = [] -> bus_traffic bus (concat (replicate n pass)) = [].
Proof.
  intros Hpass. induction n as [|n IH]; [reflexivity|].
  cbn [replicate concat]. rewrite bus_traffic_app, Hpass, IH. reflexivity.
Qed.

Lemma Sketch_loop_board_latches n b :
  level Sketch.A_LE (Nat.iter n Sketch_loop_board b) = level Sketch.A_LE b
  /\ level Sketch.B_LE (Nat.iter n Sketch_loop_board b) = level Sketch.B_LE b.
Proof.
  induction n as [|n [IHA IHB]]; [split; reflexivity|].
  change (Nat.iter (S n) Sketch_loop_board b)
    with (Sketch_loop_board (Nat.iter n Sketch_loop_board b)).
  split; unfold Sketch_loop_board at 1;
    rewrite !level_set_level_ne by discriminate; assumption.
Qed.

Lemma Sketch_run_run n b :
  Sketch.run n b
  = Some (tt, Nat.iter n Sketch_loop_board (Sketch_setup_board b),
          Sketch_setup_events ++ concat (replicate n Sketch_loop_events)).
Proof.
  unfold Sketch.run.
  rewrite (bind_run _ _ _ _ _ _ (Sketch_setup_run b)), Sketch_loops_run.
  reflexivity.
Qed.

(** X11: the loop of the dual-board sketch keys both chips in step.  For
    every number of passes [loop] returns; at the two waits of each pass,
    of 3000 ms each, the chip enables of board A and of board B are both
    high and then both low, whatever their level before; the loop puts
    nothing on any bus and leaves both latch lines as they were, so the
    bus traffic of a whole run is that of [setup], and after [setup] and any
    number of passes the latch lines are low. *)
Theorem both_chips_keyed_in_step
    (n : nat) (b : board) (curA curB : option bool) (bus : spi_bus) :
  exists b' t,
    Sketch.loops n b = Some (tt, b', t)
    /\ snapshots Sketch.A_CE is_delay curA t = concat (replicate n (on_off 3000))
    /\ snapshots Sketch.B_CE is_delay curB t = concat (replicate n (on_off 3000))
    /\ bus_traffic bus t = []
    /\ level Sketch.A_LE b' = level Sketch.A_LE b
    /\ level Sketch.B_LE b' = level Sketch.B_LE b
    /\ bus_traffic bus (events (Sketch.run n) b)
       = bus_traffic bus (events Sketch.setup b)
    /\ exists b'' t', Sketch.run n b = Some (tt, b'', t')
       /\ level Sketch.A_LE b'' = Some LOW /\ level Sketch.B_LE b'' = Some LOW.
Proof.
  exists (Nat.iter n Sketch_loop_board b), (concat (replicate n Sketch_loop_events)).
  split; [apply Sketch_loops_run|].
  split; [apply (snapshots_passes _ _ _ _ _ (Some LOW)); intros c; reflexivity|].
  split; [apply (snapshots_passes _ _ _ _ _ (Some LOW)); intros c; reflexivity|].
  assert (Hbus : bus_traffic bus (concat (replicate n Sketch_loop_events)) = []).
  { apply bus_traffic_passes. reflexivity. }
  split; [exact Hbus|].
  split; [apply Sketch_loop_board_latches|].
  split; [apply Sketch_loop_board_latches|].
  split.
  - unfold events. rewrite Sketch_run_run, Sketch_setup_run, bus_traffic_app, Hbus.
    apply app_nil_r.
  - do 2 eexists. split; [apply Sketch_run_run|].
    destruct (Sketch_loop_board_latches n (Sketch_setup_board b)) as [-> ->].
    apply Sketch_setup_latches_low.
Qed.

(** ** The loop of the single-board sketch *)

Lemma Test_loop_run cfg b :
  Test.loop cfg b
  = Some (tt, Test_loop_board (Test.TOGGLE_CE_IN_LOOP cfg) b,
          Test_loop_events (Test.TOGGLE_CE_IN_LOOP cfg)).
Proof. unfold Test.loop. destruct (Test.TOGGLE_CE_IN_LOOP cfg); reflexivity. Qed.

Lemma Test_loops_run cfg n b :
  Test.loops cfg n b
  = Some (tt, Nat.iter n (Test_loop_board (Test.TOGGLE_CE_IN_LOOP cfg)) b,
          concat (replicate n (Test_loop_events (Test.TOGGLE_CE_IN_LOOP cfg)))).
Proof.
  revert b. induction n as [|n IH]; intros b; [reflexivity|].
  change (Test.loops cfg (S n)) with (Test.loop cfg;; Test.loops cfg n).
  rewrite (bind_run _ _ _ _ _ _ (Test_loop_run cfg b)), IH.
  rewrite <- Nat.iter_succ_r. reflexivity.
Qed.

Lemma Test_loop_board_latch toggle n b :
  level Test.PIN_LE (Nat.iter n (Test_loop_board toggle) b) = level Test.PIN_LE b.
Proof.
  induction n as [|n IH]; [reflexivity|].
  change (Nat.iter (S n) (Test_loop_board toggle) b)
    with (Test_loop_board toggle (Nat.iter n (Test_loop_board toggle) b)).
  unfold Test_loop_board at 1. destruct toggle; [|exact IH].
  rewrite !level_set_level_ne by discriminate. exact IH.
Qed.

Lemma Test_loop_board_idle n b : Nat.iter n (Test_loop_board false) b = b.
Proof. induction n as [|n IH]; [reflexivity|]. exact IH. Qed.

Lemma Test_loop_waits n :
  concat (replicate n (Test_loop_events false)) = replicate n (Delay 1000).
Proof.
  induction n as [|n IH]; [reflexivity|].
  cbn [replicate concat]. rewrite IH. reflexivity.
Qed.

(** X12: [Test.loop], for either value of the switch TOGGLE_CE_IN_LOOP.  Any
    number of passes returns, puts nothing on any bus and leaves the latch
    line as it was.  With the switch off a pass is a wait of 1000 ms and
    nothing else: the board is left as it was.  With the switch on the chip
    enable is high during the first wait of 2000 ms of each pass and low
    during the second, whatever its level before. *)
Theorem loop_only_keys_chip_enable
    (cfg : Test.UserSettings) (n : nat) (b : board) (cur : option bool)
    (bus : spi_bus) :
  exists b' t,
    Test.loops cfg n b = Some (tt, b', t)
    /\ bus_traffic bus t = []
    /\ level Test.PIN_LE b' = level Test.PIN_LE b
    /\ if Test.TOGGLE_CE_IN_LOOP cfg
       then snapshots Test.PIN_CE is_delay cur t = concat (replicate n (on_off 2000))
       else b' = b /\ t = replicate n (Delay 1000).
Proof.
  do 2 eexists. split; [apply Test_loops_run|].
  split; [apply bus_traffic_passes; destruct (Test.TOGGLE_CE_IN_LOOP cfg); reflexivity|].
  split; [apply Test_loop_board_latch|].
  destruct (Test.TOGGLE_CE_IN_LOOP cfg).
  - apply (snapshots_passes _ _ _ _ _ (Some LOW)); intros c; reflexivity.
  - split; [apply Test_loop_board_idle|apply Test_loop_waits].
Qed.

Lemma Test_setup_board_levels b :
  level Test.PIN_CE (Test_setup_board b) = Some HIGH
  /\ level Test.PIN_LE (Test_setup_board b) = Some LOW.
Proof.
  unfold Test_setup_board. split.
  - unfold level, set_level. cbn [levels]. apply lookup_insert_eq.
  - rewrite level_set_level_ne by discriminate. apply level_pulses. discriminate.
Qed.

(** X13: a whole run of the single-board sketch with the switch
    TOGGLE_CE_IN_LOOP off, as the file has it.  Once the planner has
    returned, [setup] followed by any number of passes of [loop] returns the
    patched image and leaves the chip enabled and the latch line low; the bus
    has carried the 13 transactions of the patched image, index 12 first,
    and nothing else; and all that follows the lock-detect line is waits of
    1000 ms. *)
Theorem run_leaves_chip_enabled
    (cfg : Test.UserSettings) (regImage : list Z) (n : nat) (b b0 b0' : board)
    (p : Test.PllParams) (t1 : list event)
    (Hlen : length regImage = 13%nat)
    (Hplan : Test.planFrequency cfg (Test.RF_OUT_HZ cfg) b0 = Some (p, b0', t1))
    (Hoff : Test.TOGGLE_CE_IN_LOOP cfg = false) :
  exists b' t,
    Test.run cfg regImage n b = Some (patched regImage, b', t)
    /\ level Test.PIN_CE b' = Some HIGH
    /\ level Test.PIN_LE b' = Some LOW
    /\ bus_traffic HSPI t = flat_map transaction (rev (patched regImage))
    /\ t = events (Test.setup cfg regImage) b ++ replicate n (Delay 1000).
Proof.
  pose proof (Test_setup_run cfg regImage b b0 b0' p t1 Hlen Hplan) as Hsetup.
  pose proof (Test_loops_run cfg n (Test_setup_board b)) as Hloops.
  rewrite Hoff, Test_loop_board_idle in Hloops.
  rewrite Test_loop_waits in Hloops.
  exists (Test_setup_board b),
         (Test_setup_events cfg p t1 regImage (inputs b Test.PIN_LD)
          ++ replicate n (Delay 1000)).
  split.
  { unfold Test.run. rewrite (bind_run _ _ _ _ _ _ Hsetup).
    rewrite (bind_run _ _ _ _ _ _ Hloops). cbv [mret M_ret].
    rewrite app_nil_r. reflexivity. }
  split; [apply Test_setup_board_levels|].
  split; [apply Test_setup_board_levels|].
  split.
  - destruct (planFrequency_inv _ _ _ _ _ _ Hplan)
      as (div & _ & _ & _ & _ & _ & _ & _ & _ & ->).
    rewrite bus_traffic_app. unfold Test_setup_events.
    rewrite !bus_traffic_app, bus_traffic_configure, bus_traffic_writes.
    cbn [bus_traffic app]. rewrite app_nil_r.
    replace (bus_traffic HSPI (replicate n (Delay 1000))) with (@nil bus_op);
      [apply app_nil_r|].
    clear. induction n as [|n IH]; [reflexivity|exact IH].
  - unfold events. rewrite Hsetup. reflexivity.
Qed.

Lemma run_leaves_chip_enabled_witness :
  exists b' t,
    Test.run Test.user_settings Test.regImage_base 3 idle_board
    = Some (patched Test.regImage_base, b', t)
    /\ level Test.PIN_CE b' = Some HIGH
    /\ level Test.PIN_LE b' = Some LOW
    /\ bus_traffic HSPI t = flat_map transaction (rev (patched Test.regImage_base))
    /\ t = events (Test.setup Test.user_settings Test.regImage_base) idle_board
           ++ replicate 3 (Delay 1000).
Proof.
  apply (run_leaves_chip_enabled Test.user_settings Test.regImage_base 3
           idle_board idle_board idle_board
           {| Test.pfd_hz := 10e6; Test.INT := 1052; Test.FRAC := 1;
              Test.MOD := 2; Test.out_div := 1; Test.rfouta_en := false;
              Test.rfoutb_en := true; Test.pwr := Test.PWR_MAX |} []).
  - reflexivity.
  - vm_compute. reflexivity.
  - reflexivity.
Defined.

(** ** Binary64 facts: rounding never crosses an integer *)

Lemma at_most_scaled m e M k :
  0 <= k -> 0 <= e + k ->
  at_most m e M <-> m * 2 ^ (e + k) <= M * 2 ^ k.
Proof.
  intros Hk Hek. unfold at_most.
  destruct (Z.le_ge_cases 0 e) as [He|He].
  - rewrite (Z.max_l e 0), (Z.max_r (- e) 0) by lia.
    rewrite Z.pow_0_r, Z.mul_1_r, Z.pow_add_r, Z.mul_assoc by lia.
    pose proof (Z.pow_pos_nonneg 2 k ltac:(lia) Hk) as Hp.
    split; intros H.
    + apply Z.mul_le_mono_nonneg_r; [lia|exact H].
    + apply Z.mul_le_mono_pos_r with (2 ^ k); assumption.
  - rewrite (Z.max_r e 0), (Z.max_l (- e) 0) by lia.
    rewrite Z.pow_0_r, Z.mul_1_r.
    replace k with (- e + (e + k)) at 2 by lia.
    rewrite (Z.pow_add_r 2 (- e) (e + k)), Z.mul_assoc by lia.
    pose proof (Z.pow_pos_nonneg 2 (e + k) ltac:(lia) Hek) as Hp.
    split; intros H.
    + apply Z.mul_le_mono_nonneg_r; [lia|exact H].
    + apply Z.mul_le_mono_pos_r with (2 ^ (e + k)); assumption.
Qed.

Lemma digits2_pos_bounds (m : positive) :
  2 ^ (Zpos (digits2_pos m) - 1) <= Zpos m < 2 ^ Zpos (digits2_pos m).
Proof.
  induction m as [m IH|m IH|]; cbn [digits2_pos].
  - rewrite Pos2Z.inj_succ.
    replace (Z.succ (Zpos (digits2_pos m)) - 1) with (Z.succ (Zpos (digits2_pos m) - 1)) by lia.
    rewrite !Z.pow_succ_r by lia. lia.
  - rewrite Pos2Z.inj_succ.
    replace (Z.succ (Zpos (digits2_pos m)) - 1) with (Z.succ (Zpos (digits2_pos m) - 1)) by lia.
    rewrite !Z.pow_succ_r by lia. lia.
  - simpl. lia.
Qed.

Lemma shifted_1 r : shifted 1 r (shr_1 r).
Proof.
  destruct r as [m r s]. unfold shifted, inexact. cbn [shr_m shr_r shr_s].
  intros Hm. change (2 ^ 1) with 2.
  destruct m as [|p|p]; [| |lia].
  - cbn. split; [lia|]. split; [reflexivity|]. intros H _. exact H.
  - destruct p as [p|p|]; cbn [shr_1 shr_m shr_r shr_s].
    + split; [lia|]. split; [rewrite Pos2Z.inj_xI; apply Z.div_unique with 1; lia|].
      intros _ H. rewrite Pos2Z.inj_xI in H.
      rewrite Z.add_comm, Z.mul_comm, Z.mod_add in H by lia. discriminate H.
    + split; [lia|]. split; [rewrite Pos2Z.inj_xO; apply Z.div_unique with 0; lia|].
      intros H _. exact H.
    + split; [lia|]. split; [reflexivity|]. intros _ H. discriminate H.
Qed.

Lemma shifted_trans a b r1 r2 r3 :
  0 <= a -> 0 <= b -> shifted a r1 r2 -> shifted b r2 r3 -> shifted (a + b) r1 r3.
Proof.
  intros Ha Hb H12 H23 H1.
  destruct (H12 H1) as (H2 & E2 & X2). destruct (H23 H2) as (H3 & E3 & X3).
  pose proof (Z.pow_pos_nonneg 2 a ltac:(lia) Ha) as Hpa.
  pose proof (Z.pow_pos_nonneg 2 b ltac:(lia) Hb) as Hpb.
  split; [exact H3|]. split.
  - rewrite E3, E2, Z.pow_add_r, Z.div_div by lia. reflexivity.
  - intros Hin Hmod. rewrite Z.pow_add_r in Hmod by lia.
    apply Z.mod_divide in Hmod; [|lia]. destruct Hmod as [c Hc].
    apply X3.
    + apply X2; [exact Hin|]. rewrite Hc.
      replace (c * (2 ^ a * 2 ^ b)) with (c * 2 ^ b * 2 ^ a) by ring.
      apply Z.mod_mul. lia.
    + rewrite E2, Hc.
      replace (c * (2 ^ a * 2 ^ b)) with (c * 2 ^ b * 2 ^ a) by ring.
      rewrite Z.div_mul by lia. apply Z.mod_mul. lia.
Qed.

Lemma shifted_iter (n : positive) r : shifted (Zpos n) r (SpecFloat.iter_pos shr_1 n r).
Proof.
  revert r. induction n as [n IH|n IH|]; intros r; cbn [SpecFloat.iter_pos].
  - rewrite Pos2Z.inj_xI.
    replace (2 * Zpos n + 1) with (1 + Zpos n + Zpos n) by lia.
    apply shifted_trans with (SpecFloat.iter_pos shr_1 n (shr_1 r)); [lia|lia| |apply IH].
    apply shifted_trans with (shr_1 r); [lia|lia|apply shifted_1|apply IH].
  - rewrite Pos2Z.inj_xO.
    replace (2 * Zpos n) with (Zpos n + Zpos n) by lia.
    apply shifted_trans with (SpecFloat.iter_pos shr_1 n r); [lia|lia|apply IH|apply IH].
  - apply shifted_1.
Qed.

Lemma at_most_shift m e M k :
  0 <= m -> 0 <= k -> at_most m e M -> at_most (m / 2 ^ k) (e + k) M.
Proof.
  intros Hm Hk H.
  pose (K := Z.max (- e) 0).
  apply (at_most_scaled _ _ _ K) in H; [|lia|lia].
  apply (at_most_scaled _ _ _ K); [lia|lia|].
  replace (e + k + K) with (k + (e + K)) by lia.
  rewrite Z.pow_add_r, Z.mul_assoc by lia.
  pose proof (Z.pow_pos_nonneg 2 k ltac:(lia) Hk) as Hpk.
  pose proof (Z.pow_pos_nonneg 2 (e + K) ltac:(lia) ltac:(lia)) as HpK.
  pose proof (Z.mul_div_le m (2 ^ k) Hpk) as Hq.
  apply Z.le_trans with (m * 2 ^ (e + K)); [|exact H].
  apply Z.mul_le_mono_nonneg_r; [lia|]. lia.
Qed.

Lemma shr_at_most r e n M :
  0 <= shr_m r -> at_most (shr_m r) e M ->
  0 <= shr_m (fst (shr r e n)) /\ at_most (shr_m (fst (shr r e n))) (snd (shr r e n)) M.
Proof.
  intros Hm H. destruct n as [|p|p]; cbn [shr fst snd]; [split; assumption| |split; assumption].
  destruct (shifted_iter p r Hm) as (H0 & E & _).
  split; [exact H0|]. rewrite E. apply at_most_shift; [exact Hm|lia|exact H].
Qed.

Lemma round_nearest_even_cases q r :
  q <= round_nearest_even q (loc_of_shr_record r) <= q + 1
  /\ (inexact r = false -> round_nearest_even q (loc_of_shr_record r) = q).
Proof.
  destruct r as [m [|] [|]]; unfold inexact; cbn;
    try destruct (Z.even q); split; try lia; intros H; try discriminate H; reflexivity.
Qed.

Lemma at_most_mono m m' e M : m <= m' -> at_most m' e M -> at_most m e M.
Proof.
  unfold at_most. intros Hle H.
  apply Z.le_trans with (m' * 2 ^ Z.max e 0); [|exact H].
  apply Z.mul_le_mono_nonneg_r; [apply Z.pow_nonneg; lia|exact Hle].
Qed.

Lemma shr_record_of_loc_spec m l :
  shr_m (shr_record_of_loc m l) = m
  /\ loc_of_shr_record (shr_record_of_loc m l) = l
  /\ (inexact (shr_record_of_loc m l) = false <-> slack l = 0).
Proof.
  destruct l as [|[ | | ]]; cbn; repeat split; intros H; try reflexivity;
    discriminate H.
Qed.

(** The first shift of the rounding and the rounding itself stay at or below
    an integer that the value, with what its location may add, did not
    exceed. *)
Lemma rounded_at_most (mx : positive) (ex M : Z) (l : location) :
  0 <= M < 2 ^ 53 -> at_most (Zpos mx + slack l) ex M ->
  let s1 := shr_fexp prec emax (Zpos mx) ex l in
  let m2 := round_nearest_even (shr_m (fst s1)) (loc_of_shr_record (fst s1)) in
  0 <= m2 /\ at_most m2 (snd s1) M.
Proof.
  intros HM H. unfold shr_fexp. cbn [Zdigits2].
  pose proof (digits2_pos_bounds mx) as Hd.
  set (d := Zpos (digits2_pos mx)) in *.
  destruct (shr_record_of_loc_spec (Zpos mx) l) as (Em & El & Ex).
  set (r0 := shr_record_of_loc (Zpos mx) l) in *.
  assert (Hslack : 0 <= slack l <= 1) by (destruct l; cbn; lia).
  assert (Hplain : at_most (Zpos mx) ex M).
  { apply at_most_mono with (Zpos mx + slack l); [lia|exact H]. }
  destruct (round_nearest_even_cases (shr_m r0) r0) as [Hr0 Hx0].
  destruct (fexp prec emax (d + ex) - ex) as [|p|p] eqn:En; cbn [shr fst snd].
  1, 3: split; [lia|];
    destruct (Z.eq_dec (slack l) 0) as [E0|E0];
    [ rewrite (Hx0 (proj2 Ex E0)), Em; exact Hplain
    | apply at_most_mono with (Zpos mx + slack l); [lia|exact H] ].
  destruct (shifted_iter p r0 ltac:(lia)) as (H0 & E & X).
  set (r1 := SpecFloat.iter_pos shr_1 p r0) in *.
  rewrite Em in E, X.
  destruct (round_nearest_even_cases (shr_m r1) r1) as [Hr Hx].
  set (m2 := round_nearest_even (shr_m r1) (loc_of_shr_record r1)) in *.
  split; [lia|].
  assert (He1 : ex + Zpos p = fexp prec emax (d + ex)) by lia.
  pose (K := Z.max (- ex) 0).
  assert (He1' : ex + Zpos p <= 0).
  { rewrite He1. unfold fexp, emin, prec, emax.
    apply Z.max_lub; [|lia].
    apply (at_most_scaled _ _ _ K) in Hplain; [|lia|lia].
    assert (Hlt : 2 ^ (d - 1 + (ex + K)) < 2 ^ (53 + K)).
    { rewrite (Z.pow_add_r 2 (d - 1) (ex + K)), (Z.pow_add_r 2 53 K) by lia.
      pose proof (Z.pow_pos_nonneg 2 (ex + K) ltac:(lia) ltac:(lia)).
      pose proof (Z.pow_pos_nonneg 2 K ltac:(lia) ltac:(lia)).
      apply Z.le_lt_trans with (M * 2 ^ K).
      - apply Z.le_trans with (Zpos mx * 2 ^ (ex + K)); [|exact Hplain].
        apply Z.mul_le_mono_nonneg_r; lia.
      - apply Z.mul_lt_mono_pos_r; lia. }
    apply Z.pow_lt_mono_r_iff in Hlt; lia. }
  apply (at_most_scaled _ _ _ (- ex)) in H; [|lia|lia].
  replace (ex + - ex) with 0 in H by lia. rewrite Z.pow_0_r, Z.mul_1_r in H.
  apply (at_most_scaled _ _ _ (- (ex + Zpos p))); [lia|lia|].
  replace (ex + Zpos p + - (ex + Zpos p)) with 0 by lia. rewrite Z.pow_0_r, Z.mul_1_r.
  set (T := M * 2 ^ (- (ex + Zpos p))).
  assert (HT : Zpos mx + slack l <= T * 2 ^ Zpos p).
  { unfold T. rewrite <- Z.mul_assoc, <- Z.pow_add_r by lia.
    replace (- (ex + Zpos p) + Zpos p) with (- ex) by lia. exact H. }
  pose proof (Z.pow_pos_nonneg 2 (Zpos p) ltac:(lia) ltac:(lia)) as Hpp.
  pose proof (Z.mul_div_le (Zpos mx) (2 ^ Zpos p) Hpp) as Hq.
  pose proof (Z.mod_pos_bound (Zpos mx) (2 ^ Zpos p) Hpp) as Hrem.
  pose proof (Z.div_mod (Zpos mx) (2 ^ Zpos p) ltac:(lia)) as Hdm.
  rewrite <- E in Hq, Hdm.
  destruct (Z.lt_ge_cases (shr_m r1) T) as [Hlt|Hge]; [lia|].
  assert (Hmod : Zpos mx mod 2 ^ Zpos p = 0) by nia.
  assert (Hs0 : slack l = 0) by nia.
  rewrite (Hx (X (proj2 Ex Hs0) Hmod)). nia.
Qed.

(** Rounding to nearest even never carries a value over an integer it did
    not exceed. *)
Lemma binary_round_aux_at_most_loc (mx : positive) (ex M : Z) (l : location) :
  0 <= M < 2 ^ 53 -> at_most (Zpos mx + slack l) ex M ->
  SF_at_most (binary_round_aux prec emax false (Zpos mx) ex l) M.
Proof.
  intros HM H. unfold binary_round_aux.
  destruct (rounded_at_most mx ex M l HM H) as [Hm2 H2]. cbv zeta in Hm2, H2.
  destruct (shr_fexp prec emax (Zpos mx) ex l) as [r1 e1].
  cbn [fst snd] in Hm2, H2.
  set (m2 := round_nearest_even (shr_m r1) (loc_of_shr_record r1)) in *.
  unfold shr_fexp.
  destruct (shr_at_most (shr_record_of_loc m2 loc_Exact) e1
              (fexp prec emax (Zdigits2 m2 + e1) - e1) M Hm2 H2) as [H3 H4].
  destruct (shr (shr_record_of_loc m2 loc_Exact) e1
              (fexp prec emax (Zdigits2 m2 + e1) - e1)) as [r2 e2].
  cbn [fst snd] in H3, H4.
  destruct (shr_m r2) as [|m|m]; [exact I| |lia].
  destruct (Z.leb_spec e2 (emax - prec)) as [Hle|Hgt]; [exact H4|].
  unfold at_most, emax, prec in *. rewrite Z.max_l, Z.max_r, Z.pow_0_r in H4 by lia.
  pose proof (Z.pow_le_mono_r 2 53 e2 ltac:(lia) ltac:(lia)). nia.
Qed.

Lemma binary_round_aux_at_most (mx : positive) (ex M : Z) :
  0 <= M < 2 ^ 53 -> at_most (Zpos mx) ex M ->
  SF_at_most (binary_round_aux prec emax false (Zpos mx) ex loc_Exact) M.
Proof.
  intros HM H. apply binary_round_aux_at_most_loc; [exact HM|].
  cbn [slack]. rewrite Z.add_0_r. exact H.
Qed.

(** ** Binary64 facts: integers convert exactly *)

Lemma digits2_pos_unique (m : positive) (d : Z) :
  2 ^ (d - 1) <= Zpos m < 2 ^ d -> Zpos (digits2_pos m) = d.
Proof.
  intros [Hlo Hhi]. pose proof (digits2_pos_bounds m) as [Hlo' Hhi'].
  assert (Hd : 0 < d).
  { destruct (Z.lt_ge_cases 0 d) as [Hd|Hd]; [exact Hd|].
    destruct (Z.eq_dec d 0) as [->|Hne]; [simpl in Hhi; lia|].
    rewrite (Z.pow_neg_r 2 d) in Hhi by lia. lia. }
  assert (H1 : 2 ^ (d - 1) < 2 ^ Zpos (digits2_pos m)) by lia.
  assert (H2 : 2 ^ (Zpos (digits2_pos m) - 1) < 2 ^ d) by lia.
  apply Z.pow_lt_mono_r_iff in H1; [|lia|lia].
  apply Z.pow_lt_mono_r_iff in H2; [|lia|lia].
  lia.
Qed.

Lemma iter_xO_value (m d : positive) : Zpos (Pos.iter xO m d) = Zpos m * 2 ^ Zpos d.
Proof.
  rewrite (Pos.iter_swap_gen _ _ Zpos xO (Z.mul 2)) by reflexivity.
  rewrite <- Z.shiftl_mul_pow2 by lia. reflexivity.
Qed.

(** A mantissa that is in canonical position and in range rounds to itself. *)
Lemma binary_round_aux_canonical s (m : positive) (e : Z) :
  bounded prec emax m e = true ->
  binary_round_aux prec emax s (Zpos m) e loc_Exact = S754_finite s m e.
Proof.
  unfold bounded, canonical_mantissa. intros [Hc He]%andb_true_iff.
  apply Z.eqb_eq in Hc.
  unfold binary_round_aux, shr_fexp. cbn [shr_record_of_loc Zdigits2].
  rewrite Hc, Z.sub_diag. cbn [shr shr_m loc_of_shr_record round_nearest_even Zdigits2].
  rewrite Hc, Z.sub_diag. cbn [shr shr_m]. rewrite He. reflexivity.
Qed.

(** [(double)k] is [k] for an integer of at most 53 bits. *)
Lemma of_int_exact (k : Z) :
  0 < k < 2 ^ 53 ->
  exists m e,
    Prim2SF (Double.of_int k) = S754_finite false m e
    /\ -52 <= e <= 0 /\ Zpos m = k * 2 ^ (- e)
    /\ Zpos (digits2_pos m) = 53.
Proof.
  intros Hk. unfold Double.of_int.
  rewrite FloatAxioms.of_uint63_spec, Uint63.of_Z_spec.
  rewrite Z.mod_small by (change Uint63.wB with (2 ^ 63); lia).
  destruct k as [|p|p]; [lia| |lia].
  cbn [binary_normalize]. unfold binary_round.
  pose proof (digits2_pos_bounds p) as Hd.
  set (d := Zpos (digits2_pos p)) in *.
  assert (Hd53 : 1 <= d <= 53).
  { split; [unfold d; lia|].
    destruct (Z.le_gt_cases d 53) as [Hle|Hgt]; [exact Hle|].
    pose proof (Z.pow_le_mono_r 2 53 (d - 1) ltac:(lia) ltac:(lia)). lia. }
  rewrite Z.add_0_r.
  assert (Hf : fexp prec emax d = d - 53) by (unfold fexp, emin, prec, emax; lia).
  rewrite Hf. unfold shl_align. rewrite Z.sub_0_r.
  destruct (d - 53) as [|q|q] eqn:Eq; [|lia|].
  - rewrite binary_round_aux_canonical.
    + exists p, 0. split; [reflexivity|]. split; [lia|].
      split; [simpl; lia|fold d; lia].
    + unfold bounded, canonical_mantissa. fold d.
      rewrite Z.add_0_r, Hf. reflexivity.
  - assert (Hv : Zpos (Pos.iter xO p q) = Zpos p * 2 ^ Zpos q) by apply iter_xO_value.
    assert (Hdig : Zpos (digits2_pos (Pos.iter xO p q)) = 53).
    { apply digits2_pos_unique. rewrite Hv.
      pose proof (Z.pow_pos_nonneg 2 (Zpos q) ltac:(lia) ltac:(lia)).
      split.
      - replace (53 - 1) with (d - 1 + Zpos q) by lia.
        rewrite Z.pow_add_r by lia. apply Z.mul_le_mono_nonneg_r; lia.
      - replace 53 with (d + Zpos q) by lia.
        rewrite Z.pow_add_r by lia. apply Z.mul_lt_mono_pos_r; lia. }
    rewrite binary_round_aux_canonical.
    + exists (Pos.iter xO p q), (Zneg q). split; [reflexivity|]. split; [lia|].
      split; [rewrite Hv; reflexivity|exact Hdig].
    + unfold bounded, canonical_mantissa. rewrite Hdig.
      unfold fexp, emin, prec, emax.
      apply andb_true_iff. split; [apply Z.eqb_eq|apply Z.leb_le]; lia.
Qed.

Lemma shl_align_at_most (p : positive) (e e' M : Z) :
  at_most (Zpos p) e M ->
  at_most (Zpos (fst (shl_align p e e'))) (snd (shl_align p e e')) M.
Proof.
  intros H. unfold shl_align.
  destruct (e' - e) as [|d|d] eqn:Ed; cbn [fst snd]; [exact H|exact H|].
  rewrite iter_xO_value.
  pose (K := Z.max (- e') 0).
  apply (at_most_scaled _ _ _ K) in H; [|lia|lia].
  apply (at_most_scaled _ _ _ K); [lia|lia|].
  rewrite <- Z.mul_assoc, <- Z.pow_add_r by lia.
  replace (Zpos d + (e' + K)) with (e + K) by lia. exact H.
Qed.

Lemma binary_round_at_most (p : positive) (e M : Z) :
  0 <= M < 2 ^ 53 -> at_most (Zpos p) e M ->
  SF_at_most (binary_round prec emax false p e) M.
Proof.
  intros HM H. unfold binary_round.
  pose proof (shl_align_at_most p e (fexp prec emax (Zpos (digits2_pos p) + e)) M H) as H'.
  destruct (shl_align p e (fexp prec emax (Zpos (digits2_pos p) + e))) as [mz ez].
  cbn [fst snd] in H'. apply binary_round_aux_at_most; assumption.
Qed.

Lemma shl_align_value (mx : positive) (ex ez : Z) :
  ez <= ex -> Zpos (fst (shl_align mx ex ez)) = Zpos mx * 2 ^ (ex - ez).
Proof.
  intros Hle. unfold shl_align.
  destruct (ez - ex) as [|d|d] eqn:Ed; cbn [fst]; [|lia|].
  - replace (ex - ez) with 0 by lia. lia.
  - rewrite iter_xO_value. f_equal. f_equal. lia.
Qed.

Lemma trunc_mag_div (m : positive) (e : Z) :
  e <= 0 -> Double.trunc_mag m e = Zpos m / 2 ^ (- e).
Proof. intros He. unfold Double.trunc_mag. apply Z.shiftl_div_pow2. exact He. Qed.

(** Converting an integer to a double and back gives the integer, when it
    is a [uint32_t]. *)
Lemma to_uint32_of_int (k : Z) :
  0 <= k < 2 ^ 53 ->
  Double.to_uint32 (Double.of_int k) = if k <? 2 ^ 32 then Some k else None.
Proof.
  intros Hk. destruct (Z.eq_dec k 0) as [->|Hne]; [reflexivity|].
  destruct (of_int_exact k ltac:(lia)) as (m & e & Hsf & He & Hm & _).
  unfold Double.to_uint32. rewrite Hsf, trunc_mag_div by lia.
  rewrite Hm, Z.div_mul by (apply Z.pow_nonzero; lia).
  replace (0 <=? k) with true by (symmetry; apply Z.leb_le; lia).
  reflexivity.
Qed.

(** ** The integer part and the fraction of N *)

(** The mantissa of a double has at most 53 bits. *)
Lemma normal_or_subnormal N s m e :
  Prim2SF N = S754_finite s m e -> Zpos (digits2_pos m) <= 53.
Proof.
  intros HN. pose proof (Prim2SF_valid N) as Hv. rewrite HN in Hv.
  unfold valid_binary, bounded, canonical_mantissa in Hv.
  apply andb_prop in Hv as [Hc _]. apply Z.eqb_eq in Hc.
  unfold fexp, emin, prec, emax in Hc. lia.
Qed.

(** [(uint32_t)floor(N)] is defined only for a zero, where it is 0, and for
    a positive double with a fractional part or below 2^32, where it is the
    integer part of [m * 2^e]. *)
Lemma floor_to_uint32 (N : float) (INT0 : Z) :
  Double.to_uint32 (Double.floor N) = Some INT0 ->
  (exists s, Prim2SF N = S754_zero s /\ INT0 = 0)
  \/ (exists m e, Prim2SF N = S754_finite false m e /\ e < 0
                  /\ INT0 = Zpos m / 2 ^ (- e) /\ INT0 < 2 ^ 32).
Proof.
  unfold Double.floor.
  destruct (Prim2SF N) as [s|s| |s m e] eqn:HN.
  - unfold Double.to_uint32. rewrite HN. intros [= <-]. left. exists s. split; reflexivity.
  - unfold Double.to_uint32. rewrite HN. discriminate.
  - unfold Double.to_uint32. rewrite HN. discriminate.
  - pose proof (digits2_pos_bounds m) as Hd.
    destruct (Z.leb_spec 0 e) as [He|He].
    + unfold Double.to_uint32. rewrite HN.
      pose proof (normal_mantissa N s m e HN ltac:(lia)) as H53. rewrite H53 in Hd.
      unfold Double.trunc_mag. rewrite Z.shiftl_mul_pow2 by lia.
      pose proof (Z.pow_pos_nonneg 2 e ltac:(lia) He) as Hp.
      assert (Hbig : 2 ^ 32 <= Zpos m * 2 ^ e).
      { change (53 - 1) with 52 in Hd.
        pose proof (Z.pow_le_mono_r 2 32 52 ltac:(lia) ltac:(lia)). nia. }
      destruct s.
      * replace (0 <=? - (Zpos m * 2 ^ e)) with false by (symmetry; apply Z.leb_gt; lia).
        discriminate.
      * replace (Zpos m * 2 ^ e <? 2 ^ 32) with false by (symmetry; apply Z.ltb_ge; lia).
        rewrite andb_false_r. discriminate.
    + rewrite trunc_mag_div by lia.
      pose proof (Z.pow_pos_nonneg 2 (- e) ltac:(lia) ltac:(lia)) as Hp.
      set (q := Zpos m / 2 ^ (- e)).
      assert (Hq0 : 0 <= q) by (apply Z.div_pos; lia).
      assert (Hq : q < 2 ^ 52).
      { apply Z.div_lt_upper_bound; [lia|].
        pose proof (normal_or_subnormal N s m e HN) as Hdig.
        pose proof (Z.pow_le_mono_r 2 (Zpos (digits2_pos m)) 53 ltac:(lia) Hdig).
        pose proof (Z.pow_le_mono_r 2 1 (- e) ltac:(lia) ltac:(lia)).
        change (2 ^ 1) with 2 in *. change (2 ^ 53) with (2 * 2 ^ 52) in *. nia. }
      destruct s.
      * set (k := if Z.shiftl q (- e) =? Zpos m then q else q + 1).
        assert (Hk : 1 <= k < 2 ^ 53).
        { unfold k. change (2 ^ 53) with (2 * 2 ^ 52).
          destruct (Z.eqb_spec (Z.shiftl q (- e)) (Zpos m)) as [E|E]; [|lia].
          rewrite Z.shiftl_mul_pow2 in E by lia. nia. }
        destruct (of_int_exact k ltac:(lia)) as (mk & ek & Hsf & Hek & Hmk & _).
        unfold Double.to_uint32. rewrite FloatAxioms.opp_spec, Hsf. cbn [SFopp negb].
        rewrite trunc_mag_div by lia.
        rewrite Hmk, Z.div_mul by (apply Z.pow_nonzero; lia).
        replace (0 <=? - k) with false by (symmetry; apply Z.leb_gt; lia).
        discriminate.
      * rewrite to_uint32_of_int by (change (2 ^ 53) with (2 * 2 ^ 52); lia).
        destruct (Z.ltb_spec q (2 ^ 32)) as [Hlt|Hge]; [|discriminate].
        intros [= <-]. right. exists m, e. repeat split; [lia|exact Hlt].
Qed.

(** The fractional part [N - (double)INT] is a zero or a positive double of
    at most 1. *)
Lemma fraction_at_most_1 (N : float) (INT0 : Z) :
  Double.to_uint32 (Double.floor N) = Some INT0 ->
  SF_at_most (Prim2SF (N - Double.of_int INT0)) 1.
Proof.
  intros H. rewrite FloatAxioms.sub_spec.
  destruct (floor_to_uint32 N INT0 H) as [(s & HN & ->)|(m & e & HN & He & HI & H32)].
  - rewrite HN. change (Prim2SF (Double.of_int 0)) with (S754_zero false).
    destruct s; exact I.
  - rewrite HN.
    pose proof (Z.pow_pos_nonneg 2 (- e) ltac:(lia) ltac:(lia)) as Hp.
    pose proof (Z.div_mod (Zpos m) (2 ^ (- e)) ltac:(lia)) as Hdm.
    pose proof (Z.mod_pos_bound (Zpos m) (2 ^ (- e)) Hp) as Hr.
    rewrite <- HI in Hdm.
    assert (HI0 : 0 <= INT0) by (rewrite HI; apply Z.div_pos; lia).
    destruct (Z.eq_dec INT0 0) as [E0|Hne].
    + rewrite E0. change (Prim2SF (Double.of_int 0)) with (S754_zero false).
      cbn. apply (at_most_scaled _ _ _ (- e)); [lia|lia|].
      replace (e + - e) with 0 by lia. rewrite Z.pow_0_r. lia.
    + destruct (of_int_exact INT0 ltac:(change (2 ^ 53) with (2 ^ 32 * 2 ^ 21); lia))
        as (mq & eq & Hsf & Heq & Hmq & _).
      rewrite Hsf. unfold SF64sub, SFsub. cbn [cond_Zopp].
      set (ez := Z.min e eq).
      rewrite !shl_align_value by lia. rewrite Hmq.
      pose proof (Z.pow_pos_nonneg 2 (e - ez) ltac:(lia) ltac:(lia)) as Hpe.
      assert (HD : Zpos m * 2 ^ (e - ez) - INT0 * 2 ^ (- eq) * 2 ^ (eq - ez)
                   = (Zpos m mod 2 ^ (- e)) * 2 ^ (e - ez)).
      { rewrite <- Z.mul_assoc, <- Z.pow_add_r by lia.
        replace (- eq + (eq - ez)) with (- e + (e - ez)) by lia.
        rewrite Z.pow_add_r by lia. rewrite Hdm at 1. ring. }
      rewrite HD.
      destruct (Zpos m mod 2 ^ (- e) * 2 ^ (e - ez)) as [|p|p] eqn:Ep; [exact I| |nia].
      cbn [binary_normalize]. apply binary_round_at_most; [lia|].
      apply (at_most_scaled _ _ _ (- ez)); [lia|lia|].
      replace (ez + - ez) with 0 by lia. rewrite Z.pow_0_r, Z.mul_1_r, Z.mul_1_l.
      rewrite <- Ep. replace (- ez) with (- e + (e - ez)) by lia.
      rewrite Z.pow_add_r by lia. apply Z.mul_le_mono_nonneg_r; lia.
Qed.

(** [llround] of a double that is at most the integer [M] is at most [M]. *)
Lemma llround_at_most (y : float) (M v : Z) :
  0 <= M -> SF_at_most (Prim2SF y) M -> Double.llround y = Some v -> 0 <= v <= M.
Proof.
  intros HM H. unfold Double.llround.
  destruct (Prim2SF y) as [s|s| |s m e]; try contradiction.
  - intros [= <-]. lia.
  - destruct s; [contradiction|]. cbn [SF_at_most] in H.
    destruct (Z.leb_spec 0 e) as [He|He].
    + unfold at_most in H. rewrite Z.max_l, Z.max_r, Z.pow_0_r, Z.mul_1_r in H by lia.
      rewrite Z.shiftl_mul_pow2 by lia.
      pose proof (Z.pow_pos_nonneg 2 e ltac:(lia) He).
      destruct (_ && _); [|discriminate]. intros [= <-]. nia.
    + apply (at_most_scaled _ _ _ (- e)) in H; [|lia|lia].
      replace (e + - e) with 0 in H by lia. rewrite Z.pow_0_r, Z.mul_1_r in H.
      rewrite Z.shiftr_div_pow2, Z.shiftl_mul_pow2, Z.mul_1_l by lia.
      pose proof (Z.pow_pos_nonneg 2 (- e) ltac:(lia) ltac:(lia)) as Hp.
      pose proof (Z.pow_pos_nonneg 2 (- e - 1) ltac:(lia) ltac:(lia)) as Hp1.
      assert (Hhalf : 2 ^ (- e) = 2 * 2 ^ (- e - 1)).
      { rewrite <- Z.pow_succ_r by lia. f_equal. lia. }
      destruct (_ && _); [|discriminate]. intros [= <-]. split.
      * apply Z.div_pos; lia.
      * apply Z.lt_succ_r. apply Z.div_lt_upper_bound; [lia|]. nia.
Qed.

(** A double of at most 1, times the modulus, is at most the modulus. *)
Lemma product_at_most (x : float) (m : Z) :
  0 < m < 2 ^ 32 ->
  SF_at_most (Prim2SF x) 1 ->
  SF_at_most (Prim2SF (x * Double.of_int m)) m.
Proof.
  intros Hm Hfrac.
  assert (Hm53 : 0 < m < 2 ^ 53) by (change (2 ^ 53) with (2 ^ 32 * 2 ^ 21); lia).
  rewrite FloatAxioms.mul_spec.
  destruct (of_int_exact m Hm53) as (mM & eM & Hsf & HeM & HmM & _).
  rewrite Hsf.
  destruct (Prim2SF x) as [s|s| |s mf ef]; try contradiction.
  - exact I.
  - destruct s; [contradiction|]. cbn [SF_at_most] in Hfrac.
    unfold SF64mul, SFmul. cbn [xorb].
    apply binary_round_aux_at_most; [lia|].
    pose (K1 := Z.max (- ef) 0).
    apply (at_most_scaled _ _ _ K1) in Hfrac; [|lia|lia].
    apply (at_most_scaled _ _ _ (K1 + - eM)); [lia|lia|].
    replace (ef + eM + (K1 + - eM)) with (ef + K1) by lia.
    rewrite Pos2Z.inj_mul, HmM, (Z.pow_add_r 2 K1 (- eM)) by lia.
    pose proof (Z.pow_pos_nonneg 2 (- eM) ltac:(lia) ltac:(lia)).
    pose proof (Z.pow_pos_nonneg 2 K1 ltac:(lia) ltac:(lia)).
    pose proof (Z.pow_pos_nonneg 2 (ef + K1) ltac:(lia) ltac:(lia)).
    rewrite Z.mul_1_l in Hfrac.
    replace (Zpos mf * (m * 2 ^ (- eM)) * 2 ^ (ef + K1))
      with (Zpos mf * 2 ^ (ef + K1) * (m * 2 ^ (- eM))) by ring.
    replace (m * (2 ^ K1 * 2 ^ (- eM))) with (2 ^ K1 * (m * 2 ^ (- eM))) by ring.
    apply Z.mul_le_mono_nonneg_r; [nia|exact Hfrac].
Qed.

(** The fraction that [compute_INT_FRAC] returns does not exceed the
    modulus. *)
Lemma compute_INT_FRAC_at_most (N : float) (m INT0 FRAC0 : Z) :
  0 < m < 2 ^ 32 ->
  Test.compute_INT_FRAC N m = Some (INT0, FRAC0) ->
  0 <= INT0 < 2 ^ 32 /\ 0 <= FRAC0 <= m.
Proof.
  intros Hm H.
  destruct (compute_INT_FRAC_inv _ _ _ _ H) as (Hfloor & v & Hv & ->).
  split; [exact (to_uint32_range _ _ Hfloor)|].
  pose proof (product_at_most _ m Hm (fraction_at_most_1 N INT0 Hfloor)) as Hprod.
  pose proof (llround_at_most _ m v ltac:(lia) Hprod Hv) as Hvm.
  unfold uint32. rewrite Z.mod_small by lia. exact Hvm.
Qed.

(** X14: the planner returns a proper fraction.  Whenever [planFrequency]
    returns, for any settings and any target, 0 <= FRAC < MOD: the double
    arithmetic of [N - (double)INT] and of the product with the modulus, the
    two roundings, the overflow branch and the reduction never leave a
    fraction of one or more; and MOD = 1 exactly when FRAC = 0. *)
Theorem planned_fraction_is_proper
    (cfg : Test.UserSettings) (rf : float) (b b' : board) (p : Test.PllParams)
    (t : list event)
    (Hplan : Test.planFrequency cfg rf b = Some (p, b', t)) :
  0 <= Test.FRAC p < Test.MOD p
  /\ (Test.MOD p = 1 <-> Test.FRAC p = 0).
Proof.
  destruct (planned_fraction _ _ _ _ _ _ Hplan) as (HF0 & HM1 & _ & Hzero).
  destruct (planFrequency_inv _ _ _ _ _ _ Hplan)
    as (div & m0 & INT0 & FRAC0 & _ & _ & Hfrac & Hp & _ & _).
  pose proof (clamp_MOD_range m0) as Hm. unfold MOD_MAX in Hm.
  assert (Hm32 : 0 < Test.clamp_MOD m0 < 2 ^ 32) by lia.
  destruct (compute_INT_FRAC_at_most _ _ _ _ Hm32 Hfrac) as [_ HF].
  assert (Hlt : Test.FRAC p < Test.MOD p).
  { subst p. cbn [Test.FRAC Test.MOD].
    set (m := Test.clamp_MOD m0) in *.
    assert (H1 : 0 <= snd (Test.rounding_overflow INT0 FRAC0 m) < m).
    { unfold Test.rounding_overflow.
      destruct (Z.eqb_spec FRAC0 m); cbn [snd]; lia. }
    set (FRAC1 := snd (Test.rounding_overflow INT0 FRAC0 m)) in *.
    unfold Test.reduce_FRAC_MOD. rewrite gcd_u32_gcd by lia.
    destruct (Z.ltb_spec 1 (Z.gcd FRAC1 m)) as [Hg|Hg]; cbn [fst snd]; [|lia].
    destruct (Z.gcd_divide_l FRAC1 m) as [a Ha].
    destruct (Z.gcd_divide_r FRAC1 m) as [c Hc].
    set (g := Z.gcd FRAC1 m) in *.
    assert (Ea : FRAC1 / g = a) by (rewrite Ha at 1; apply Z.div_mul; lia).
    assert (Ec : m / g = c) by (rewrite Hc at 1; apply Z.div_mul; lia).
    rewrite Ea, Ec. nia. }
  split; [lia|]. split; [lia|exact Hzero].
Qed.

Lemma planned_fraction_is_proper_witness :
  0 <= 31 < 78 /\ (78 = 1 <-> 31 = 0).
Proof.
  apply (planned_fraction_is_proper Test.user_settings 1e6%float
           idle_board idle_board
           {| Test.pfd_hz := 10e6; Test.INT := 6; Test.FRAC := 31; Test.MOD := 78;
              Test.out_div := 64; Test.rfouta_en := false; Test.rfoutb_en := true;
              Test.pwr := Test.PWR_MAX |} []).
  vm_compute. reflexivity.
Defined.

(** The position of an integer with a 53-bit mantissa at exponent [e]. *)
Lemma aligned_integer (k : Z) (m : positive) (e : Z) :
  e <= 0 -> Zpos m = k * 2 ^ (- e) -> Zpos (digits2_pos m) = 53 ->
  2 ^ (52 + e) <= k < 2 ^ (53 + e).
Proof.
  intros He Hm Hd. pose proof (digits2_pos_bounds m) as Hb. rewrite Hd, Hm in Hb.
  change (53 - 1) with 52 in Hb.
  pose proof (Z.pow_pos_nonneg 2 (- e) ltac:(lia) ltac:(lia)) as Hp.
  destruct (Z.le_gt_cases 0 (52 + e)) as [H52|H52].
  - assert (E52 : 2 ^ 52 = 2 ^ (52 + e) * 2 ^ (- e)).
    { rewrite <- Z.pow_add_r by lia. f_equal. lia. }
    assert (E53 : 2 ^ 53 = 2 ^ (53 + e) * 2 ^ (- e)).
    { rewrite <- Z.pow_add_r by lia. f_equal. lia. }
    destruct Hb as [Hlo Hhi]. rewrite E52 in Hlo. rewrite E53 in Hhi.
    apply Z.mul_le_mono_pos_r in Hlo; [|exact Hp].
    apply Z.mul_lt_mono_pos_r in Hhi; [|exact Hp].
    split; assumption.
  - exfalso.
    assert (Hk : 0 < k) by nia.
    assert (H53 : 2 ^ 53 <= 2 ^ (- e)) by (apply Z.pow_le_mono_r; lia).
    nia.
Qed.

(** [(uint32_t)floor(N)], where it is defined, is the integer part of [N]:
    as doubles, [INT <= N < INT + 1]. *)
Lemma floor_brackets (N : float) (INT0 : Z) :
  Double.to_uint32 (Double.floor N) = Some INT0 ->
  (Double.of_int INT0 <=? N)%float = true
  /\ (N <? Double.of_int (INT0 + 1))%float = true.
Proof.
  intros H. rewrite FloatAxioms.leb_spec, FloatAxioms.ltb_spec.
  destruct (floor_to_uint32 N INT0 H) as [(s & HN & ->)|(m & e & HN & He & HI & H32)].
  - rewrite HN. split; reflexivity.
  - rewrite HN.
    pose proof (Z.pow_pos_nonneg 2 (- e) ltac:(lia) ltac:(lia)) as Hp.
    pose proof (Z.div_mod (Zpos m) (2 ^ (- e)) ltac:(lia)) as Hdm.
    pose proof (Z.mod_pos_bound (Zpos m) (2 ^ (- e)) Hp) as Hr.
    rewrite <- HI in Hdm.
    assert (HI0 : 0 <= INT0) by (rewrite HI; apply Z.div_pos; lia).
    pose proof (digits2_pos_bounds m) as Hb.
    assert (HI1 : 0 < INT0 + 1 < 2 ^ 53).
    { clear - HI0 H32. change (2 ^ 32) with 4294967296 in H32.
      change (2 ^ 53) with 9007199254740992. lia. }
    destruct (of_int_exact (INT0 + 1) HI1) as (m1 & e1 & Hsf1 & He1 & Hm1 & Hd1).
    pose proof (aligned_integer _ _ _ (proj2 He1) Hm1 Hd1) as Ha1.
    rewrite Hsf1.
    destruct (Z.eq_dec INT0 0) as [E0|Hne].
    + rewrite E0 in *. change (Prim2SF (Double.of_int 0)) with (S754_zero false).
      split; [reflexivity|]. apply SFltb_finite.
      assert (He10 : e1 = -52).
      { destruct Ha1 as [Hlo Hhi]. simpl in Hlo, Hhi.
        assert (H52 : 52 + e1 <= 0).
        { destruct (Z.le_gt_cases (52 + e1) 0) as [Hle|Hgt]; [exact Hle|].
          pose proof (Z.pow_le_mono_r 2 1 (52 + e1) ltac:(lia) ltac:(lia)).
          change (2 ^ 1) with 2 in *. lia. }
        lia. }
      subst e1. simpl in Hm1.
      destruct (Z.lt_ge_cases e (-52)) as [Hlt|Hge]; [left; exact Hlt|].
      exfalso.
      pose proof (normal_mantissa N false m e HN ltac:(lia)) as H53.
      rewrite H53 in Hb. change (53 - 1) with 52 in Hb.
      pose proof (Z.pow_le_mono_r 2 (- e) 52 ltac:(lia) ltac:(lia)). lia.
    + assert (HI2 : 0 < INT0 < 2 ^ 53) by (clear - HI1 HI0 Hne; lia).
      destruct (of_int_exact INT0 HI2) as (m0 & e0 & Hsf0 & He0 & Hm0 & Hd0).
      pose proof (aligned_integer _ _ _ (proj2 He0) Hm0 Hd0) as Ha0.
      rewrite Hsf0.
      assert (Hnorm : -52 <= e).
      { destruct (Z.le_gt_cases (-52) e) as [Hle|Hgt]; [exact Hle|].
        pose proof (normal_or_subnormal N false m e HN) as Hdig.
        pose proof (Z.pow_le_mono_r 2 (Zpos (digits2_pos m)) 53 ltac:(lia) Hdig).
        pose proof (Z.pow_le_mono_r 2 53 (- e) ltac:(lia) ltac:(lia)). nia. }
      pose proof (normal_mantissa N false m e HN ltac:(lia)) as H53.
      rewrite H53 in Hb. change (53 - 1) with 52 in Hb.
      assert (E52 : 2 ^ 52 = 2 ^ (52 + e) * 2 ^ (- e)).
      { rewrite <- Z.pow_add_r by lia. f_equal. lia. }
      assert (E53 : 2 ^ 53 = 2 ^ (53 + e) * 2 ^ (- e)).
      { rewrite <- Z.pow_add_r by lia. f_equal. lia. }
      assert (HIlo : 2 ^ (52 + e) <= INT0).
      { rewrite HI. apply Z.div_le_lower_bound; [lia|]. rewrite Z.mul_comm. lia. }
      assert (HIhi : INT0 < 2 ^ (53 + e)).
      { rewrite HI. apply Z.div_lt_upper_bound; [lia|]. rewrite Z.mul_comm. lia. }
      assert (Ee0 : e0 = e).
      { destruct Ha0 as [Hlo Hhi].
        assert (H1 : 2 ^ (52 + e0) < 2 ^ (53 + e)) by lia.
        assert (H2 : 2 ^ (52 + e) < 2 ^ (53 + e0)) by lia.
        apply Z.pow_lt_mono_r_iff in H1; [|lia|lia].
        apply Z.pow_lt_mono_r_iff in H2; [|lia|lia]. lia. }
      subst e0. split.
      * apply SFleb_finite. right. split; [reflexivity|]. rewrite Hm0. lia.
      * apply SFltb_finite.
        assert (Hge : e <= e1).
        { destruct Ha1 as [Hlo Hhi].
          assert (H2 : 2 ^ (52 + e) < 2 ^ (53 + e1)) by lia.
          apply Z.pow_lt_mono_r_iff in H2; [|lia|lia]. lia. }
        destruct (Z.eq_dec e e1) as [Eq|Hneq]; [|left; lia].
        right. split; [exact Eq|]. subst e1. rewrite Hm1. nia.
Qed.

(** X15: INT is the integer part of N and the fraction stays within the
    modulus.  For every double N and every modulus of 32 bits on which the
    conversions of the planner are defined, [(double)INT <= N < (double)(INT + 1)],
    INT is a [uint32_t], and the rounded fraction lies between 0 and the
    modulus; it reaches the modulus only where the overflow branch then
    resets it to 0 and steps INT, so that after the branch FRAC is below the
    modulus. *)
Theorem INT_is_integer_part_of_N
    (N : float) (m INT0 FRAC0 : Z)
    (Hm : 0 < m < 2 ^ 32)
    (H : Test.compute_INT_FRAC N m = Some (INT0, FRAC0)) :
  (Double.of_int INT0 <=? N)%float = true
  /\ (N <? Double.of_int (INT0 + 1))%float = true
  /\ 0 <= INT0 < 2 ^ 32
  /\ 0 <= FRAC0 <= m
  /\ 0 <= snd (Test.rounding_overflow INT0 FRAC0 m) < m
  /\ fst (Test.rounding_overflow INT0 FRAC0 m)
     = (if FRAC0 =? m then (INT0 + 1) mod 2 ^ 32 else INT0).
Proof.
  destruct (compute_INT_FRAC_inv _ _ _ _ H) as (Hfloor & _).
  destruct (floor_brackets N INT0 Hfloor) as [Hlo Hhi].
  destruct (compute_INT_FRAC_at_most N m INT0 FRAC0 Hm H) as [HI HF].
  split; [exact Hlo|]. split; [exact Hhi|]. split; [exact HI|]. split; [exact HF|].
  unfold Test.rounding_overflow, uint32.
  destruct (Z.eqb_spec FRAC0 m); cbn [fst snd]; split; lia || reflexivity.
Qed.

Lemma INT_is_integer_part_of_N_witness :
  (Double.of_int 1052 <=? 1052.5)%float = true
  /\ (1052.5 <? Double.of_int (1052 + 1))%float = true
  /\ 0 <= 1052 < 2 ^ 32
  /\ 0 <= 5000 <= 10000
  /\ 0 <= snd (Test.rounding_overflow 1052 5000 10000) < 10000
  /\ fst (Test.rounding_overflow 1052 5000 10000)
     = (if 5000 =? 10000 then (1052 + 1) mod 2 ^ 32 else 1052).
Proof.
  apply (INT_is_integer_part_of_N 1052.5%float 10000 1052 5000).
  - lia.
  - vm_compute. reflexivity.
Defined.

(** ** The planner returns *)

Lemma slack_new_location (m r : Z) :
  slack (new_location m r) = if r =? 0 then 0 else 1.
Proof.
  unfold new_location, new_location_even, new_location_odd.
  destruct (Z.even m), (r =? 0); reflexivity.
Qed.

(** The quotient of two positive normal doubles does not exceed an integer
    that their ratio does not exceed. *)
Lemma SFdiv_at_most (m1 m2 : positive) (e1 e2 M K : Z) :
  0 <= M < 2 ^ 53 ->
  Zpos (digits2_pos m1) = 53 -> Zpos (digits2_pos m2) = 53 ->
  -1074 <= e1 - e2 - 53 ->
  0 <= K -> 0 <= e1 + K -> 0 <= e2 + K ->
  Zpos m1 * 2 ^ (e1 + K) <= M * Zpos m2 * 2 ^ (e2 + K) ->
  SF_at_most (SFdiv prec emax (S754_finite false m1 e1) (S754_finite false m2 e2)) M.
Proof.
  intros HM Hd1 Hd2 Hemin HK HK1 HK2 H.
  unfold SFdiv, SFdiv_core_binary. cbn [Zdigits2 xorb]. rewrite Hd1, Hd2.
  replace (Z.min (fexp prec emax (53 + e1 - (53 + e2))) (e1 - e2)) with (e1 - e2 - 53)
    by (unfold fexp, emin, prec, emax; lia).
  replace (e1 - e2 - (e1 - e2 - 53)) with 53 by lia.
  rewrite Z.shiftl_mul_pow2 by lia.
  pose proof (Z_div_mod (Zpos m1 * 2 ^ 53) (Zpos m2) ltac:(lia)) as Hdm.
  destruct (Z.div_eucl (Zpos m1 * 2 ^ 53) (Zpos m2)) as [q r].
  destruct Hdm as [Hq Hr].
  pose proof (digits2_pos_bounds m1) as Hb1. rewrite Hd1 in Hb1.
  pose proof (digits2_pos_bounds m2) as Hb2. rewrite Hd2 in Hb2.
  change (53 - 1) with 52 in Hb1, Hb2.
  set (P := 2 ^ (e1 + K)) in *. set (Q := 2 ^ (e2 + K)) in *.
  assert (HP : 0 < P) by (apply Z.pow_pos_nonneg; lia).
  assert (HQ : 0 < Q) by (apply Z.pow_pos_nonneg; lia).
  assert (He' : e1 - e2 - 53 <= 0).
  { assert (Hlt : 2 ^ (52 + (e1 + K)) < 2 ^ (106 + (e2 + K))).
    { rewrite (Z.pow_add_r 2 52), (Z.pow_add_r 2 106) by lia. fold P Q.
      change (2 ^ 106) with (2 ^ 53 * 2 ^ 53).
      apply Z.le_lt_trans with (Zpos m1 * P); [apply Z.mul_le_mono_nonneg_r; lia|].
      apply Z.le_lt_trans with (M * Zpos m2 * Q); [exact H|].
      apply Z.mul_lt_mono_pos_r; [exact HQ|]. nia. }
    apply Z.pow_lt_mono_r_iff in Hlt; lia. }
  set (B := M * 2 ^ (- (e1 - e2 - 53))).
  assert (HBP : B * P = M * 2 ^ 53 * Q).
  { unfold B, P, Q. rewrite <- !Z.mul_assoc, <- !Z.pow_add_r by lia.
    f_equal. f_equal. lia. }
  assert (Hquot : Zpos m2 * q + r <= B * Zpos m2).
  { apply Z.mul_le_mono_pos_r with P; [exact HP|].
    rewrite <- Hq.
    replace (B * Zpos m2 * P) with (B * P * Zpos m2) by ring. rewrite HBP.
    replace (Zpos m1 * 2 ^ 53 * P) with (Zpos m1 * P * 2 ^ 53) by ring.
    replace (M * 2 ^ 53 * Q * Zpos m2) with (M * Zpos m2 * Q * 2 ^ 53) by ring.
    apply Z.mul_le_mono_nonneg_r; [lia|exact H]. }
  assert (Hq52 : 0 < q).
  { destruct (Z.lt_ge_cases 0 q) as [Hpos|Hneg]; [exact Hpos|].
    assert (Zpos m2 * q <= 0) by nia.
    assert (2 ^ 53 <= Zpos m1 * 2 ^ 53) by nia. lia. }
  destruct q as [|qp|qp]; [lia| |lia].
  apply binary_round_aux_at_most_loc; [exact HM|].
  apply (at_most_scaled _ _ _ (- (e1 - e2 - 53))); [lia|lia|].
  replace (e1 - e2 - 53 + - (e1 - e2 - 53)) with 0 by lia.
  rewrite Z.pow_0_r, Z.mul_1_r. fold B.
  rewrite slack_new_location.
  destruct (Z.eqb_spec r 0) as [Hr0|Hr0]; nia.
Qed.

Lemma llround_defined (y : float) (M : Z) :
  0 <= M < 2 ^ 53 -> SF_at_most (Prim2SF y) M ->
  exists v, Double.llround y = Some v /\ 0 <= v <= M.
Proof.
  intros HM H. unfold Double.llround.
  destruct (Prim2SF y) as [s|s| |s m e] eqn:Hy; try contradiction.
  - exists 0. split; [reflexivity|lia].
  - destruct s; [contradiction|]. cbn [SF_at_most] in H.
    set (a := if 0 <=? e then Z.shiftl (Zpos m) e
              else Z.shiftr (Zpos m + Z.shiftl 1 (- e - 1)) (- e)).
    assert (Ha : 0 <= a <= M).
    { unfold a. destruct (Z.leb_spec 0 e) as [He|He].
      - unfold at_most in H. rewrite Z.max_l, Z.max_r, Z.pow_0_r, Z.mul_1_r in H by lia.
        rewrite Z.shiftl_mul_pow2 by lia.
        pose proof (Z.pow_pos_nonneg 2 e ltac:(lia) He). nia.
      - apply (at_most_scaled _ _ _ (- e)) in H; [|lia|lia].
        replace (e + - e) with 0 in H by lia. rewrite Z.pow_0_r, Z.mul_1_r in H.
        rewrite Z.shiftr_div_pow2, Z.shiftl_mul_pow2, Z.mul_1_l by lia.
        pose proof (Z.pow_pos_nonneg 2 (- e) ltac:(lia) ltac:(lia)) as Hp.
        pose proof (Z.pow_pos_nonneg 2 (- e - 1) ltac:(lia) ltac:(lia)) as Hp1.
        assert (Hhalf : 2 ^ (- e) = 2 * 2 ^ (- e - 1)).
        { rewrite <- Z.pow_succ_r by lia. f_equal. lia. }
        split.
        + apply Z.div_pos; lia.
        + apply Z.lt_succ_r. apply Z.div_lt_upper_bound; [lia|]. nia. }
    exists a. split; [|exact Ha].
    assert (H63 : 2 ^ 53 < 2 ^ 63) by reflexivity.
    replace (- 2 ^ 63 <=? a) with true by (symmetry; apply Z.leb_le; lia).
    replace (a <? 2 ^ 63) with true by (symmetry; apply Z.ltb_lt; lia).
    reflexivity.
Qed.

(** [(uint32_t)floor(N)] is defined for a double from 0 to below 2^32. *)
Lemma floor_defined (N : float) (M0 : Z) :
  0 <= M0 < 2 ^ 32 -> SF_at_most (Prim2SF N) M0 ->
  exists INT0, Double.to_uint32 (Double.floor N) = Some INT0 /\ 0 <= INT0 <= M0.
Proof.
  intros HM H. unfold Double.floor.
  destruct (Prim2SF N) as [s|s| |s m e] eqn:HN; try contradiction.
  - exists 0. split; [|lia]. unfold Double.to_uint32. rewrite HN. reflexivity.
  - destruct s; [contradiction|]. cbn [SF_at_most] in H.
    destruct (Z.leb_spec 0 e) as [He|He].
    + unfold Double.to_uint32. rewrite HN.
      unfold at_most in H. rewrite Z.max_l, Z.max_r, Z.pow_0_r, Z.mul_1_r in H by lia.
      unfold Double.trunc_mag. rewrite Z.shiftl_mul_pow2 by lia.
      pose proof (Z.pow_pos_nonneg 2 e ltac:(lia) He).
      exists (Zpos m * 2 ^ e).
      replace (0 <=? Zpos m * 2 ^ e) with true by (symmetry; apply Z.leb_le; nia).
      replace (Zpos m * 2 ^ e <? 2 ^ 32) with true by (symmetry; apply Z.ltb_lt; lia).
      split; [reflexivity|nia].
    + rewrite trunc_mag_div by lia.
      apply (at_most_scaled _ _ _ (- e)) in H; [|lia|lia].
      replace (e + - e) with 0 in H by lia. rewrite Z.pow_0_r, Z.mul_1_r in H.
      pose proof (Z.pow_pos_nonneg 2 (- e) ltac:(lia) ltac:(lia)) as Hp.
      set (q := Zpos m / 2 ^ (- e)).
      assert (Hq : 0 <= q <= M0).
      { split; [apply Z.div_pos; lia|].
        apply Z.lt_succ_r. apply Z.div_lt_upper_bound; [lia|]. nia. }
      rewrite to_uint32_of_int by (change (2 ^ 53) with (2 ^ 32 * 2 ^ 21); lia).
      exists q. replace (q <? 2 ^ 32) with true by (symmetry; apply Z.ltb_lt; lia).
      split; [reflexivity|exact Hq].
Qed.

(** The conversions of [compute_INT_FRAC] are defined for every ratio N from
    0 to below 2^32. *)
Lemma compute_INT_FRAC_defined (N : float) (m M0 : Z) :
  0 <= M0 < 2 ^ 32 -> 0 < m < 2 ^ 32 -> SF_at_most (Prim2SF N) M0 ->
  exists INT0 FRAC0,
    Test.compute_INT_FRAC N m = Some (INT0, FRAC0)
    /\ 0 <= INT0 <= M0 /\ 0 <= FRAC0 <= m.
Proof.
  intros HM Hm H.
  destruct (floor_defined N M0 HM H) as (INT0 & Hfloor & HI).
  pose proof (product_at_most _ m Hm (fraction_at_most_1 N INT0 Hfloor)) as Hprod.
  assert (Hm53 : 0 <= m < 2 ^ 53) by (change (2 ^ 53) with (2 ^ 32 * 2 ^ 21); lia).
  destruct (llround_defined _ m Hm53 Hprod) as (v & Hv & Hvm).
  exists INT0, (uint32 v).
  unfold Test.compute_INT_FRAC. rewrite Hfloor. cbn [mbind option_bind].
  rewrite Hv. cbn [mbind option_bind].
  split; [reflexivity|]. split; [exact HI|].
  unfold uint32. rewrite Z.mod_small by lia. exact Hvm.
Qed.

Lemma planFrequency_intro cfg rf b div m0 INT0 FRAC0 :
  Test.choose_output_divider rf = Some div ->
  Test.raw_MOD cfg div = Some m0 ->
  Test.compute_INT_FRAC (vco_of rf div / Test.pfd_calculation cfg)
    (Test.clamp_MOD m0) = Some (INT0, FRAC0) ->
  exists p,
    Test.planFrequency cfg rf b = Some (p, b, range_report rf div)
    /\ Test.out_div p = div.
Proof.
  unfold Test.planFrequency, range_report, vco_of.
  cbv [mbind M_bind mret M_ret defined undefined Serial_println emit].
  intros -> -> ->.
  destruct (Test.rounding_overflow INT0 FRAC0 (Test.clamp_MOD m0)) as [INT1 FRAC1].
  destruct (Test.reduce_FRAC_MOD FRAC1 (Test.clamp_MOD m0)) as [FRAC2 m2].
  destruct (PrimFloat.ltb Test.VCO_MAX _); eexists; split; reflexivity.
Qed.

(** With the reference and the channel step of the file the modulus is
    defined for each of the seven dividers. *)
Lemma raw_MOD_defined rf d :
  In d dividers -> exists m0, Test.raw_MOD (settings_for rf 1000) d = Some m0.
Proof.
  unfold dividers. intros H. simpl in H.
  repeat (destruct H as [<-|H]; [eexists; vm_compute; reflexivity|]).
  contradiction.
Qed.

Lemma divider_has_exponent d :
  In d dividers -> exists k, In (d, k) divider_exponents.
Proof.
  unfold dividers, divider_exponents. intros H. simpl in H.
  repeat (destruct H as [<-|H]; [eexists; simpl; tauto|]).
  contradiction.
Qed.

(** A VCO frequency in the band, over the 10 MHz PFD frequency, is at most
    1300. *)
Lemma ratio_at_most (vco : float) (m : positive) (e : Z) :
  Prim2SF vco = S754_finite false m e ->
  digits2_pos m = 53%positive ->
  -20 <= e -> (e < -19 \/ (e = -19 /\ Zpos m <= 6815744000000000)) ->
  SF_at_most (Prim2SF (vco / 10e6)) 1300.
Proof.
  intros Hvco Hd Hlo Hhi.
  rewrite FloatAxioms.div_spec, Hvco.
  change (Prim2SF 10e6) with (S754_finite false 5368709120000000 (-29)).
  pose proof (digits2_pos_bounds m) as Hb. rewrite Hd in Hb.
  apply (SFdiv_at_most _ _ _ _ _ 29); try lia.
  - reflexivity.
  - change (2 ^ (-29 + 29)) with 1.
    assert (He : e = -20 \/ e = -19) by lia.
    destruct He as [-> | ->].
    + change (2 ^ (-20 + 29)) with 512. change (2 ^ 53) with 9007199254740992 in Hb. lia.
    + change (2 ^ (-19 + 29)) with 1024. lia.
Qed.

(** A run of [Test.setup] and [n] passes of [Test.loop] with the switch
    TOGGLE_CE_IN_LOOP off, once the planner has returned. *)
Lemma Test_run_off cfg regImage n b b0 b0' p t1 :
  length regImage = 13%nat ->
  Test.planFrequency cfg (Test.RF_OUT_HZ cfg) b0 = Some (p, b0', t1) ->
  Test.TOGGLE_CE_IN_LOOP cfg = false ->
  Test.run cfg regImage n b
  = Some (patched regImage, Test_setup_board b,
          Test_setup_events cfg p t1 regImage (inputs b Test.PIN_LD)
          ++ replicate n (Delay 1000)).
Proof.
  intros Hlen Hplan Hoff.
  pose proof (Test_setup_run cfg regImage b b0 b0' p t1 Hlen Hplan) as Hsetup.
  pose proof (Test_loops_run cfg n (Test_setup_board b)) as Hloops.
  rewrite Hoff, Test_loop_board_idle, Test_loop_waits in Hloops.
  unfold Test.run. rewrite (bind_run _ _ _ _ _ _ Hsetup).
  rewrite (bind_run _ _ _ _ _ _ Hloops). cbv [mret M_ret].
  rewrite app_nil_r. reflexivity.
Qed.

(** X16: the sketch is defined for every target in range.  With the
    reference, the dividers and the channel step of the file, and any target
    from 93.75 MHz to 13 GHz, the planner returns: the divider loop ends, no
    conversion is undefined, nothing is printed, and the VCO frequency lies
    in the band; hence [setup] followed by any number of passes of [loop]
    returns as well, with the patched image, the chip enabled and the latch
    line low. *)
Theorem sketch_is_defined_for_targets_in_range
    (rf : float) (regImage : list Z) (n : nat) (b : board)
    (Hlo : (93.75e6 <=? rf)%float = true) (Hhi : (rf <=? 13e9)%float = true)
    (Hlen : length regImage = 13%nat) :
  exists p b' t,
    Test.planFrequency (settings_for rf 1000) rf b = Some (p, b, [])
    /\ in_band (vco_of rf (Test.out_div p)) = true
    /\ Test.run (settings_for rf 1000) regImage n b = Some (patched regImage, b', t)
    /\ level Test.PIN_CE b' = Some HIGH
    /\ level Test.PIN_LE b' = Some LOW.
Proof.
  destruct (choose_output_divider_least rf) as (d & Hd & Hin & Hbelow & Hexit).
  pose proof (chosen_divider_in_band rf d Hlo Hhi Hin Hbelow Hexit) as Hband.
  destruct (target_in_range rf Hlo Hhi) as (m & e & Hrf & Hm & Hel & Heh).
  destruct (divider_has_exponent d Hin) as [k Hk].
  destruct (divider_exponents_range d k Hk) as [Hkr _].
  assert (Hek : -1074 <= e + k <= 971) by lia.
  pose proof (vco_of_exact rf m e d k Hrf Hm Hk Hek) as Hvco.
  pose proof (proj1 (vco_in_band rf m e d k Hrf Hm Hk Hek) Hband) as [Hblo Hbhi].
  assert (HN : SF_at_most (Prim2SF (vco_of rf d / 10e6)) 1300).
  { apply (ratio_at_most _ m (e + k)); [exact Hvco|exact Hm|lia|exact Hbhi]. }
  destruct (raw_MOD_defined rf d Hin) as [m0 Hm0].
  pose proof (clamp_MOD_range m0) as Hclamp. unfold MOD_MAX in Hclamp.
  destruct (compute_INT_FRAC_defined (vco_of rf d / 10e6) (Test.clamp_MOD m0) 1300
              ltac:(lia) ltac:(lia) HN) as (INT0 & FRAC0 & Hfrac & _).
  destruct (planFrequency_intro (settings_for rf 1000) rf b d m0 INT0 FRAC0 Hd Hm0 Hfrac)
    as (p & Hplan & Hdiv).
  assert (Hsilent : range_report rf d = []).
  { unfold range_report. unfold in_band in Hband. apply andb_prop in Hband as [_ Hmax].
    rewrite (leb_not_gt _ _ Hmax). reflexivity. }
  rewrite Hsilent in Hplan.
  exists p, (Test_setup_board b),
    (Test_setup_events (settings_for rf 1000) p [] regImage (inputs b Test.PIN_LD)
     ++ replicate n (Delay 1000)).
  split; [exact Hplan|]. split; [rewrite Hdiv; exact Hband|].
  split; [apply (Test_run_off _ _ _ _ b b p []); [exact Hlen|exact Hplan|reflexivity]|].
  apply Test_setup_board_levels.
Qed.

Lemma sketch_is_defined_for_targets_in_range_witness :
  exists p b' t,
    Test.planFrequency (settings_for 2.4e9 1000) 2.4e9 idle_board
    = Some (p, idle_board, [])
    /\ in_band (vco_of 2.4e9 (Test.out_div p)) = true
    /\ Test.run (settings_for 2.4e9 1000) Test.regImage_base 2 idle_board
       = Some (patched Test.regImage_base, b', t)
    /\ level Test.PIN_CE b' = Some HIGH
    /\ level Test.PIN_LE b' = Some LOW.
Proof.
  apply (sketch_is_defined_for_targets_in_range 2.4e9%float Test.regImage_base 2
           idle_board); reflexivity.
Defined.

(** ** Which word reaches which register *)

Lemma Test_setup_traffic cfg p rf div regImage ld :
  bus_traffic HSPI (Test_setup_events cfg p (range_report rf div) regImage ld)
  = flat_map transaction (rev (patched regImage)).
Proof.
  unfold Test_setup_events.
  rewrite !bus_traffic_app, bus_traffic_configure, bus_traffic_writes.
  cbn [bus_traffic app]. apply app_nil_r.
Qed.

Lemma withAddr_range w r : word32 (Test.withAddr w r).
Proof.
  unfold word32.
  assert (H32 : Test.withAddr w r = Test.withAddr w r mod 2 ^ 32).
  { rewrite <- Z.land_ones by lia. apply Z.bits_inj'. intros i Hi.
    rewrite Z.land_spec, Z.testbit_ones_nonneg, testbit_withAddr by lia.
    destruct (Z.ltb_spec i 32).
    - destruct (Z.testbit w i), (Z.testbit r i), (4 <=? i), (i <? 4); reflexivity.
    - replace (i <? 4) with false by (symmetry; apply Z.ltb_ge; lia).
      rewrite !andb_false_r. reflexivity. }
  rewrite H32. apply Z.mod_pos_bound. lia.
Qed.

Lemma patched_word32 regImage : Forall word32 (patched regImage).
Proof.
  unfold patched. apply Forall_lookup. intros i w Hw.
  rewrite list_lookup_imap in Hw.
  destruct (regImage !! i) as [w0|]; [|discriminate Hw].
  injection Hw as <-. apply withAddr_range.
Qed.

(** X17: the two sketches pair the register words of the file with
    different addresses.  Both send 13 words whose low four bits are the
    addresses 12, 11, ..., 0 in this order, and the dual-board sketch sends
    the array of the file as it stands; but [test.cpp] patches the word at
    array index i with the address i and writes from index 12 down, so the
    upper 28 bits it sends to address a are those the dual-board sketch
    sends to address 12 - a: the words reach the chip with their payloads in
    the opposite order. *)
Theorem payloads_reach_mirrored_addresses
    (cfg : Test.UserSettings) (b b0 b0' : board) (p : Test.PllParams)
    (t1 : list event)
    (Hplan : Test.planFrequency cfg (Test.RF_OUT_HZ cfg) b0 = Some (p, b0', t1)) :
  let sent := received_words HSPI (events (Test.setup cfg Test.regImage_base) b) in
  let sentA := received_words SPI0 (events Sketch.setup b) in
  map (fun w => Z.land w 0xF) sent = map Z.of_nat descending
  /\ map (fun w => Z.land w 0xF) sentA = map Z.of_nat descending
  /\ map (fun w => Z.shiftr w 4) sent = rev (map (fun w => Z.shiftr w 4) sentA)
  /\ sentA = Sketch.regs
  /\ Sketch.regs = Test.regImage_base
  /\ sent = rev (patched Test.regImage_base)
  /\ sent <> sentA.
Proof.
  intros sent sentA.
  assert (Hsent : sent = rev (patched Test.regImage_base)).
  { unfold sent, received_words, events.
    rewrite (Test_setup_run cfg Test.regImage_base b b0 b0' p t1 eq_refl Hplan).
    destruct (planFrequency_inv _ _ _ _ _ _ Hplan)
      as (div & _ & _ & _ & _ & _ & _ & _ & _ & ->).
    rewrite Test_setup_traffic, frames_transactions.
    apply from_big_endian_words, Forall_rev, patched_word32. }
  assert (HsentA : sentA = Sketch.regs).
  { unfold sentA, received_words, events. rewrite Sketch_setup_run.
    vm_compute. reflexivity. }
  clearbody sent sentA. subst sent sentA.
  split; [vm_compute; reflexivity|].
  split; [vm_compute; reflexivity|].
  split; [vm_compute; reflexivity|].
  split; [reflexivity|]. split; [reflexivity|]. split; [reflexivity|].
  intros H. apply (f_equal (fun l => l !! 0%nat)) in H. vm_compute in H. discriminate H.
Qed.

Lemma payloads_reach_mirrored_addresses_witness :
  let sent := received_words HSPI
                (events (Test.setup Test.user_settings Test.regImage_base) idle_board) in
  let sentA := received_words SPI0 (events Sketch.setup idle_board) in
  map (fun w => Z.land w 0xF) sent = map Z.of_nat descending
  /\ map (fun w => Z.land w 0xF) sentA = map Z.of_nat descending
  /\ map (fun w => Z.shiftr w 4) sent = rev (map (fun w => Z.shiftr w 4) sentA)
  /\ sentA = Sketch.regs
  /\ Sketch.regs = Test.regImage_base
  /\ sent = rev (patched Test.regImage_base)
  /\ sent <> sentA.
Proof.
  apply (payloads_reach_mirrored_addresses Test.user_settings
           idle_board idle_board idle_board
           {| Test.pfd_hz := 10e6; Test.INT := 1052; Test.FRAC := 1;
              Test.MOD := 2; Test.out_div := 1; Test.rfouta_en := false;
              Test.rfoutb_en := true; Test.pwr := Test.PWR_MAX |} []).
  vm_compute. reflexivity.
Defined.

(** ** The output switches *)

(** X18: the planner never enables both outputs.  Whenever [planFrequency]
    returns, RFOUTA and RFOUTB are not both enabled; one of them is enabled
    exactly when OUTPUT_ENABLE is set, and it is RFOUTB exactly when
    USE_RFOUTB is set as well; the power is the one of the settings and
    pfd_hz is the PFD frequency of the settings, whatever the target. *)
Theorem at_most_one_output_enabled
    (cfg : Test.UserSettings) (rf : float) (b b' : board) (p : Test.PllParams)
    (t : list event)
    (Hplan : Test.planFrequency cfg rf b = Some (p, b', t)) :
  Test.rfouta_en p && Test.rfoutb_en p = false
  /\ Test.rfouta_en p || Test.rfoutb_en p = Test.OUTPUT_ENABLE cfg
  /\ Test.rfoutb_en p = Test.USE_RFOUTB cfg && Test.OUTPUT_ENABLE cfg
  /\ Test.pwr p = Test.OUTPUT_POWER cfg
  /\ Test.pfd_hz p = Test.pfd_calculation cfg.
Proof.
  destruct (planFrequency_inv _ _ _ _ _ _ Hplan)
    as (div & m0 & INT0 & FRAC0 & _ & _ & _ & -> & _ & _).
  cbn [Test.rfouta_en Test.rfoutb_en Test.pwr Test.pfd_hz].
  destruct (Test.USE_RFOUTB cfg), (Test.OUTPUT_ENABLE cfg); repeat split; reflexivity.
Qed.

Lemma at_most_one_output_enabled_witness :
  false && true = false
  /\ false || true = Test.OUTPUT_ENABLE Test.user_settings
  /\ true = Test.USE_RFOUTB Test.user_settings && Test.OUTPUT_ENABLE Test.user_settings
  /\ Test.PWR_MAX = Test.OUTPUT_POWER Test.user_settings
  /\ 10e6%float = Test.pfd_calculation Test.user_settings.
Proof.
  apply (at_most_one_output_enabled Test.user_settings 10.525e9%float
           idle_board idle_board
           {| Test.pfd_hz := 10e6; Test.INT := 1052; Test.FRAC := 1;
              Test.MOD := 2; Test.out_div := 1; Test.rfouta_en := false;
              Test.rfoutb_en := true; Test.pwr := Test.PWR_MAX |} []).
  vm_compute. reflexivity.
Defined.
